(** * whisper-ctranslate2: the command-line front end

    A shallow embedding of [whisper_ctranslate2.py]: the scalar coercers
    handed to argparse, the temperature ladder, the model/language
    corrector, the option validator and the live/batch dispatcher of
    [main], followed by the properties established about them.

    Conventions.
    - A Python [str] is a [string]; its characters are the code points
      below 256.
    - [None]-able values are [option]s.
    - A raised exception is the [Raise] branch of [result]; the effects of
      [main] (warnings, prints, collaborator calls) are recorded, in
      program order, in a trace of [event]s.
    - Python floats are IEEE 754 doubles, computed by the kernel's
      primitive floats (instance [binary64] of the class [Number], which
      lists the operations the program performs on them).
    - A call that leaves the program (creating the directory, allocating
      the ladder, the engines, the writer) may raise: its outcome is read
      from the surroundings [Env]. *)

From Stdlib Require Import ZArith Lia List Bool.
From Stdlib Require Import Ascii String.
From Stdlib Require DecimalString DecimalPos DecimalZ.
From Stdlib Require FloatAxioms.
From Stdlib Require Import PrimFloat FloatOps SpecFloat Uint63.
Import ListNotations.

Set Warnings "-inexact-float".

Local Open Scope string_scope.
Local Open Scope Z_scope.

(** ** Exceptions and results *)

Inductive exn : Type :=
| ValueError (msg : string)
| RuntimeError (msg : string)
| ZeroDivisionError (msg : string)
| MemoryError (msg : string)
| OSError (msg : string)         (* FileNotFoundError and its like *)
| ArgumentError (msg : string)   (* argparse reports [msg] and exits with status 2 *)
| LiveUnavailable.

Inductive result (A : Type) : Type :=
| Ok (a : A)
| Raise (e : exn).

Arguments Ok {A} a.
Arguments Raise {A} e.

Definition rbind {A B : Type} (r : result A) (k : A -> result B) : result B :=
  match r with
  | Ok a => k a
  | Raise e => Raise e
  end.

(** [[f(x) for x in xs]]: left to right, the first exception escapes. *)
Fixpoint comprehension {A B : Type} (f : A -> result B) (xs : list A)
  : result (list B) :=
  match xs with
  | [] => Ok []
  | x :: xs' =>
      rbind (f x) (fun y =>
      rbind (comprehension f xs') (fun ys => Ok (y :: ys)))
  end.

Definition is_ok {A : Type} (r : result A) : bool :=
  match r with Ok _ => true | Raise _ => false end.

(** ** Python strings *)

Module PyStr.

Definition chars := list_ascii_of_string.

Definition code (c : ascii) : nat := nat_of_ascii c.

Definition squote : ascii := ascii_of_nat 39.
Definition dquote : ascii := ascii_of_nat 34.
Definition backslash : ascii := ascii_of_nat 92.

(** [sub in s]: substring test. *)
Fixpoint contains (sub s : string) : bool :=
  prefix sub s ||
  match s with
  | EmptyString => false
  | String _ s' => contains sub s'
  end.

(** [s.endswith(suffix)]. *)
Fixpoint endswith (s suffix : string) : bool :=
  String.eqb s suffix ||
  match s with
  | EmptyString => false
  | String _ s' => endswith s' suffix
  end.

(** [s.split(sep)] for a one-character separator: every occurrence
    cuts, so the result is never empty and may hold empty pieces. *)
Fixpoint split (sep : ascii) (s : string) : list string :=
  match s with
  | EmptyString => [EmptyString]
  | String c s' =>
      if Ascii.eqb c sep then EmptyString :: split sep s'
      else match split sep s' with
           | [] => [String c EmptyString]
           | piece :: rest => String c piece :: rest
           end
  end.

(** Truth value of a string: [bool(s)], [not s]. *)
Definition truthy (s : string) : bool :=
  match s with EmptyString => false | String _ _ => true end.

Definition hexdigit (n : nat) : ascii :=
  if Nat.ltb n 10 then ascii_of_nat (48 + n) else ascii_of_nat (87 + n).

Definition printable (c : ascii) : bool :=
  let n := code c in
  (Nat.leb 32 n && Nat.ltb n 127) || (Nat.ltb 160 n && negb (Nat.eqb n 173)).

Definition repr_char (q c : ascii) : string :=
  if Ascii.eqb c q || Ascii.eqb c backslash then String backslash (String c "")
  else if Nat.eqb (code c) 9 then String backslash "t"
  else if Nat.eqb (code c) 10 then String backslash "n"
  else if Nat.eqb (code c) 13 then String backslash "r"
  else if printable c then String c ""
  else String backslash
         (String "x" (String (hexdigit (Nat.div (code c) 16))
                        (String (hexdigit (Nat.modulo (code c) 16)) ""))).

Fixpoint repr_body (q : ascii) (s : string) : string :=
  match s with
  | EmptyString => EmptyString
  | String c s' => repr_char q c ++ repr_body q s'
  end.

(** [repr(s)]: single quotes unless the text holds a single quote and
    no double quote. *)
Definition repr (s : string) : string :=
  let q := if contains (String squote "") s && negb (contains (String dquote "") s)
           then dquote else squote in
  String q (repr_body q s ++ String q "").

(** The first [n] characters of [s]: the precision of a [%.200R] format. *)
Fixpoint cut (n : nat) (s : string) : string :=
  match n, s with
  | S n', String c s' => String c (cut n' s')
  | _, _ => EmptyString
  end.

(** Reading a quoted text back: the inverse of [repr], used to state
    that a quoted text determines the text it quotes. *)
Definition hexvalue (c : ascii) : option nat :=
  let n := code c in
  if Nat.leb 48 n && Nat.leb n 57 then Some (n - 48)%nat
  else if Nat.leb 97 n && Nat.leb n 102 then Some (n - 87)%nat
  else None.

Fixpoint unrepr_body (q : ascii) (cs : list ascii) : option string :=
  match cs with
  | [] => None
  | c :: cs1 =>
      if Ascii.eqb c q then
        match cs1 with [] => Some EmptyString | _ :: _ => None end
      else if Ascii.eqb c backslash then
        match cs1 with
        | e :: cs2 =>
            if Ascii.eqb e "x" then
              match cs2 with
              | h :: l :: cs3 =>
                  match hexvalue h, hexvalue l, unrepr_body q cs3 with
                  | Some a, Some b, Some s => Some (String (ascii_of_nat (16 * a + b)%nat) s)
                  | _, _, _ => None
                  end
              | _ => None
              end
            else
              let c' := if Ascii.eqb e "t" then ascii_of_nat 9
                        else if Ascii.eqb e "n" then ascii_of_nat 10
                        else if Ascii.eqb e "r" then ascii_of_nat 13
                        else e in
              option_map (String c') (unrepr_body q cs2)
        | [] => None
        end
      else option_map (String c) (unrepr_body q cs1)
  end.

Definition unrepr (r : string) : option string :=
  match chars r with
  | q :: cs =>
      if Ascii.eqb q squote || Ascii.eqb q dquote then unrepr_body q cs else None
  | [] => None
  end.

End PyStr.

(** ** The builtin [int(str)]

    Leading and trailing whitespace is dropped, one sign is allowed, and
    the digits may be grouped by single underscores.  A run of more than
    [max_str_digits] digits is refused as soon as it has been scanned,
    before the text that follows it is looked at. *)

Module PyInt.

Definition is_space (c : ascii) : bool :=
  let n := PyStr.code c in
  (Nat.leb 9 n && Nat.leb n 13) || Nat.eqb n 32 || Nat.eqb n 133 || Nat.eqb n 160.

Definition digit_value (c : ascii) : option Z :=
  let n := PyStr.code c in
  if Nat.leb 48 n && Nat.leb n 57 then Some (Z.of_nat (n - 48)) else None.

Definition underscore : ascii := ascii_of_nat 95.

(** [sys.get_int_max_str_digits()], at its default. *)
Definition max_str_digits : nat := 4300.

Fixpoint lstrip (cs : list ascii) : list ascii :=
  match cs with
  | c :: cs' => if is_space c then lstrip cs' else cs
  | [] => []
  end.

(** The digit scanner of [PyLong_FromString]: [acc] is the value read so
    far, [count] the number of digits read so far, and [prev_us] tells
    whether the previous character was an underscore.  It stops at the
    first character that is neither a digit nor an underscore and returns
    the value and the number of digits with the unread rest. *)
Fixpoint scan_digits (acc : Z) (count : nat) (prev_us : bool) (cs : list ascii)
  : option (Z * nat * list ascii) :=
  match cs with
  | [] => if prev_us then None else Some (acc, count, [])
  | c :: cs' =>
      match digit_value c with
      | Some d => scan_digits (10 * acc + d) (S count) false cs'
      | None =>
          if Ascii.eqb c underscore then
            if prev_us then None else scan_digits acc count true cs'
          else if prev_us then None else Some (acc, count, cs)
      end
  end.

Inductive sign : Type := NoSign | Plus | Minus.

Definition signed (sg : sign) (v : Z) : Z :=
  match sg with Minus => - v | _ => v end.

(** Whitespace, sign and digits: the signed value, the number of digits
    and the unread rest, if the text begins as an integer does. *)
Definition scan (s : string) : option (Z * nat * list ascii) :=
  let cs := lstrip (PyStr.chars s) in
  let '(sg, cs) :=
    match cs with
    | c :: cs' =>
        if Ascii.eqb c "+" then (Plus, cs')
        else if Ascii.eqb c "-" then (Minus, cs')
        else (NoSign, cs)
    | [] => (NoSign, cs)
    end in
  match cs with
  | c :: _ =>
      match digit_value c with
      | None => None
      | Some _ =>
          match scan_digits 0 0 false cs with
          | Some (v, count, rest) => Some (signed sg v, count, rest)
          | None => None
          end
      end
  | [] => None
  end.

Inductive parsed : Type :=
| Value (v : Z)
| Malformed                      (* not the text of an integer *)
| TooManyDigits (count : nat).   (* a run of [count > max_str_digits] digits *)

Definition parse (s : string) : parsed :=
  match scan s with
  | Some (v, count, rest) =>
      if Nat.ltb max_str_digits count then TooManyDigits count
      else match lstrip rest with
           | [] => Value v
           | _ :: _ => Malformed
           end
  | None => Malformed
  end.

(** *** The accepted texts, stated without reference to the scanner

    A decimal integer text is: optional whitespace, an optional sign, a
    body, optional whitespace.  The body is made of digits and
    underscores, begins and ends with a digit and has no two underscores
    in a row.  Its value is the decimal value of its digits. *)

Definition is_digit (c : ascii) : bool :=
  match digit_value c with Some _ => true | None => false end.

Definition add_digit (acc : Z) (c : ascii) : Z :=
  match digit_value c with
  | Some d => 10 * acc + d
  | None => acc
  end.

Definition digits_value (cs : list ascii) : Z := fold_left add_digit cs 0.

(** The number of digits among the characters [cs]. *)
Definition digit_count (cs : list ascii) : nat := List.length (filter is_digit cs).

(** A text at which the scanner stops: empty, or beginning with a
    character that is neither a digit nor an underscore. *)
Definition stops (rest : list ascii) : Prop :=
  match rest with
  | [] => True
  | c :: _ => digit_value c = None /\ Ascii.eqb c underscore = false
  end.

Fixpoint grouped (cs : list ascii) : bool :=
  match cs with
  | [] => false
  | c :: cs' =>
      is_digit c &&
      match cs' with
      | [] => true
      | c' :: cs'' => if Ascii.eqb c' underscore then grouped cs'' else grouped cs'
      end
  end.

Definition sign_chars (sg : sign) : list ascii :=
  match sg with
  | NoSign => []
  | Plus => ["+"%char]
  | Minus => ["-"%char]
  end.

Inductive literal (s : string) (v : Z) : Prop :=
| literal_intro (ws1 : list ascii) (sg : sign) (body ws2 : list ascii) :
    forallb is_space ws1 = true ->
    forallb is_space ws2 = true ->
    grouped body = true ->
    PyStr.chars s = (ws1 ++ sign_chars sg ++ body ++ ws2)%list ->
    v = signed sg (digits_value body) ->
    literal s v.

(** A text that begins as an integer does: whitespace, a sign, a
    well-grouped body, and a rest at which the scanner stops. *)
Definition begins_with_integer (s : string) (v : Z) (count : nat) (rest : list ascii)
  : Prop :=
  exists ws1 sg body,
    forallb is_space ws1 = true
    /\ grouped body = true
    /\ stops rest
    /\ PyStr.chars s = (ws1 ++ sign_chars sg ++ body ++ rest)%list
    /\ v = signed sg (digits_value body)
    /\ count = digit_count body.

(** [str(n)] for an integer: its digits, after a minus sign when it is
    negative. *)
Definition str (n : Z) : string :=
  DecimalString.NilEmpty.string_of_int (Z.to_int n).

(** [str(n)] for a count. *)
Definition str_of_nat (n : nat) : string :=
  DecimalString.NilEmpty.string_of_uint (Nat.to_uint n).

(** The error of a malformed text quotes it with [%.200R]: its [repr],
    cut after 200 characters. *)
Definition invalid_literal (s : string) : exn :=
  ValueError ("invalid literal for int() with base 10: "
                ++ PyStr.cut 200 (PyStr.repr s)).

(** The error of too long a run of digits tells their number, not the
    text. *)
Definition too_many_digits (count : nat) : exn :=
  ValueError ("Exceeds the limit (" ++ str_of_nat max_str_digits
                ++ " digits) for integer string conversion: value has "
                ++ str_of_nat count
                ++ " digits; use sys.set_int_max_str_digits() to increase the limit").

Definition int (s : string) : result Z :=
  match parse s with
  | Value v => Ok v
  | Malformed => Raise (invalid_literal s)
  | TooManyDigits count => Raise (too_many_digits count)
  end.

End PyInt.

(** ** Scalar coercers (source lines 28-41) *)

(** [optional_int]. *)
Definition optional_int (s : string) : result (option Z) :=
  if String.eqb s "None" then Ok None
  else rbind (PyInt.int s) (fun v => Ok (Some v)).

(** The text of [set(str2val.keys())]; the order in which a set of
    strings is listed depends on the interpreter's string hashing, hence
    the parameter. *)
Definition accepted_set (false_first : bool) : string :=
  if false_first then "{'False', 'True'}" else "{'True', 'False'}".

(** [str2bool]. *)
Definition str2bool (false_first : bool) (s : string) : result bool :=
  if String.eqb s "True" then Ok true
  else if String.eqb s "False" then Ok false
  else Raise (ValueError
                ("Expected one of " ++ accepted_set false_first ++ ", got " ++ s)).

(** ** The boolean flags of [read_command_line]

    For an optional argument argparse stores the declared default when the
    flag is not given, and otherwise the declared [type] applied to the
    text that follows the flag; a [ValueError] of the [type] becomes an
    argument error. *)

Module ArgParse.

Inductive flag : Type :=
| verbose
| condition_on_previous_text
| word_timestamps
| vad_filter
| print_colors
| live_transcribe.

Inductive coercer : Type :=
| type_str2bool     (* type=str2bool *)
| type_bool.        (* type=bool, the builtin *)

Definition name (f : flag) : string :=
  match f with
  | verbose => "--verbose"
  | condition_on_previous_text => "--condition_on_previous_text"
  | word_timestamps => "--word_timestamps"
  | vad_filter => "--vad_filter"
  | print_colors => "--print_colors"
  | live_transcribe => "--live_transcribe"
  end.

Definition declared_type (f : flag) : coercer :=
  match f with
  | vad_filter => type_bool
  | verbose | condition_on_previous_text | word_timestamps
  | print_colors | live_transcribe => type_str2bool
  end.

Definition declared_default (f : flag) : bool :=
  match f with
  | verbose | condition_on_previous_text => true
  | word_timestamps | vad_filter | print_colors | live_transcribe => false
  end.

Definition type_name (c : coercer) : string :=
  match c with
  | type_str2bool => "str2bool"
  | type_bool => "bool"
  end.

Definition apply_type (false_first : bool) (c : coercer) (arg_string : string)
  : result bool :=
  match c with
  | type_str2bool => str2bool false_first arg_string
  | type_bool => Ok (PyStr.truthy arg_string)
  end.

(** The value stored for [f]; [given] is the text passed to the flag, if
    the flag occurs on the command line. *)
Definition get_value (false_first : bool) (f : flag) (given : option string)
  : result bool :=
  match given with
  | None => Ok (declared_default f)
  | Some arg_string =>
      match apply_type false_first (declared_type f) arg_string with
      | Ok v => Ok v
      | Raise _ =>
          Raise (ArgumentError
                   ("argument " ++ name f ++ ": invalid "
                      ++ type_name (declared_type f) ++ " value: "
                      ++ PyStr.repr arg_string))
      end
  end.

End ArgParse.

(** ** Numbers

    The operations the program performs on its float arguments.  [ndiv] is
    Python's true division, which refuses a zero divisor; [nceil] is the
    rounding of the element count to a machine index; [nis_zero] is the
    comparison with zero and [nsignbit] the sign bit. *)

Inductive ceiling : Type :=
| Count (n : Z)      (* the ceiling, within the range of a machine index *)
| NotANumber
| OutOfRange.

Definition intp_min : Z := - 2 ^ 63.
Definition intp_max : Z := 2 ^ 63 - 1.

(** The range check of [_arange_safe_ceil_to_intp].  (The C code compares
    doubles, so it lets the single value [2 ^ 63] through to a conversion
    whose result C leaves undefined; here that value is out of range.) *)
Definition to_intp (n : Z) : ceiling :=
  if (intp_min <=? n) && (n <=? intp_max) then Count n else OutOfRange.

Class Number (R : Type) : Type := {
  nadd : R -> R -> R;
  nsub : R -> R -> R;
  nmul : R -> R -> R;
  ndiv : R -> R -> option R;
  nceil : R -> ceiling;
  nis_zero : R -> bool;
  nsignbit : R -> bool;
  nleb : R -> R -> bool;
  of_index : Z -> R;
  one : R;          (* the literal 1.0 *)
  millionth : R     (* the literal 1e-6 *)
}.

(** IEEE 754 double precision, computed by the kernel's primitive floats. *)
Module Binary64.

Definition ceil (x : float) : ceiling :=
  match Prim2SF x with
  | S754_nan => NotANumber
  | S754_infinity _ => OutOfRange
  | S754_zero _ => Count 0
  | S754_finite negative m e =>
      let mantissa := if negative then Z.neg m else Z.pos m in
      to_intp (if 0 <=? e then mantissa * 2 ^ e
               else - (- mantissa / 2 ^ (- e)))
  end.

Definition div (a b : float) : option float :=
  if PrimFloat.eqb b 0%float then None else Some (PrimFloat.div a b).

Definition is_zero (x : float) : bool := PrimFloat.eqb x 0%float.

Definition signbit (x : float) : bool :=
  match Prim2SF x with
  | S754_zero s | S754_infinity s | S754_finite s _ _ => s
  | S754_nan => false
  end.

Definition of_index (i : Z) : float := PrimFloat.of_uint63 (Uint63.of_Z i).

(** The sign of a number that is neither zero nor a NaN. *)
Definition strict_sign (x : spec_float) : option bool :=
  match x with
  | S754_finite s _ _ | S754_infinity s => Some s
  | S754_zero _ | S754_nan => None
  end.

(** The sign of [x - y] when [y] compares to [x] as [c] tells. *)
Definition sign_of_comparison (c : option comparison) : option bool :=
  match c with
  | Some Lt => Some false
  | Some Gt => Some true
  | _ => None
  end.

End Binary64.

#[export] Instance binary64 : Number float := {|
  nadd := PrimFloat.add;
  nsub := PrimFloat.sub;
  nmul := PrimFloat.mul;
  ndiv := Binary64.div;
  nceil := Binary64.ceil;
  nis_zero := Binary64.is_zero;
  nsignbit := Binary64.signbit;
  nleb := PrimFloat.leb;
  of_index := Binary64.of_index;
  one := 1%float;
  millionth := 1e-6%float
|}.

(** ** [numpy.arange] on float arguments

    The element count is the ceiling of [(stop - start) / step], except
    that a quotient of zero obtained from a span that is not zero counts
    for one element, or for none when its sign bit is set; a count of
    zero or less gives the empty array.  The array is then allocated,
    which may fail.  The first two cells receive [start] and
    [start + step], the remaining cells [start + i * delta] where [delta]
    is the difference of the first two cells. *)

Section Arange.

Context {R : Type} {N : Number R}.

Definition fill (start next : R) (len : nat) : list R :=
  match len with
  | O => []
  | S O => [start]
  | S (S k) =>
      let delta := nsub next start in
      start :: next ::
        map (fun i : nat => nadd start (nmul (of_index (Z.of_nat i)) delta))
            (seq 2 k)
  end.

(** The element count ([_calc_length]). *)
Definition arange_length (start stop step : R) : result Z :=
  let span := nsub stop start in
  match ndiv span step with
  | None => Raise (ZeroDivisionError "float division by zero")
  | Some q =>
      match nceil q with
      | NotANumber => Raise (ValueError "arange: cannot compute length")
      | OutOfRange => Raise (ValueError "Maximum allowed size exceeded")
      | Count n =>
          if nis_zero q && negb (nis_zero span)
          then Ok (if nsignbit q then 0 else 1)
          else Ok n
      end
  end.

(** [allocate n] is the exception raised when room for [n] elements
    cannot be had, if any. *)
Definition arange (allocate : Z -> option exn) (start stop step : R) : result (list R) :=
  rbind (arange_length start stop step) (fun n =>
    if n <=? 0 then Ok []
    else match allocate n with
         | Some e => Raise e
         | None => Ok (fill start (nadd start step) (Z.to_nat n))
         end).

(** The expression [1.0 + 1e-6]. *)
Definition bound : R := nadd one millionth.

(** Source lines 317-321: the fallback temperatures. *)
Definition ladder (allocate : Z -> option exn) (temperature : R) (increment : option R)
  : result (list R) :=
  match increment with
  | Some d => arange allocate temperature bound d
  | None => Ok [temperature]
  end.

(** Non-decreasing with respect to [nleb]. *)
Fixpoint ascending (l : list R) : bool :=
  match l with
  | x :: ((y :: _) as tl) => nleb x y && ascending tl
  | _ => true
  end.

End Arange.

(** ** Data model of [main] *)

(** [device_index] is [Union[int, List[int]]]. *)
Inductive device_ids : Type :=
| OneDevice (i : Z)
| Devices (ids : list Z).

Set Implicit Arguments.

(** The dictionary returned by [read_command_line], one field per
    declared argument. *)
Module Args.
Record t (R : Type) : Type := mk {
  audio : list string;
  model : string;
  model_dir : option string;
  output_dir : string;
  output_format : string;
  verbose : bool;
  task : string;
  language : option string;
  threads : option Z;
  temperature : R;
  temperature_increment_on_fallback : option R;
  best_of : option Z;
  beam_size : option Z;
  patience : R;
  length_penalty : R;
  suppress_tokens : string;
  initial_prompt : option string;
  condition_on_previous_text : bool;
  compression_ratio_threshold : option R;
  logprob_threshold : option R;
  no_speech_threshold : option R;
  word_timestamps : bool;
  prepend_punctuations : string;
  append_punctuations : string;
  device : string;
  vad_filter : bool;
  vad_threshold : option R;
  vad_min_speech_duration_ms : option Z;
  vad_max_speech_duration_s : option Z;
  vad_min_silence_duration_ms : option Z;
  device_index : device_ids;
  compute_type : string;
  model_directory : option string;
  print_colors : bool;
  live_transcribe : bool
}.
End Args.

Module TranscriptionOptions.
Record t (R : Type) : Type := mk {
  beam_size : option Z;
  best_of : option Z;
  patience : R;
  length_penalty : R;
  log_prob_threshold : option R;
  no_speech_threshold : option R;
  compression_ratio_threshold : option R;
  condition_on_previous_text : bool;
  temperature : list R;
  initial_prompt : option string;
  suppress_tokens : list Z;
  word_timestamps : bool;
  prepend_punctuations : string;
  append_punctuations : string;
  print_colors : bool;
  vad_filter : bool;
  vad_threshold : option R;
  vad_min_speech_duration_ms : option Z;
  vad_max_speech_duration_s : option Z;
  vad_min_silence_duration_ms : option Z
}.
End TranscriptionOptions.

(** What both engines receive besides the audio source. *)
Module Engine.
Record call (R : Type) : Type := mk {
  model_dir : string;
  task : string;
  language : option string;
  threads : option Z;
  device : string;
  device_index : device_ids;
  compute_type : string;
  verbose : bool;
  options : TranscriptionOptions.t R
}.
End Engine.

Unset Implicit Arguments.

(** The observable effects of [main], in program order. *)
Inductive event (R Transcript : Type) : Type :=
| Makedirs (path : string)                       (* os.makedirs(path, exist_ok=True) *)
| Warn (msg : string)                            (* warnings.warn(msg) *)
| Print (msg : string)                           (* print(msg) *)
| StderrWrite (msg : string)                     (* sys.stderr.write(msg) *)
| LiveInference (c : Engine.call R)              (* Live(...).inference() *)
| Inference (audio_path : string) (c : Engine.call R)
                                                 (* Transcribe().inference(audio_path, ..., False, options) *)
| WriterCall (output_format output_dir : string)
             (result : Transcript) (audio_path : string).
                                                 (* get_writer(format, dir)(result, audio_path) *)

Arguments Makedirs {R Transcript} path.
Arguments Warn {R Transcript} msg.
Arguments Print {R Transcript} msg.
Arguments StderrWrite {R Transcript} msg.
Arguments LiveInference {R Transcript} c.
Arguments Inference {R Transcript} audio_path c.
Arguments WriterCall {R Transcript} output_format output_dir result audio_path.

Definition is_engine_call {R T : Type} (e : event R T) : bool :=
  match e with
  | LiveInference _ | Inference _ _ => true
  | _ => false
  end.

Definition is_writer_call {R T : Type} (e : event R T) : bool :=
  match e with
  | WriterCall _ _ _ _ => true
  | _ => false
  end.

(** What [main] asks of its surroundings.  A call that may raise is given
    by its outcome: the value it returns or the exception it raises. *)
Record Env (R Transcript : Type) : Type := {
  (* os.makedirs(path, exist_ok=True): the exception it raises, if any *)
  makedirs : string -> option exn;
  (* making room for a ladder of n values: the exception raised, if any *)
  allocate : Z -> option exn;
  (* from_language_to_iso_code, defined in languages.py *)
  from_language_to_iso_code : option string -> result (option string);
  (* Live.is_available() *)
  live_is_available : bool;
  (* os.path.exists *)
  path_exists : string -> bool;
  (* Live(...).inference(): the exception it raises, if any *)
  live_inference : Engine.call R -> option exn;
  (* Transcribe().inference(audio_path, ...): the transcription it returns *)
  transcribe : string -> Engine.call R -> result Transcript;
  (* get_writer(output_format, output_dir)(result, audio_path):
     the exception it raises, if any *)
  write : string -> string -> Transcript -> string -> option exn
}.

Arguments makedirs {R Transcript} e _.
Arguments allocate {R Transcript} e _.
Arguments from_language_to_iso_code {R Transcript} e _.
Arguments live_is_available {R Transcript} e.
Arguments path_exists {R Transcript} e _.
Arguments live_inference {R Transcript} e _.
Arguments transcribe {R Transcript} e _ _.
Arguments write {R Transcript} e _ _ _ _.

(** ** Effects: a trace of events and a result *)

Module Eff.

Definition M (E A : Type) : Type := (list E * result A)%type.

Definition ret {E A : Type} (a : A) : M E A := ([], Ok a).

Definition bind {E A B : Type} (m : M E A) (k : A -> M E B) : M E B :=
  match m with
  | (t, Ok a) => let '(t', r) := k a in ((t ++ t')%list, r)
  | (t, Raise e) => (t, Raise e)
  end.

Definition emit {E : Type} (e : E) : M E unit := ([e], Ok tt).

Definition throw {E A : Type} (e : exn) : M E A := ([], Raise e).

Definition lift {E A : Type} (r : result A) : M E A := ([], r).

(** The outcome of a call made for its effect. *)
Definition check {E : Type} (raised : option exn) : M E unit :=
  match raised with
  | Some e => throw e
  | None => ret tt
  end.

Definition when {E : Type} (c : bool) (m : M E unit) : M E unit :=
  if c then m else ret tt.

(** [for x in xs: body(x)]. *)
Fixpoint for_each {E A : Type} (xs : list A) (body : A -> M E unit) : M E unit :=
  match xs with
  | [] => ret tt
  | x :: xs' => bind (body x) (fun _ => for_each xs' body)
  end.

End Eff.

Declare Scope eff_scope.
Delimit Scope eff_scope with eff.
Notation "x <- m ;; k" := (Eff.bind m (fun x => k))
  (at level 61, m at next level, right associativity) : eff_scope.
Notation "m ;; k" := (Eff.bind m (fun _ => k))
  (at level 61, right associativity) : eff_scope.

(** ** [main] (source lines 298-418) *)

(** [os.path.join(a, b)] for a relative [b], POSIX flavour. *)
Definition path_join (a b : string) : string :=
  if String.eqb a "" then b
  else if PyStr.endswith a "/" then a ++ b
  else a ++ "/" ++ b.

(** Truth value of a string that may be [None]. *)
Definition truthy (s : option string) : bool :=
  match s with
  | Some s => PyStr.truthy s
  | None => false
  end.

(** [language in {"en", "English"}]. *)
Definition in_en_English (language : option string) : bool :=
  match language with
  | Some l => String.eqb l "en" || String.eqb l "English"
  | None => false
  end.

Definition newline : string := String (ascii_of_nat 10) "".

Section Main.

Context {R : Type} {N : Number R} {Transcript : Type}.
Variable env : Env R Transcript.

Let M := Eff.M (event R Transcript).
Local Open Scope eff_scope.

(** Modelled from the spec: [Live.force_not_available_exception], defined
    in live.py, aborts the invocation with the error that tells that live
    transcription is not available in this environment. *)
Definition force_not_available_exception : M unit :=
  Eff.throw LiveUnavailable.

(** Lines 325-334. *)
Definition correct_language (model : string) (model_directory language : option string)
  : M (option string) :=
  if negb (truthy model_directory)
     && PyStr.endswith model ".en"
     && negb (in_en_English language)
  then
    match language with
    | Some l =>
        Eff.emit (Warn (model ++ " is an English-only model but receipted '"
                          ++ l ++ "'; using English instead."))
    | None => Eff.ret tt
    end ;;
    Eff.ret (Some "en")
  else Eff.ret language.

(** Line 336. *)
Definition parse_suppress_tokens (suppress_tokens : string) : result (list Z) :=
  comprehension PyInt.int (PyStr.split "," suppress_tokens).

(** Lines 337-358: the call of the [TranscriptionOptions] constructor. *)
Definition make_options (a : Args.t R) (temperature : list R) (suppress_tokens : list Z)
  : TranscriptionOptions.t R :=
  {| TranscriptionOptions.beam_size := Args.beam_size a;
     TranscriptionOptions.best_of := Args.best_of a;
     TranscriptionOptions.patience := Args.patience a;
     TranscriptionOptions.length_penalty := Args.length_penalty a;
     TranscriptionOptions.log_prob_threshold := Args.logprob_threshold a;
     TranscriptionOptions.no_speech_threshold := Args.no_speech_threshold a;
     TranscriptionOptions.compression_ratio_threshold :=
       Args.compression_ratio_threshold a;
     TranscriptionOptions.condition_on_previous_text :=
       Args.condition_on_previous_text a;
     TranscriptionOptions.temperature := temperature;
     TranscriptionOptions.initial_prompt := Args.initial_prompt a;
     TranscriptionOptions.suppress_tokens := suppress_tokens;
     TranscriptionOptions.word_timestamps := Args.word_timestamps a;
     TranscriptionOptions.prepend_punctuations := Args.prepend_punctuations a;
     TranscriptionOptions.append_punctuations := Args.append_punctuations a;
     TranscriptionOptions.print_colors := Args.print_colors a;
     TranscriptionOptions.vad_filter := Args.vad_filter a;
     TranscriptionOptions.vad_threshold := Args.vad_threshold a;
     TranscriptionOptions.vad_min_speech_duration_ms :=
       Args.vad_min_speech_duration_ms a;
     TranscriptionOptions.vad_max_speech_duration_s :=
       Args.vad_max_speech_duration_s a;
     TranscriptionOptions.vad_min_silence_duration_ms :=
       Args.vad_min_silence_duration_ms a |}.

(** Lines 300-358: from the arguments to the resolved language and the
    options. *)
Definition resolve (a : Args.t R) : M (option string * TranscriptionOptions.t R) :=
  Eff.emit (Makedirs (Args.output_dir a)) ;;
  Eff.check (makedirs env (Args.output_dir a)) ;;
  temperature <- Eff.lift (ladder (allocate env) (Args.temperature a)
                                  (Args.temperature_increment_on_fallback a)) ;;
  language <- Eff.lift (from_language_to_iso_code env (Args.language a)) ;;
  language <- correct_language (Args.model a) (Args.model_directory a) language ;;
  suppress_tokens <- Eff.lift (parse_suppress_tokens (Args.suppress_tokens a)) ;;
  Eff.ret (language, make_options a temperature suppress_tokens).

(** Lines 360-382: the cross-field checks, the notices and the model
    locator. *)
Definition validate (a : Args.t R) (language : option string)
           (options : TranscriptionOptions.t R) : M string :=
  Eff.when (negb (Args.verbose a) && TranscriptionOptions.print_colors options)
    (Eff.throw (RuntimeError "You cannot disable verbose and enable print colors")) ;;
  Eff.when (Args.live_transcribe a && negb (live_is_available env))
    force_not_available_exception ;;
  Eff.when (Args.verbose a && negb (truthy language))
    (Eff.emit (Print "Detecting language using up to the first 30 seconds. Use `--language` to specify the language")) ;;
  Eff.when (TranscriptionOptions.print_colors options
            && PyStr.truthy (Args.output_dir a)
            && negb (TranscriptionOptions.word_timestamps options))
    (Eff.emit (Print "Print colors requires word-level time stamps. Generated files in output directory will have word-level timestamps")) ;;
  if truthy (Args.model_directory a) then
    match Args.model_directory a with
    | Some model_directory =>
        let model_filename := path_join model_directory "model.bin" in
        if path_exists env model_filename then Eff.ret model_directory
        else Eff.throw (RuntimeError ("Model file '" ++ model_filename
                                        ++ "' does not exists"))
    | None => Eff.ret (Args.model a)
    end
  else Eff.ret (Args.model a).

Definition engine_call (a : Args.t R) (model_dir : string) (language : option string)
           (options : TranscriptionOptions.t R) : Engine.call R :=
  {| Engine.model_dir := model_dir;
     Engine.task := Args.task a;
     Engine.language := language;
     Engine.threads := Args.threads a;
     Engine.device := Args.device a;
     Engine.device_index := Args.device_index a;
     Engine.compute_type := Args.compute_type a;
     Engine.verbose := Args.verbose a;
     Engine.options := options |}.

(** Lines 404-418: one pass of the batch loop. *)
Definition transcribe_one (a : Args.t R) (c : Engine.call R) (audio_path : string)
  : M unit :=
  Eff.emit (Inference audio_path c) ;;
  result <- Eff.lift (transcribe env audio_path c) ;;
  Eff.emit (WriterCall (Args.output_format a) (Args.output_dir a) result audio_path) ;;
  Eff.check (write env (Args.output_format a) (Args.output_dir a) result audio_path).

(** Lines 384-418. *)
Definition dispatch (a : Args.t R) (c : Engine.call R) : M unit :=
  if Args.live_transcribe a then
    Eff.emit (LiveInference c) ;;
    Eff.check (live_inference env c)
  else
    match Args.audio a with
    | [] => Eff.emit (StderrWrite ("You need to specify one or more audio files" ++ newline))
    | _ :: _ => Eff.for_each (Args.audio a) (transcribe_one a c)
    end.

Definition main (a : Args.t R) : M unit :=
  resolved <- resolve a ;;
  let '(language, options) := resolved in
  model_dir <- validate a language options ;;
  dispatch a (engine_call a model_dir language options).

(** The invocation passes resolution and validation: it arrives at the
    dispatcher after the events [t], with the engine arguments [c]. *)
Definition reaches_dispatch (a : Args.t R) (t : list (event R Transcript))
           (c : Engine.call R) : Prop :=
  exists t1 language options t2 model_dir,
    resolve a = (t1, Ok (language, options))
    /\ validate a language options = (t2, Ok model_dir)
    /\ t = (t1 ++ t2)%list
    /\ c = engine_call a model_dir language options.

End Main.

(** The engine arguments an event carries, if it is an engine call. *)
Definition call_of {R T : Type} (e : event R T) : option (Engine.call R) :=
  match e with
  | LiveInference c | Inference _ c => Some c
  | _ => None
  end.

(** An event of one of the two collaborators. *)
Definition is_collaborator_call {R T : Type} (e : event R T) : bool :=
  is_engine_call e || is_writer_call e.

(** A trace without any call of the engine or of the writer. *)
Definition quiet {R T : Type} (t : list (event R T)) : Prop :=
  Forall (fun e => is_collaborator_call e = false) t.

(** ** The batch loop, pass by pass *)

Section Batch.

Context {R Transcript : Type}.
Variable env : Env R Transcript.

(** A pass on [audio_path] in which neither the engine nor the writer
    raises. *)
Definition pass_completes (a : Args.t R) (c : Engine.call R) (audio_path : string) : bool :=
  match transcribe env audio_path c with
  | Ok result =>
      match write env (Args.output_format a) (Args.output_dir a) result audio_path with
      | None => true
      | Some _ => false
      end
  | Raise _ => false
  end.

(** The exception that ends the pass on [audio_path], if one does. *)
Definition pass_exception (a : Args.t R) (c : Engine.call R) (audio_path : string)
  : option exn :=
  match transcribe env audio_path c with
  | Ok result => write env (Args.output_format a) (Args.output_dir a) result audio_path
  | Raise e => Some e
  end.

(** The collaborator calls of the pass on [audio_path]: the engine call
    and, when the engine returns, the writer call on what it returned. *)
Definition pass_events (a : Args.t R) (c : Engine.call R) (audio_path : string)
  : list (event R Transcript) :=
  Inference audio_path c ::
  match transcribe env audio_path c with
  | Ok result =>
      [WriterCall (Args.output_format a) (Args.output_dir a) result audio_path]
  | Raise _ => []
  end.

(** The paths on which a pass is started: those up to the first pass
    that does not complete, that one included. *)
Fixpoint started (a : Args.t R) (c : Engine.call R) (audio : list string) : list string :=
  match audio with
  | [] => []
  | audio_path :: rest =>
      audio_path :: (if pass_completes a c audio_path then started a c rest else [])
  end.

(** The exception that ends the loop, if one does. *)
Fixpoint first_exception (a : Args.t R) (c : Engine.call R) (audio : list string)
  : option exn :=
  match audio with
  | [] => None
  | audio_path :: rest =>
      match pass_exception a c audio_path with
      | Some e => Some e
      | None => first_exception a c rest
      end
  end.

End Batch.

(** ** Sample invocations

    Concrete surroundings and command lines on which the model is run.
    The fields that are not parameters hold the declared defaults, except
    the two punctuation lists, which are shortened, and the three decoding
    thresholds, which are switched off (None). *)

Module Sample.

Section Invocations.

Context {R : Type} {N : Number R}.

(** Nothing fails: the directory can be created, memory is at hand, the
    language resolver leaves codes as they are, no payload file is on
    disk, the engine answers with the path it was given and the writer
    returns. *)
Definition env (live_available : bool) : Env R string :=
  {| makedirs := fun _ => None;
     allocate := fun _ => None;
     from_language_to_iso_code := fun language => Ok language;
     live_is_available := live_available;
     path_exists := fun _ => false;
     live_inference := fun _ => None;
     transcribe := fun audio_path _ => Ok audio_path;
     write := fun _ _ _ _ => None |}.

(** As [env true], but the engine fails on the path [failing]. *)
Definition env_engine_fails_on (failing : string) : Env R string :=
  {| makedirs := fun _ => None;
     allocate := fun _ => None;
     from_language_to_iso_code := fun language => Ok language;
     live_is_available := true;
     path_exists := fun _ => false;
     live_inference := fun _ => None;
     transcribe := fun audio_path _ =>
                     if String.eqb audio_path failing
                     then Raise (RuntimeError "engine failure")
                     else Ok audio_path;
     write := fun _ _ _ _ => None |}.

(** As [env true], but the directory of the empty name cannot be
    created. *)
Definition env_without_directory : Env R string :=
  {| makedirs := fun path =>
                   if String.eqb path ""
                   then Some (OSError "[Errno 2] No such file or directory: ''")
                   else None;
     allocate := fun _ => None;
     from_language_to_iso_code := fun language => Ok language;
     live_is_available := true;
     path_exists := fun _ => false;
     live_inference := fun _ => None;
     transcribe := fun audio_path _ => Ok audio_path;
     write := fun _ _ _ _ => None |}.

Definition invocation (audio : list string) (model : string)
           (model_directory language : option string)
           (temperature : R) (increment : option R)
           (suppress_tokens : string)
           (verbose print_colors live_transcribe : bool) : Args.t R :=
  {| Args.audio := audio;
     Args.model := model;
     Args.model_dir := None;
     Args.output_dir := ".";
     Args.output_format := "all";
     Args.verbose := verbose;
     Args.task := "transcribe";
     Args.language := language;
     Args.threads := Some 0;
     Args.temperature := temperature;
     Args.temperature_increment_on_fallback := increment;
     Args.best_of := Some 5;
     Args.beam_size := Some 5;
     Args.patience := one;
     Args.length_penalty := one;
     Args.suppress_tokens := suppress_tokens;
     Args.initial_prompt := None;
     Args.condition_on_previous_text := true;
     Args.compression_ratio_threshold := None;
     Args.logprob_threshold := None;
     Args.no_speech_threshold := None;
     Args.word_timestamps := false;
     Args.prepend_punctuations := "'([{-";
     Args.append_punctuations := "'.,!?:)]}";
     Args.device := "auto";
     Args.vad_filter := false;
     Args.vad_threshold := None;
     Args.vad_min_speech_duration_ms := None;
     Args.vad_max_speech_duration_s := None;
     Args.vad_min_silence_duration_ms := None;
     Args.device_index := OneDevice 0;
     Args.compute_type := "auto";
     Args.model_directory := model_directory;
     Args.print_colors := print_colors;
     Args.live_transcribe := live_transcribe |}.

(** The invocation [a] with [--output_dir dir]. *)
Definition in_directory (dir : string) (a : Args.t R) : Args.t R :=
  {| Args.audio := Args.audio a;
     Args.model := Args.model a;
     Args.model_dir := Args.model_dir a;
     Args.output_dir := dir;
     Args.output_format := Args.output_format a;
     Args.verbose := Args.verbose a;
     Args.task := Args.task a;
     Args.language := Args.language a;
     Args.threads := Args.threads a;
     Args.temperature := Args.temperature a;
     Args.temperature_increment_on_fallback := Args.temperature_increment_on_fallback a;
     Args.best_of := Args.best_of a;
     Args.beam_size := Args.beam_size a;
     Args.patience := Args.patience a;
     Args.length_penalty := Args.length_penalty a;
     Args.suppress_tokens := Args.suppress_tokens a;
     Args.initial_prompt := Args.initial_prompt a;
     Args.condition_on_previous_text := Args.condition_on_previous_text a;
     Args.compression_ratio_threshold := Args.compression_ratio_threshold a;
     Args.logprob_threshold := Args.logprob_threshold a;
     Args.no_speech_threshold := Args.no_speech_threshold a;
     Args.word_timestamps := Args.word_timestamps a;
     Args.prepend_punctuations := Args.prepend_punctuations a;
     Args.append_punctuations := Args.append_punctuations a;
     Args.device := Args.device a;
     Args.vad_filter := Args.vad_filter a;
     Args.vad_threshold := Args.vad_threshold a;
     Args.vad_min_speech_duration_ms := Args.vad_min_speech_duration_ms a;
     Args.vad_max_speech_duration_s := Args.vad_max_speech_duration_s a;
     Args.vad_min_silence_duration_ms := Args.vad_min_silence_duration_ms a;
     Args.device_index := Args.device_index a;
     Args.compute_type := Args.compute_type a;
     Args.model_directory := Args.model_directory a;
     Args.print_colors := Args.print_colors a;
     Args.live_transcribe := Args.live_transcribe a |}.


End Invocations.

(** [whisper-ctranslate2 a.wav b.wav --model small.en]. *)
Definition two_files : Args.t float :=
  invocation ["a.wav"; "b.wav"] "small.en" None None 0%float (Some 0.2%float) "-1"
             true false false.

(** The engine arguments of that invocation. *)
Definition two_files_call : Engine.call float :=
  engine_call two_files "small.en" (Some "en")
              (make_options two_files
                            [0; 0.2; 0.4; 3 * 0.2; 0.8; 1]%float [-1]).

(** [--print_colors True --verbose False]. *)
Definition colors_without_verbose : Args.t float :=
  invocation [] "small" None None 0%float (Some 0.2%float) "-1" false true false.

(** [--print_colors True --verbose False --suppress_tokens x]. *)
Definition colors_without_verbose_bad_tokens : Args.t float :=
  invocation [] "small" None None 0%float (Some 0.2%float) "x" false true false.

(** No flag and no audio file. *)
Definition no_audio : Args.t float :=
  invocation [] "small" None None 0%float (Some 0.2%float) "-1" true false false.

(** Two texts of 4301 digits. *)
Definition long_integer : string := string_of_list_ascii (repeat "1"%char 4301).



(** Memory without limit. *)
Definition no_limit : Z -> option exn := fun _ => None.



End Sample.

(** ** Further vocabulary for traces and invocations *)

Definition is_warning {R T : Type} (e : event R T) : bool :=
  match e with Warn _ => true | _ => false end.

Definition is_notice {R T : Type} (e : event R T) : bool :=
  match e with Print _ => true | _ => false end.

(** What the dispatcher may leave in the trace. *)
Definition is_dispatch_event {R T : Type} (e : event R T) : bool :=
  match e with
  | LiveInference _ | Inference _ _ | WriterCall _ _ _ _ | StderrWrite _ => true
  | _ => false
  end.

Definition detecting_language_notice : string :=
  "Detecting language using up to the first 30 seconds. Use `--language` to specify the language".

Definition print_colors_notice : string :=
  "Print colors requires word-level time stamps. Generated files in output directory will have word-level timestamps".

(** The model locator of lines 376-382 when the payload check passes. *)
Definition model_locator {R : Type} (a : Args.t R) : string :=
  match Args.model_directory a with
  | Some model_directory =>
      if PyStr.truthy model_directory then model_directory else Args.model a
  | None => Args.model a
  end.

(** ** The integer flags of [read_command_line]

    [--threads], [--best_of] and [--beam_size] are declared with
    [optional_int]; the three voice-activity durations with the builtin
    [int], their default being [None]. *)

Module ArgParseInt.

Inductive flag : Type :=
| threads
| best_of
| beam_size
| vad_min_speech_duration_ms
| vad_max_speech_duration_s
| vad_min_silence_duration_ms.

Inductive coercer : Type :=
| type_optional_int     (* type=optional_int *)
| type_int.             (* type=int, the builtin *)

Definition name (f : flag) : string :=
  match f with
  | threads => "--threads"
  | best_of => "--best_of"
  | beam_size => "--beam_size"
  | vad_min_speech_duration_ms => "--vad_min_speech_duration_ms"
  | vad_max_speech_duration_s => "--vad_max_speech_duration_s"
  | vad_min_silence_duration_ms => "--vad_min_silence_duration_ms"
  end.

Definition declared_type (f : flag) : coercer :=
  match f with
  | threads | best_of | beam_size => type_optional_int
  | vad_min_speech_duration_ms | vad_max_speech_duration_s
  | vad_min_silence_duration_ms => type_int
  end.

Definition declared_default (f : flag) : option Z :=
  match f with
  | threads => Some 0
  | best_of | beam_size => Some 5
  | vad_min_speech_duration_ms | vad_max_speech_duration_s
  | vad_min_silence_duration_ms => None
  end.

Definition type_name (c : coercer) : string :=
  match c with
  | type_optional_int => "optional_int"
  | type_int => "int"
  end.

Definition apply_type (c : coercer) (arg_string : string) : result (option Z) :=
  match c with
  | type_optional_int => optional_int arg_string
  | type_int => rbind (PyInt.int arg_string) (fun v => Ok (Some v))
  end.

(** The value stored for [f]; [given] is the text passed to the flag, if
    the flag occurs on the command line. *)
Definition get_value (f : flag) (given : option string) : result (option Z) :=
  match given with
  | None => Ok (declared_default f)
  | Some arg_string =>
      match apply_type (declared_type f) arg_string with
      | Ok v => Ok v
      | Raise _ =>
          Raise (ArgumentError
                   ("argument " ++ name f ++ ": invalid "
                      ++ type_name (declared_type f) ++ " value: "
                      ++ PyStr.repr arg_string))
      end
  end.

End ArgParseInt.

(** ** More sample invocations *)

Module Sample2.

(** Surroundings in which the one file on disk is
    /models/custom/model.bin. *)
Definition env_with_payload (live_available : bool) : Env float string :=
  {| makedirs := fun _ => None;
     allocate := fun _ => None;
     from_language_to_iso_code := fun language => Ok language;
     live_is_available := live_available;
     path_exists := fun path => String.eqb path "/models/custom/model.bin";
     live_inference := fun _ => None;
     transcribe := fun audio_path _ => Ok audio_path;
     write := fun _ _ _ _ => None |}.

(** [--live_transcribe True a.wav]. *)
Definition live : Args.t float :=
  Sample.invocation ["a.wav"] "small" None None 0%float (Some 0.2%float) "-1"
                    true false true.

(** [--model_directory /models/custom --language fr a.wav]. *)
Definition custom_directory : Args.t float :=
  Sample.invocation ["a.wav"] "small.en" (Some "/models/custom") (Some "fr")
                    0%float (Some 0.2%float) "-1" true false false.

Definition default_options (a : Args.t float) : TranscriptionOptions.t float :=
  make_options a [0; 0.2; 0.4; 3 * 0.2; 0.8; 1]%float [-1].

End Sample2.

(** * Properties *)

(** ** Characters *)

Lemma space_not_digit (c : ascii) :
  PyInt.is_space c = true -> PyInt.digit_value c = None.
Proof.
  destruct c as [[] [] [] [] [] [] [] []]; intros H; try reflexivity; discriminate H.
Qed.

Lemma space_not_underscore (c : ascii) :
  PyInt.is_space c = true -> Ascii.eqb c PyInt.underscore = false.
Proof.
  destruct c as [[] [] [] [] [] [] [] []]; intros H; try reflexivity; discriminate H.
Qed.

Lemma digit_not_space (c : ascii) :
  PyInt.is_digit c = true -> PyInt.is_space c = false.
Proof.
  destruct c as [[] [] [] [] [] [] [] []]; intros H; try reflexivity; discriminate H.
Qed.

Lemma digit_not_sign (c : ascii) :
  PyInt.is_digit c = true ->
  Ascii.eqb c "+" = false /\ Ascii.eqb c "-" = false /\ Ascii.eqb c PyInt.underscore = false.
Proof.
  destruct c as [[] [] [] [] [] [] [] []]; intros H;
    try (repeat split; reflexivity); discriminate H.
Qed.

Lemma underscore_not_digit : PyInt.digit_value PyInt.underscore = None.
Proof. reflexivity. Qed.

Lemma is_digit_value (c : ascii) :
  PyInt.is_digit c = true <-> exists d, PyInt.digit_value c = Some d.
Proof.
  unfold PyInt.is_digit. destruct (PyInt.digit_value c) as [d|]; split.
  - intros _. now exists d.
  - reflexivity.
  - discriminate.
  - intros [d H]. discriminate H.
Qed.

(** ** Whitespace stripping *)

Lemma lstrip_split (cs : list ascii) :
  exists ws, forallb PyInt.is_space ws = true /\ cs = (ws ++ PyInt.lstrip cs)%list.
Proof.
  induction cs as [|c cs IH]; simpl.
  - exists []. split; reflexivity.
  - destruct (PyInt.is_space c) eqn:Hc.
    + destruct IH as [ws [Hws Heq]]. exists (c :: ws). simpl.
      rewrite Hc, Hws. split; [reflexivity | now rewrite <- Heq].
    + exists []. split; reflexivity.
Qed.

Lemma lstrip_spaces (ws cs : list ascii) :
  forallb PyInt.is_space ws = true -> PyInt.lstrip (ws ++ cs) = PyInt.lstrip cs.
Proof.
  induction ws as [|w ws IH]; simpl; intros H; [reflexivity|].
  apply andb_true_iff in H. destruct H as [Hw Hws]. rewrite Hw. now apply IH.
Qed.

Lemma lstrip_nil (cs : list ascii) :
  PyInt.lstrip cs = [] <-> forallb PyInt.is_space cs = true.
Proof.
  induction cs as [|c cs IH]; simpl.
  - split; reflexivity.
  - destruct (PyInt.is_space c); simpl; [exact IH|]. split; discriminate.
Qed.

(** ** The digit scanner *)

Lemma digit_count_cons (c : ascii) (cs : list ascii) :
  PyInt.digit_count (c :: cs)
  = if PyInt.is_digit c then S (PyInt.digit_count cs) else PyInt.digit_count cs.
Proof. unfold PyInt.digit_count. simpl. now destruct (PyInt.is_digit c). Qed.

Lemma digit_count_app (cs1 cs2 : list ascii) :
  PyInt.digit_count (cs1 ++ cs2) = (PyInt.digit_count cs1 + PyInt.digit_count cs2)%nat.
Proof. unfold PyInt.digit_count. now rewrite filter_app, length_app. Qed.

Lemma digit_count_spaces (ws : list ascii) :
  forallb PyInt.is_space ws = true -> PyInt.digit_count ws = 0%nat.
Proof.
  induction ws as [|w ws IH]; [reflexivity|]. simpl. intros H.
  apply andb_true_iff in H. destruct H as [Hw Hws].
  rewrite digit_count_cons. unfold PyInt.is_digit.
  rewrite (space_not_digit _ Hw). now apply IH.
Qed.

Lemma digit_count_sign (sg : PyInt.sign) : PyInt.digit_count (PyInt.sign_chars sg) = 0%nat.
Proof. now destruct sg. Qed.

Lemma digit_count_underscore (cs : list ascii) :
  PyInt.digit_count (PyInt.underscore :: cs) = PyInt.digit_count cs.
Proof. reflexivity. Qed.

Lemma scan_after_underscore (acc : Z) (k : nat) (c : ascii) (cs : list ascii) :
  PyInt.is_digit c = true ->
  PyInt.scan_digits acc k true (c :: cs) = PyInt.scan_digits acc k false (c :: cs).
Proof.
  intros H. apply is_digit_value in H. destruct H as [d Hd]. simpl. now rewrite Hd.
Qed.

Lemma grouped_head (body : list ascii) :
  PyInt.grouped body = true ->
  exists c body', body = c :: body' /\ PyInt.is_digit c = true.
Proof.
  destruct body as [|c body']; simpl; [discriminate|].
  intros H. apply andb_true_iff in H. destruct H as [Hc _]. now exists c, body'.
Qed.

(** On a well-grouped body followed by a stopping text, the scanner reads
    exactly the body and counts its digits. *)
Lemma scan_digits_complete (n : nat) :
  forall body acc k rest,
    (List.length body <= n)%nat ->
    PyInt.grouped body = true ->
    PyInt.stops rest ->
    PyInt.scan_digits acc k false (body ++ rest)
    = Some (fold_left PyInt.add_digit body acc, (k + PyInt.digit_count body)%nat, rest).
Proof.
  induction n as [|n IH]; intros body acc k rest Hlen Hg Hstop.
  - destruct body; [discriminate Hg | simpl in Hlen; lia].
  - destruct body as [|c body']; [discriminate Hg|].
    simpl in Hg. apply andb_true_iff in Hg. destruct Hg as [Hc Hg].
    pose proof Hc as Hc'. apply is_digit_value in Hc'. destruct Hc' as [d Hd].
    simpl in Hlen.
    change ((c :: body') ++ rest)%list with (c :: (body' ++ rest))%list.
    cbn [PyInt.scan_digits fold_left]. rewrite Hd.
    unfold PyInt.add_digit at 2. rewrite Hd.
    rewrite digit_count_cons, Hc.
    destruct body' as [|c' body''].
    + cbn [app fold_left]. change (PyInt.digit_count []) with 0%nat.
      replace (k + 1)%nat with (S k) by lia.
      destruct rest as [|r rest']; [reflexivity|].
      destruct Hstop as [Hr1 Hr2]. cbn [PyInt.scan_digits]. now rewrite Hr1, Hr2.
    + destruct (Ascii.eqb c' PyInt.underscore) eqn:Hu.
      * apply Ascii.eqb_eq in Hu. subst c'.
        destruct (grouped_head _ Hg) as [c2 [b2 [-> Hc2]]].
        change (((PyInt.underscore :: c2 :: b2) ++ rest))%list
          with (PyInt.underscore :: ((c2 :: b2) ++ rest))%list.
        cbn [PyInt.scan_digits fold_left].
        change (PyInt.digit_value PyInt.underscore) with (@None Z).
        rewrite Ascii.eqb_refl.
        change ((c2 :: b2) ++ rest)%list with (c2 :: (b2 ++ rest))%list.
        rewrite scan_after_underscore by exact Hc2.
        change (c2 :: (b2 ++ rest))%list with ((c2 :: b2) ++ rest)%list.
        rewrite IH; [|simpl in *; lia|exact Hg|exact Hstop].
        rewrite digit_count_underscore.
        do 2 f_equal. f_equal. lia.
      * rewrite IH; [|simpl in *; lia|exact Hg|exact Hstop].
        do 2 f_equal. f_equal. lia.
Qed.

Lemma single_digit_body (c : ascii) (d acc : Z) (k : nat) (rest : list ascii) :
  PyInt.is_digit c = true ->
  PyInt.digit_value c = Some d ->
  PyInt.stops rest ->
  (c :: rest = [c] ++ rest)%list /\ PyInt.grouped [c] = true
  /\ 10 * acc + d = fold_left PyInt.add_digit [c] acc
  /\ S k = (k + PyInt.digit_count [c])%nat /\ PyInt.stops rest.
Proof.
  intros Hc Hd Hstop. split; [reflexivity|].
  split; [cbn [PyInt.grouped]; now rewrite Hc|].
  split; [cbn [fold_left]; unfold PyInt.add_digit; now rewrite Hd|].
  split; [|exact Hstop].
  rewrite digit_count_cons, Hc. change (PyInt.digit_count []) with 0%nat. lia.
Qed.

(** Whatever the scanner reads after a first digit is a well-grouped body,
    and it stops where the body ends. *)
Lemma scan_digits_sound (n : nat) :
  forall c cs acc k v m rest,
    (List.length cs <= n)%nat ->
    PyInt.is_digit c = true ->
    PyInt.scan_digits acc k false (c :: cs) = Some (v, m, rest) ->
    exists body,
      (c :: cs = body ++ rest)%list /\ PyInt.grouped body = true
      /\ v = fold_left PyInt.add_digit body acc
      /\ m = (k + PyInt.digit_count body)%nat /\ PyInt.stops rest.
Proof.
  induction n as [|n IH]; intros c cs acc k v m rest Hlen Hc Hscan;
    pose proof Hc as Hc'; apply is_digit_value in Hc'; destruct Hc' as [d Hd];
    cbn [PyInt.scan_digits] in Hscan; rewrite Hd in Hscan.
  - destruct cs; [|simpl in Hlen; lia].
    simpl in Hscan. injection Hscan as <- <- <-.
    exists [c]. apply single_digit_body; [exact Hc | exact Hd | exact I].
  - destruct cs as [|c' cs'].
    + simpl in Hscan. injection Hscan as <- <- <-.
      exists [c]. apply single_digit_body; [exact Hc | exact Hd | exact I].
    + destruct (PyInt.digit_value c') as [d'|] eqn:Hd'.
      * assert (Hc'd : PyInt.is_digit c' = true) by (apply is_digit_value; eauto).
        destruct (IH c' cs' (10 * acc + d) (S k) v m rest)
          as [body [Heq [Hg [Hv [Hm Hstop]]]]];
          [simpl in Hlen; lia|exact Hc'd|exact Hscan|].
        exists (c :: body). repeat split.
        -- simpl. now rewrite Heq.
        -- destruct (grouped_head _ Hg) as [b [body' [-> _]]].
           simpl in Heq. injection Heq as <- _.
           cbn [PyInt.grouped]. rewrite Hc.
           destruct (digit_not_sign _ Hc'd) as [_ [_ Hnu]]. rewrite Hnu. exact Hg.
        -- cbn [fold_left]. unfold PyInt.add_digit at 2. now rewrite Hd.
        -- rewrite digit_count_cons, Hc. lia.
        -- exact Hstop.
      * cbn [PyInt.scan_digits] in Hscan. rewrite Hd' in Hscan.
        destruct (Ascii.eqb c' PyInt.underscore) eqn:Hu.
        -- apply Ascii.eqb_eq in Hu. subst c'.
           destruct cs' as [|c2 cs2]; [discriminate Hscan|].
           destruct (PyInt.digit_value c2) as [d2|] eqn:Hd2.
           ++ assert (Hc2 : PyInt.is_digit c2 = true) by (apply is_digit_value; eauto).
              rewrite scan_after_underscore in Hscan by exact Hc2.
              destruct (IH c2 cs2 (10 * acc + d) (S k) v m rest)
                as [body [Heq [Hg [Hv [Hm Hstop]]]]];
                [simpl in Hlen; lia|exact Hc2|exact Hscan|].
              exists (c :: PyInt.underscore :: body). repeat split.
              ** simpl. now rewrite Heq.
              ** cbn [PyInt.grouped]. rewrite Hc, Ascii.eqb_refl. exact Hg.
              ** cbn [fold_left]. unfold PyInt.add_digit at 3. rewrite Hd. exact Hv.
              ** rewrite digit_count_cons, Hc, digit_count_underscore. lia.
              ** exact Hstop.
           ++ cbn [PyInt.scan_digits] in Hscan. rewrite Hd2 in Hscan.
              destruct (Ascii.eqb c2 PyInt.underscore); discriminate Hscan.
        -- injection Hscan as <- <- <-.
           exists [c]. apply single_digit_body; [exact Hc | exact Hd |].
           split; assumption.
Qed.

(** ** [int(str)]: the texts it accepts and the two ways it refuses *)

Lemma scan_complete (s : string) (v : Z) (count : nat) (rest : list ascii) :
  PyInt.begins_with_integer s v count rest -> PyInt.scan s = Some (v, count, rest).
Proof.
  intros [ws1 [sg [body [Hws1 [Hg [Hstop [Hs [-> ->]]]]]]]].
  destruct (grouped_head _ Hg) as [b [body' [Hb Hdig]]].
  destruct (digit_not_sign _ Hdig) as [Hplus [Hminus _]].
  pose proof (digit_not_space _ Hdig) as Hnsp.
  pose proof Hdig as Hdv. apply is_digit_value in Hdv. destruct Hdv as [d Hd].
  assert (Hscan : PyInt.scan_digits 0 0 false (body ++ rest)
                  = Some (PyInt.digits_value body, PyInt.digit_count body, rest)).
  { now rewrite (scan_digits_complete (List.length body)) by auto. }
  unfold PyInt.scan. rewrite Hs, lstrip_spaces by exact Hws1.
  destruct sg; cbn [PyInt.sign_chars app].
  - rewrite Hb in *. cbn [PyInt.lstrip app]. rewrite Hnsp.
    rewrite Hplus, Hminus, Hd.
    change (b :: (body' ++ rest))%list with ((b :: body') ++ rest)%list.
    now rewrite Hscan.
  - cbn [PyInt.lstrip]. change (PyInt.is_space "+") with false. cbn iota.
    rewrite Ascii.eqb_refl. rewrite Hb in *. cbn [app]. rewrite Hd.
    change (b :: (body' ++ rest))%list with ((b :: body') ++ rest)%list.
    now rewrite Hscan.
  - cbn [PyInt.lstrip]. change (PyInt.is_space "-") with false. cbn iota.
    change (Ascii.eqb "-" "+") with false. cbn iota.
    rewrite Ascii.eqb_refl. rewrite Hb in *. cbn [app]. rewrite Hd.
    change (b :: (body' ++ rest))%list with ((b :: body') ++ rest)%list.
    now rewrite Hscan.
Qed.

Lemma scan_sound (s : string) (v : Z) (count : nat) (rest : list ascii) :
  PyInt.scan s = Some (v, count, rest) -> PyInt.begins_with_integer s v count rest.
Proof.
  unfold PyInt.scan. intros H.
  destruct (lstrip_split (PyStr.chars s)) as [ws1 [Hws1 Hsplit]].
  assert (Hbody : forall sg cs,
             PyInt.lstrip (PyStr.chars s) = (PyInt.sign_chars sg ++ cs)%list ->
             match cs with
             | c :: _ =>
                 match PyInt.digit_value c with
                 | None => None
                 | Some _ =>
                     match PyInt.scan_digits 0 0 false cs with
                     | Some (v, count, rest) => Some (PyInt.signed sg v, count, rest)
                     | None => None
                     end
                 end
             | [] => None
             end = Some (v, count, rest) ->
             PyInt.begins_with_integer s v count rest).
  { intros sg cs Hcs Hv. destruct cs as [|c cs']; [discriminate Hv|].
    destruct (PyInt.digit_value c) as [d|] eqn:Hd; [|discriminate Hv].
    destruct (PyInt.scan_digits 0 0 false (c :: cs')) as [[[v' m] rest']|] eqn:Hscan;
      [|discriminate Hv].
    injection Hv as <- <- <-.
    assert (Hc : PyInt.is_digit c = true) by (apply is_digit_value; eauto).
    destruct (scan_digits_sound (List.length cs') c cs' 0 0 v' m rest' (le_n _) Hc Hscan)
      as [body [Heq [Hg [Hval [Hm Hstop]]]]].
    exists ws1, sg, body. repeat split; auto.
    - rewrite Hsplit at 1. rewrite Hcs. now rewrite Heq.
    - now rewrite Hval. }
  destruct (PyInt.lstrip (PyStr.chars s)) as [|c cs'] eqn:Hl.
  - discriminate H.
  - destruct (Ascii.eqb c "+") eqn:Hp.
    + apply Ascii.eqb_eq in Hp. subst c.
      apply (Hbody PyInt.Plus cs'); [reflexivity|]. exact H.
    + destruct (Ascii.eqb c "-") eqn:Hm.
      * apply Ascii.eqb_eq in Hm. subst c.
        apply (Hbody PyInt.Minus cs'); [reflexivity|]. exact H.
      * apply (Hbody PyInt.NoSign (c :: cs')); [reflexivity|]. exact H.
Qed.

Lemma spaces_stop (ws : list ascii) : forallb PyInt.is_space ws = true -> PyInt.stops ws.
Proof.
  destruct ws as [|w ws']; simpl; [intros _; exact I|].
  intros H. apply andb_true_iff in H. destruct H as [Hw _].
  split; [now apply space_not_digit | now apply space_not_underscore].
Qed.

(** The digits of a decimal integer text are those of its body. *)
Lemma literal_digit_count (ws1 : list ascii) (sg : PyInt.sign) (body ws2 : list ascii) :
  forallb PyInt.is_space ws1 = true ->
  forallb PyInt.is_space ws2 = true ->
  PyInt.digit_count (ws1 ++ PyInt.sign_chars sg ++ body ++ ws2) = PyInt.digit_count body.
Proof.
  intros H1 H2. rewrite !digit_count_app, digit_count_sign,
    (digit_count_spaces _ H1), (digit_count_spaces _ H2). lia.
Qed.

(** The scanned run holds no more digits than the text. *)
Lemma begins_digit_count (s : string) (v : Z) (count : nat) (rest : list ascii) :
  PyInt.begins_with_integer s v count rest ->
  (count <= PyInt.digit_count (PyStr.chars s))%nat.
Proof.
  intros [ws1 [sg [body [_ [_ [_ [Hs [_ ->]]]]]]]].
  rewrite Hs, !digit_count_app. lia.
Qed.

(** What [int] does to a decimal integer text. *)
Lemma parse_complete (s : string) (v : Z) :
  PyInt.literal s v ->
  PyInt.parse s
  = if Nat.ltb PyInt.max_str_digits (PyInt.digit_count (PyStr.chars s))
    then PyInt.TooManyDigits (PyInt.digit_count (PyStr.chars s))
    else PyInt.Value v.
Proof.
  intros [ws1 sg body ws2 Hws1 Hws2 Hg Hs ->].
  unfold PyInt.parse.
  rewrite (scan_complete s (PyInt.signed sg (PyInt.digits_value body))
             (PyInt.digit_count body) ws2).
  - rewrite Hs, (literal_digit_count ws1 sg body ws2 Hws1 Hws2).
    destruct (Nat.ltb _ _); [reflexivity|].
    now rewrite (proj2 (lstrip_nil ws2) Hws2).
  - exists ws1, sg, body. repeat split; auto. now apply spaces_stop.
Qed.

(** What a text is, according to what [int] does to it. *)
Lemma parse_sound (s : string) :
  match PyInt.parse s with
  | PyInt.Value v =>
      PyInt.literal s v /\ (PyInt.digit_count (PyStr.chars s) <= PyInt.max_str_digits)%nat
  | PyInt.TooManyDigits count =>
      (PyInt.max_str_digits < count)%nat
      /\ (count <= PyInt.digit_count (PyStr.chars s))%nat
      /\ exists v rest, PyInt.begins_with_integer s v count rest
  | PyInt.Malformed =>
      (forall v, ~ PyInt.literal s v)
  end.
Proof.
  destruct (PyInt.parse s) as [v| |count] eqn:Hp.
  - unfold PyInt.parse in Hp.
    destruct (PyInt.scan s) as [[[v' m] rest]|] eqn:Hscan; [|discriminate Hp].
    destruct (Nat.ltb_spec PyInt.max_str_digits m) as [Hm|Hm]; [discriminate Hp|].
    destruct (PyInt.lstrip rest) eqn:Hrest; [|discriminate Hp].
    injection Hp as <-. apply lstrip_nil in Hrest.
    destruct (scan_sound _ _ _ _ Hscan) as [ws1 [sg [body [Hws1 [Hg [_ [Hs [-> ->]]]]]]]].
    split.
    + now apply (PyInt.literal_intro s _ ws1 sg body rest).
    + rewrite Hs, (literal_digit_count ws1 sg body rest Hws1 Hrest). exact Hm.
  - intros v Hv. rewrite (parse_complete s v Hv) in Hp.
    destruct (Nat.ltb _ _); discriminate Hp.
  - unfold PyInt.parse in Hp.
    destruct (PyInt.scan s) as [[[v' m] rest]|] eqn:Hscan; [|discriminate Hp].
    destruct (Nat.ltb_spec PyInt.max_str_digits m) as [Hm|Hm].
    + injection Hp as <-. apply scan_sound in Hscan.
      split; [exact Hm|]. split; [eapply begins_digit_count; eassumption|].
      now exists v', rest.
    + destruct (PyInt.lstrip rest); discriminate Hp.
Qed.

Lemma parse_value (s : string) (v : Z) :
  PyInt.parse s = PyInt.Value v
  <-> PyInt.literal s v
      /\ (PyInt.digit_count (PyStr.chars s) <= PyInt.max_str_digits)%nat.
Proof.
  split.
  - intros H. pose proof (parse_sound s) as Hs. now rewrite H in Hs.
  - intros [Hl Hc]. rewrite (parse_complete s v Hl).
    destruct (Nat.ltb_spec PyInt.max_str_digits (PyInt.digit_count (PyStr.chars s)));
      [lia | reflexivity].
Qed.

(** A text without too many digits that is not a decimal integer text is
    malformed. *)
Lemma parse_malformed (s : string) :
  (forall v, ~ PyInt.literal s v) ->
  (PyInt.digit_count (PyStr.chars s) <= PyInt.max_str_digits)%nat ->
  PyInt.parse s = PyInt.Malformed.
Proof.
  intros Hl Hc. pose proof (parse_sound s) as Hs.
  destruct (PyInt.parse s) as [v| |count]; [|reflexivity|].
  - exfalso. apply (Hl v), Hs.
  - destruct Hs as [H1 [H2 _]]. lia.
Qed.
(** ** Splitting at commas *)

Lemma split_not_nil (sep : ascii) (s : string) : PyStr.split sep s <> [].
Proof.
  destruct s as [|c s]; simpl; [discriminate|].
  destruct (Ascii.eqb c sep); [discriminate|].
  destruct (PyStr.split sep s); discriminate.
Qed.



(** No piece holds the separator. *)
Lemma split_pieces (sep : ascii) (s : string) :
  Forall (fun p => ~ In sep (PyStr.chars p)) (PyStr.split sep s).
Proof.
  induction s as [|c s IH]; simpl.
  - constructor; [intros []|constructor].
  - destruct (Ascii.eqb c sep) eqn:Hc.
    + constructor; [intros []|exact IH].
    + pose proof (split_not_nil sep s) as Hne.
      destruct (PyStr.split sep s) as [|p ps]; [contradiction|].
      inversion IH as [|? ? Hp Hps]; subst. constructor; [|exact Hps].
      simpl. intros [Heq|Hin]; [|now apply Hp].
      subst c. now rewrite Ascii.eqb_refl in Hc.
Qed.

(** ** List comprehensions over a fallible function *)

Lemma comprehension_ok {A B : Type} (f : A -> result B) (xs : list A) (ys : list B) :
  comprehension f xs = Ok ys <-> Forall2 (fun x y => f x = Ok y) xs ys.
Proof.
  revert ys. induction xs as [|x xs IH]; intros ys; simpl.
  - split.
    + intros H. injection H as <-. constructor.
    + intros H. inversion H. reflexivity.
  - destruct (f x) as [y|e] eqn:Hx; simpl.
    + destruct (comprehension f xs) as [ys'|e] eqn:Hxs; simpl.
      * split.
        -- intros H. injection H as <-. constructor; [exact Hx|]. now apply IH.
        -- intros H. inversion H as [|? y' ? ys'' Hy Hrest]; subst.
           rewrite Hx in Hy. injection Hy as <-.
           apply IH in Hrest. now injection Hrest as <-.
      * split; [discriminate|].
        intros H. inversion H as [|? y' ? ys'' Hy Hrest]; subst.
        apply IH in Hrest. discriminate Hrest.
    + split; [discriminate|].
      intros H. inversion H as [|? y' ? ys'' Hy Hrest]; subst.
      rewrite Hx in Hy. discriminate Hy.
Qed.



(** ** [int(str)], outcome by outcome *)

Lemma int_ok (s : string) (v : Z) :
  PyInt.int s = Ok v
  <-> PyInt.literal s v
      /\ (PyInt.digit_count (PyStr.chars s) <= PyInt.max_str_digits)%nat.
Proof.
  rewrite <- parse_value. unfold PyInt.int.
  destruct (PyInt.parse s); split; intros H; try discriminate; now inversion H.
Qed.

Lemma int_literal (s : string) (v : Z) : PyInt.int s = Ok v -> PyInt.literal s v.
Proof. intros H. now apply int_ok in H. Qed.

Lemma int_malformed (s : string) :
  (forall v, ~ PyInt.literal s v) ->
  (PyInt.digit_count (PyStr.chars s) <= PyInt.max_str_digits)%nat ->
  PyInt.int s = Raise (PyInt.invalid_literal s).
Proof. intros Hl Hc. unfold PyInt.int. now rewrite parse_malformed. Qed.

Lemma int_too_many_digits (s : string) (v : Z) :
  PyInt.literal s v ->
  (PyInt.max_str_digits < PyInt.digit_count (PyStr.chars s))%nat ->
  PyInt.int s = Raise (PyInt.too_many_digits (PyInt.digit_count (PyStr.chars s))).
Proof.
  intros Hl Hc. unfold PyInt.int. rewrite (parse_complete s v Hl).
  destruct (Nat.ltb_spec PyInt.max_str_digits (PyInt.digit_count (PyStr.chars s)));
    [reflexivity | lia].
Qed.


(** Every refusal is a [ValueError]. *)
Lemma int_raises_value_error (s : string) (e : exn) :
  PyInt.int s = Raise e -> exists msg, e = ValueError msg.
Proof.
  unfold PyInt.int. destruct (PyInt.parse s); [discriminate| |];
    intros H; injection H as <-; eexists; reflexivity.
Qed.

Lemma int_total (s : string) :
  (exists v, PyInt.int s = Ok v) \/ (exists msg, PyInt.int s = Raise (ValueError msg)).
Proof.
  destruct (PyInt.int s) as [v|e] eqn:H; [left; now exists v|right].
  destruct (int_raises_value_error s e H) as [msg ->]. now exists msg.
Qed.

Lemma append_assoc (s1 s2 s3 : string) : ((s1 ++ s2) ++ s3 = s1 ++ (s2 ++ s3))%string.
Proof. induction s1 as [|c s1 IH]; simpl; [reflexivity | now rewrite IH]. Qed.

(** The error of the digit limit tells the number of digits. *)
Lemma too_many_digits_message (count : nat) :
  exists before after,
    PyInt.too_many_digits count
    = ValueError (before ++ "value has " ++ PyInt.str_of_nat count ++ " digits" ++ after).
Proof.
  exists "Exceeds the limit (4300 digits) for integer string conversion: ",
    "; use sys.set_int_max_str_digits() to increase the limit".
  reflexivity.
Qed.

(** ** The character classes of [int(str)] *)

Lemma is_space_codes (c : ascii) :
  PyInt.is_space c = true <-> In (PyStr.code c) [9; 10; 11; 12; 13; 32; 133; 160]%nat.
Proof.
  destruct c as [[] [] [] [] [] [] [] []]; vm_compute; split; intros H;
    try discriminate H; try reflexivity;
    repeat (destruct H as [H|H]; [discriminate H|]); try destruct H; tauto.
Qed.

Lemma digit_values (c : ascii) (d : Z) :
  PyInt.digit_value c = Some d
  <-> In (c, d) [("0"%char, 0); ("1"%char, 1); ("2"%char, 2); ("3"%char, 3);
                 ("4"%char, 4); ("5"%char, 5); ("6"%char, 6); ("7"%char, 7);
                 ("8"%char, 8); ("9"%char, 9)].
Proof.
  split.
  - destruct c as [[] [] [] [] [] [] [] []]; intros H; try discriminate H;
      vm_compute in H; injection H as <-; simpl; tauto.
  - intros H. repeat (destruct H as [H|H]; [injection H as <- <-; reflexivity|]).
    destruct H.
Qed.

(** ** Quoting a text and reading the quotation back *)

Lemma chars_app (s1 s2 : string) :
  PyStr.chars (s1 ++ s2) = (PyStr.chars s1 ++ PyStr.chars s2)%list.
Proof. induction s1 as [|c s1 IH]; simpl; [reflexivity | now rewrite IH]. Qed.

Lemma unrepr_char (q c : ascii) (rest : list ascii) :
  q = PyStr.squote \/ q = PyStr.dquote ->
  PyStr.unrepr_body q (PyStr.chars (PyStr.repr_char q c) ++ rest)
  = option_map (String c) (PyStr.unrepr_body q rest).
Proof.
  intros [-> | ->]; destruct c as [[] [] [] [] [] [] [] []];
    try reflexivity; cbn; destruct (PyStr.unrepr_body _ rest); reflexivity.
Qed.

Lemma unrepr_repr_body (q : ascii) (s : string) :
  q = PyStr.squote \/ q = PyStr.dquote ->
  PyStr.unrepr_body q (PyStr.chars (PyStr.repr_body q s ++ String q "")) = Some s.
Proof.
  intros Hq. induction s as [|c s IH].
  - cbn. now rewrite Ascii.eqb_refl.
  - cbn [PyStr.repr_body]. rewrite append_assoc, chars_app.
    rewrite unrepr_char by exact Hq. now rewrite IH.
Qed.

(** A quotation determines the text it quotes. *)
Lemma unrepr_repr (s : string) : PyStr.unrepr (PyStr.repr s) = Some s.
Proof.
  unfold PyStr.repr, PyStr.unrepr.
  destruct (PyStr.contains _ s && negb (PyStr.contains _ s));
    cbn [PyStr.chars list_ascii_of_string];
    [change (Ascii.eqb PyStr.dquote PyStr.squote || Ascii.eqb PyStr.dquote PyStr.dquote)
       with true
    |change (Ascii.eqb PyStr.squote PyStr.squote || Ascii.eqb PyStr.squote PyStr.dquote)
       with true];
    cbv iota; apply unrepr_repr_body; auto.
Qed.

Lemma repr_injective (s1 s2 : string) : PyStr.repr s1 = PyStr.repr s2 -> s1 = s2.
Proof.
  intros H. apply (f_equal PyStr.unrepr) in H. rewrite !unrepr_repr in H. congruence.
Qed.

Lemma cut_all (n : nat) (s : string) : (String.length s <= n)%nat -> PyStr.cut n s = s.
Proof.
  revert n. induction s as [|c s IH]; intros [|n] H; simpl in *; try reflexivity; try lia.
  rewrite IH; [reflexivity | lia].
Qed.

Lemma cut_length (n : nat) (s : string) : (String.length (PyStr.cut n s) <= n)%nat.
Proof.
  revert n. induction s as [|c s IH]; intros [|n]; simpl; try lia.
  specialize (IH n). lia.
Qed.
(** ** Decimal renderings are read back *)

Lemma uint_chars_digits (d : Decimal.uint) :
  forallb PyInt.is_digit (PyStr.chars (DecimalString.NilEmpty.string_of_uint d)) = true.
Proof. induction d; simpl; auto. Qed.

Lemma uint_chars_value (d d' : Decimal.uint) :
  fold_left PyInt.add_digit (PyStr.chars (DecimalString.NilEmpty.string_of_uint d))
            (Z.of_N (DecimalPos.Unsigned.of_lu d'))
  = Z.of_N (DecimalPos.Unsigned.of_lu (Decimal.revapp d d')).
Proof.
  revert d'. induction d; intros d'; [reflexivity|..];
    cbn [DecimalString.NilEmpty.string_of_uint PyStr.chars list_ascii_of_string fold_left
         Decimal.revapp];
    rewrite <- IHd; f_equal;
    cbn [DecimalPos.Unsigned.of_lu]; rewrite ?N2Z.inj_add, N2Z.inj_mul;
    unfold PyInt.add_digit;
    match goal with
    | |- context [PyInt.digit_value ?c] =>
        let v := eval vm_compute in (PyInt.digit_value c) in
        change (PyInt.digit_value c) with v
    end;
    cbv beta iota; lia.
Qed.

Lemma digits_grouped (cs : list ascii) :
  cs <> [] -> forallb PyInt.is_digit cs = true -> PyInt.grouped cs = true.
Proof.
  induction cs as [|c cs IH]; intros Hne Hd; [contradiction|].
  simpl in Hd. apply andb_true_iff in Hd. destruct Hd as [Hc Hcs].
  cbn [PyInt.grouped]. rewrite Hc. destruct cs as [|c' cs']; [reflexivity|].
  pose proof Hcs as Hcs'. simpl in Hcs'. apply andb_true_iff in Hcs'.
  destruct Hcs' as [Hc' _].
  destruct (digit_not_sign _ Hc') as [_ [_ Hu]]. rewrite Hu.
  apply IH; [discriminate | exact Hcs].
Qed.

Lemma uint_chars_not_nil (d : Decimal.uint) :
  d <> Decimal.Nil -> PyStr.chars (DecimalString.NilEmpty.string_of_uint d) <> [].
Proof. destruct d; simpl; congruence. Qed.

Lemma uint_literal (d : Decimal.uint) (sg : PyInt.sign) (s : string) :
  d <> Decimal.Nil ->
  PyStr.chars s
  = (PyInt.sign_chars sg ++ PyStr.chars (DecimalString.NilEmpty.string_of_uint d))%list ->
  PyInt.literal s (PyInt.signed sg (Z.of_uint d)).
Proof.
  intros Hd Hs.
  apply (PyInt.literal_intro s _ [] sg (PyStr.chars (DecimalString.NilEmpty.string_of_uint d)) []).
  - reflexivity.
  - reflexivity.
  - apply digits_grouped; [now apply uint_chars_not_nil | apply uint_chars_digits].
  - now rewrite app_nil_r.
  - f_equal. unfold PyInt.digits_value.
    change 0 with (Z.of_N (DecimalPos.Unsigned.of_lu Decimal.Nil)).
    rewrite uint_chars_value. unfold Z.of_uint. f_equal.
    change (Decimal.revapp d Decimal.Nil) with (Decimal.rev d).
    now rewrite DecimalPos.Unsigned.of_uint_alt.
Qed.

(** The decimal rendering of an integer is a decimal integer text of that
    value. *)
Lemma str_literal (n : Z) : PyInt.literal (PyInt.str n) n.
Proof.
  unfold PyInt.str.
  rewrite <- (DecimalZ.of_to n) at 2.
  destruct n as [|p|p]; cbn [Z.to_int DecimalString.NilEmpty.string_of_int Z.of_int].
  - apply (uint_literal Decimal.zero PyInt.NoSign); [discriminate | reflexivity].
  - apply (uint_literal (Pos.to_uint p) PyInt.NoSign);
      [apply DecimalPos.Unsigned.to_uint_nonnil | reflexivity].
  - apply (uint_literal (Pos.to_uint p) PyInt.Minus);
      [apply DecimalPos.Unsigned.to_uint_nonnil | reflexivity].
Qed.

Lemma int_str (n : Z) :
  (PyInt.digit_count (PyStr.chars (PyInt.str n)) <= PyInt.max_str_digits)%nat ->
  PyInt.int (PyInt.str n) = Ok n.
Proof. intros H. apply int_ok. split; [apply str_literal | exact H]. Qed.



(** ** Splitting what was joined *)



(** ** C9: the scalar coercers *)

Lemma none_not_literal (v : Z) : ~ PyInt.literal "None" v.
Proof.
  intros H. pose proof (parse_complete _ _ H) as Hp. vm_compute in Hp. discriminate Hp.
Qed.

Lemma optional_int_cases (s : string) :
  s <> "None" -> optional_int s = rbind (PyInt.int s) (fun v => Ok (Some v)).
Proof.
  intros Hs. unfold optional_int.
  destruct (String.eqb_spec s "None"); [contradiction | reflexivity].
Qed.

(** C9, as stated, fails on long integers: the text made of 4301 times
    the digit 1 is a decimal integer text, yet [optional_int] does not
    give its value but raises the [ValueError] of the digit limit. *)
Lemma optional_int_refuses_long_integers :
  (exists v, PyInt.literal Sample.long_integer v)
  /\ String.length Sample.long_integer = 4301%nat
  /\ optional_int Sample.long_integer = Raise (PyInt.too_many_digits 4301)
  /\ (forall v, optional_int Sample.long_integer <> Ok (Some v)).
Proof.
  assert (H : optional_int Sample.long_integer = Raise (PyInt.too_many_digits 4301))
    by (vm_compute; reflexivity).
  split; [|split; [vm_compute; reflexivity|split; [exact H|]]].
  - eexists.
    apply (PyInt.literal_intro _ _ [] PyInt.NoSign (PyStr.chars Sample.long_integer) []).
    + reflexivity.
    + reflexivity.
    + vm_compute. reflexivity.
    + cbn [app PyInt.sign_chars]. now rewrite app_nil_r.
    + reflexivity.
  - intros v Hv. rewrite H in Hv. discriminate Hv.
Qed.

(** C9, amended.  The scalar coercers are functions of their token alone
    (tokens being texts of characters below U+0100).  [optional_int]
    gives the absent value on the token None and on no other; it gives
    the integer value of a token exactly when the token is a decimal
    integer text (whitespace, a sign, digits 0-9 grouped by single
    underscores, whitespace) of at most 4300 digits; every other token is
    refused with a [ValueError]: a decimal integer text of more digits
    with the error of the digit limit, which tells the number of digits
    and nothing else of the token, and a token that is no decimal integer
    text and has at most 4300 digits with the error that quotes the
    token, its quotation being cut after 200 characters.
    A quotation determines the token it quotes.  [str2bool] gives true on
    True and on nothing else, false on False and on nothing else, and on
    every other token raises a [ValueError] whose message ends with the
    token and lists both accepted spellings. *)
Theorem scalar_coercers_spec :
  (forall s, optional_int s = Ok None <-> s = "None")
  /\ (forall s v, optional_int s = Ok (Some v)
                  <-> PyInt.literal s v
                      /\ (PyInt.digit_count (PyStr.chars s) <= 4300)%nat)
  /\ (forall s v, PyInt.literal s v ->
                  (4300 < PyInt.digit_count (PyStr.chars s))%nat ->
                  optional_int s
                  = Raise (PyInt.too_many_digits (PyInt.digit_count (PyStr.chars s))))
  /\ (forall count, exists before after,
         PyInt.too_many_digits count
         = ValueError (before ++ "value has " ++ PyInt.str_of_nat count
                              ++ " digits" ++ after))
  /\ (forall s, s <> "None" -> (forall v, ~ PyInt.literal s v) ->
                (PyInt.digit_count (PyStr.chars s) <= 4300)%nat ->
                optional_int s
                = Raise (ValueError ("invalid literal for int() with base 10: "
                                       ++ PyStr.cut 200 (PyStr.repr s))))
  /\ (forall s, s <> "None" -> (forall v, ~ PyInt.literal s v) ->
                exists msg, optional_int s = Raise (ValueError msg))
  /\ (forall s, PyStr.unrepr (PyStr.repr s) = Some s)
  /\ (forall s, (String.length (PyStr.repr s) <= 200)%nat ->
                PyStr.cut 200 (PyStr.repr s) = PyStr.repr s)
  /\ (forall c, PyInt.is_space c = true
                <-> In (PyStr.code c) [9; 10; 11; 12; 13; 32; 133; 160]%nat)
  /\ (forall c d, PyInt.digit_value c = Some d
                  <-> In (c, d) [("0"%char, 0); ("1"%char, 1); ("2"%char, 2);
                                 ("3"%char, 3); ("4"%char, 4); ("5"%char, 5);
                                 ("6"%char, 6); ("7"%char, 7); ("8"%char, 8);
                                 ("9"%char, 9)])
  /\ (forall o s, str2bool o s = Ok true <-> s = "True")
  /\ (forall o s, str2bool o s = Ok false <-> s = "False")
  /\ (forall o s, s <> "True" -> s <> "False" ->
                  str2bool o s
                  = Raise (ValueError ("Expected one of " ++ accepted_set o
                                         ++ ", got " ++ s)))
  /\ (forall o, PyStr.contains "'True'" (accepted_set o) = true
                /\ PyStr.contains "'False'" (accepted_set o) = true)
  /\ (forall n : Z, (PyInt.digit_count (PyStr.chars (PyInt.str n)) <= 4300)%nat ->
                    optional_int (PyInt.str n) = Ok (Some n))
  /\ optional_int "5" = Ok (Some 5)
  /\ optional_int "-12" = Ok (Some (-12))
  /\ optional_int " +1_000 " = Ok (Some 1000)
  /\ optional_int "x"
     = Raise (ValueError "invalid literal for int() with base 10: 'x'")
  /\ optional_int "1:"
     = Raise (ValueError "invalid literal for int() with base 10: '1:'")
  /\ optional_int "1__0"
     = Raise (ValueError "invalid literal for int() with base 10: '1__0'")
  /\ optional_int "it's"
     = Raise (ValueError ("invalid literal for int() with base 10: "
                            ++ String PyStr.dquote ("it's" ++ String PyStr.dquote "")))
  /\ optional_int "none"
     = Raise (ValueError "invalid literal for int() with base 10: 'none'")
  /\ str2bool false "Maybe"
     = Raise (ValueError "Expected one of {'True', 'False'}, got Maybe").
Proof.
  change 4300%nat with PyInt.max_str_digits.
  split; [|split; [|split; [|split; [|split; [|split; [|split; [|split; [|split]]]]]]]].
  - intros s. unfold optional_int. destruct (String.eqb_spec s "None") as [->|Hs].
    + split; reflexivity.
    + split; [|contradiction].
      destruct (PyInt.int s); simpl; discriminate.
  - intros s v. destruct (String.eqb_spec s "None") as [->|Hs].
    + split; [discriminate|]. intros [H _]. now apply none_not_literal in H.
    + rewrite (optional_int_cases s Hs), <- int_ok.
      destruct (PyInt.int s) as [v'|e]; simpl.
      * split; intros H; injection H as <-; reflexivity.
      * split; discriminate.
  - intros s v Hl Hc.
    assert (Hs : s <> "None") by (intros ->; now apply none_not_literal in Hl).
    rewrite (optional_int_cases s Hs), (int_too_many_digits s v Hl Hc). reflexivity.
  - apply too_many_digits_message.
  - intros s Hs Hl Hc. rewrite (optional_int_cases s Hs), (int_malformed s Hl Hc).
    reflexivity.
  - intros s Hs Hl. rewrite (optional_int_cases s Hs).
    destruct (int_total s) as [[v Hv]|[msg Hm]].
    + exfalso. apply (Hl v). now apply int_literal.
    + exists msg. now rewrite Hm.
  - apply unrepr_repr.
  - intros s. apply cut_all.
  - apply is_space_codes.
  - split; [apply digit_values|].
    split; [|split; [|split; [|split]]].
    + intros o s. unfold str2bool. destruct (String.eqb_spec s "True") as [->|Hs].
      * split; reflexivity.
      * destruct (String.eqb s "False"); split; try discriminate; contradiction.
    + intros o s. unfold str2bool. destruct (String.eqb_spec s "True") as [->|Hs].
      * split; discriminate.
      * destruct (String.eqb_spec s "False") as [->|Hf]; split;
          try reflexivity; try discriminate; contradiction.
    + intros o s Ht Hf. unfold str2bool.
      destruct (String.eqb_spec s "True"); [contradiction|].
      destruct (String.eqb_spec s "False"); [contradiction|]. reflexivity.
    + intros []; split; reflexivity.
    + split; [|repeat split; reflexivity].
      intros n Hn.
      assert (Hs : PyInt.str n <> "None").
      { intros Heq. apply (none_not_literal n). rewrite <- Heq. apply str_literal. }
      now rewrite (optional_int_cases _ Hs), int_str.
Qed.
(** ** The stages of [main] *)

Section MainFacts.

Context {R : Type} {N : Number R} {Transcript : Type}.
Variable env : Env R Transcript.

Let trace := list (event R Transcript).

Lemma quiet_app (t1 t2 : trace) : quiet t1 -> quiet t2 -> quiet (t1 ++ t2)%list.
Proof. unfold quiet. intros. apply Forall_app. now split. Qed.

(** The corrector never raises, and leaves at most one warning. *)
Lemma correct_language_cases (model : string) (model_directory language : option string) :
  correct_language (Transcript:=Transcript) (R:=R) model model_directory language
  = if negb (truthy model_directory) && PyStr.endswith model ".en"
       && negb (in_en_English language)
    then (match language with
          | Some l => [Warn (model ++ " is an English-only model but receipted '"
                              ++ l ++ "'; using English instead.")]
          | None => []
          end, Ok (Some "en"))
    else ([], Ok language).
Proof.
  unfold correct_language.
  destruct (negb (truthy model_directory) && PyStr.endswith model ".en"
            && negb (in_en_English language)); [|reflexivity].
  destruct language; reflexivity.
Qed.

Lemma correct_language_quiet (model : string) (model_directory language : option string) :
  exists w l, correct_language (Transcript:=Transcript) (R:=R) model model_directory language
              = (w, Ok l) /\ quiet w.
Proof.
  rewrite correct_language_cases.
  destruct (negb (truthy model_directory) && PyStr.endswith model ".en"
            && negb (in_en_English language)).
  - destruct language; eexists; eexists; split; try reflexivity;
      repeat constructor.
  - eexists; eexists; split; [reflexivity | constructor].
Qed.

(** [resolve], stage by stage. *)
Lemma resolve_cases (a : Args.t R) :
  resolve env a =
  match makedirs env (Args.output_dir a) with
  | Some e => ([Makedirs (Args.output_dir a)], Raise e)
  | None =>
  match ladder (allocate env) (Args.temperature a)
               (Args.temperature_increment_on_fallback a) with
  | Raise e => ([Makedirs (Args.output_dir a)], Raise e)
  | Ok temperature =>
      match from_language_to_iso_code env (Args.language a) with
      | Raise e => ([Makedirs (Args.output_dir a)], Raise e)
      | Ok language =>
          match correct_language (Args.model a) (Args.model_directory a) language with
          | (w, Raise e) => (Makedirs (Args.output_dir a) :: w, Raise e)
          | (w, Ok language) =>
              match parse_suppress_tokens (Args.suppress_tokens a) with
              | Raise e => (Makedirs (Args.output_dir a) :: w, Raise e)
              | Ok suppress_tokens =>
                  (Makedirs (Args.output_dir a) :: w,
                   Ok (language, make_options a temperature suppress_tokens))
              end
          end
      end
  end
  end.
Proof.
  unfold resolve, Eff.bind, Eff.emit, Eff.lift, Eff.ret, Eff.check, Eff.throw.
  destruct (makedirs env _); [reflexivity|].
  destruct (ladder _ _ _) as [temperature|e]; [|reflexivity].
  destruct (from_language_to_iso_code env _) as [language|e]; [|reflexivity].
  destruct (correct_language _ _ language) as [w [l|e]]; simpl.
  - destruct (parse_suppress_tokens _); simpl; rewrite ?app_nil_r; reflexivity.
  - rewrite ?app_nil_r; reflexivity.
Qed.

(** What a successful resolution went through. *)
Lemma resolve_ok_inv (a : Args.t R) (t : trace) (language : option string)
      (options : TranscriptionOptions.t R) :
  resolve env a = (t, Ok (language, options)) ->
  exists temperature language0 w suppress_tokens,
    makedirs env (Args.output_dir a) = None
    /\ ladder (allocate env) (Args.temperature a)
              (Args.temperature_increment_on_fallback a) = Ok temperature
    /\ from_language_to_iso_code env (Args.language a) = Ok language0
    /\ correct_language (R:=R) (Transcript:=Transcript)
                        (Args.model a) (Args.model_directory a) language0
       = (w, Ok language)
    /\ parse_suppress_tokens (Args.suppress_tokens a) = Ok suppress_tokens
    /\ t = Makedirs (Args.output_dir a) :: w
    /\ options = make_options a temperature suppress_tokens.
Proof.
  rewrite resolve_cases.
  destruct (makedirs env _); [discriminate|].
  destruct (ladder _ _ _) as [temperature|]; [|discriminate].
  destruct (from_language_to_iso_code env _) as [language0|]; [|discriminate].
  destruct (correct_language _ _ _) as [w [l|e]] eqn:Hc; [|discriminate].
  destruct (parse_suppress_tokens _) as [suppress_tokens|]; [|discriminate].
  intros H. injection H as <- <- <-.
  exists temperature, language0, w, suppress_tokens. repeat split; auto.
Qed.

(** Resolution succeeds when its four fallible steps do. *)
Lemma resolve_ok (a : Args.t R) :
  makedirs env (Args.output_dir a) = None ->
  is_ok (ladder (allocate env) (Args.temperature a)
                (Args.temperature_increment_on_fallback a)) = true ->
  is_ok (from_language_to_iso_code env (Args.language a)) = true ->
  is_ok (parse_suppress_tokens (Args.suppress_tokens a)) = true ->
  exists t language options, resolve env a = (t, Ok (language, options)).
Proof.
  intros Hm Hl Hr Hp. rewrite resolve_cases, Hm.
  destruct (ladder _ _ _) as [temperature|]; [|discriminate Hl].
  destruct (from_language_to_iso_code env _) as [l0|]; [|discriminate Hr].
  destruct (correct_language_quiet (Args.model a) (Args.model_directory a) l0)
    as [w [l [Hc _]]].
  rewrite Hc.
  destruct (parse_suppress_tokens _) as [st|]; [|discriminate Hp].
  eexists; eexists; eexists. reflexivity.
Qed.

(** Whatever its outcome, resolution leaves the call that creates the
    directory and then at most one warning. *)
Lemma resolve_trace (a : Args.t R) (t : trace)
      (r : result (option string * TranscriptionOptions.t R)) :
  resolve env a = (t, r) ->
  exists w, t = Makedirs (Args.output_dir a) :: w
            /\ (List.length w <= 1)%nat /\ forallb is_warning w = true.
Proof.
  rewrite resolve_cases. intros H.
  destruct (makedirs env _);
    [exists []; inversion H; repeat split; simpl; auto|].
  destruct (ladder _ _ _);
    [|exists []; inversion H; repeat split; simpl; auto].
  destruct (from_language_to_iso_code env _) as [l0|];
    [|exists []; inversion H; repeat split; simpl; auto].
  rewrite correct_language_cases in H.
  destruct (negb (truthy (Args.model_directory a)) && _ && _);
    [destruct l0|]; destruct (parse_suppress_tokens _);
    inversion H; eexists; repeat split; simpl; auto.
Qed.

Lemma warnings_quiet (w : trace) : forallb is_warning w = true -> quiet w.
Proof.
  unfold quiet. rewrite forallb_forall, Forall_forall. intros H e He.
  specialize (H e He). now destruct e.
Qed.

Lemma resolve_quiet (a : Args.t R) (t : trace)
      (r : result (option string * TranscriptionOptions.t R)) :
  resolve env a = (t, r) -> quiet t.
Proof.
  intros H. destruct (resolve_trace a t r H) as [w [-> [_ Hw]]].
  apply (quiet_app [_] w); [repeat constructor | now apply warnings_quiet].
Qed.

(** [validate], check by check. *)
Lemma validate_cases (a : Args.t R) (language : option string)
      (options : TranscriptionOptions.t R) :
  validate env a language options =
  if negb (Args.verbose a) && TranscriptionOptions.print_colors options
  then ([], Raise (RuntimeError "You cannot disable verbose and enable print colors"))
  else if Args.live_transcribe a && negb (live_is_available env)
  then ([], Raise LiveUnavailable)
  else
    let notices :=
      ((if Args.verbose a && negb (truthy language)
        then [Print "Detecting language using up to the first 30 seconds. Use `--language` to specify the language"]
        else []) ++
       (if TranscriptionOptions.print_colors options
           && PyStr.truthy (Args.output_dir a)
           && negb (TranscriptionOptions.word_timestamps options)
        then [Print "Print colors requires word-level time stamps. Generated files in output directory will have word-level timestamps"]
        else []))%list in
    match Args.model_directory a with
    | Some model_directory =>
        if PyStr.truthy model_directory then
          if path_exists env (path_join model_directory "model.bin")
          then (notices, Ok model_directory)
          else (notices,
                Raise (RuntimeError ("Model file '"
                                       ++ path_join model_directory "model.bin"
                                       ++ "' does not exists")))
        else (notices, Ok (Args.model a))
    | None => (notices, Ok (Args.model a))
    end.
Proof.
  unfold validate, Eff.when, Eff.bind, Eff.emit, Eff.throw, Eff.ret,
    force_not_available_exception.
  destruct (negb (Args.verbose a) && TranscriptionOptions.print_colors options);
    [reflexivity|].
  destruct (Args.live_transcribe a && negb (live_is_available env)); [reflexivity|].
  destruct (Args.verbose a && negb (truthy language));
    destruct (TranscriptionOptions.print_colors options
              && PyStr.truthy (Args.output_dir a)
              && negb (TranscriptionOptions.word_timestamps options));
    destruct (Args.model_directory a) as [d|]; simpl;
    try destruct (PyStr.truthy d); try destruct (path_exists env _); reflexivity.
Qed.

Lemma validate_trace (a : Args.t R) (language : option string)
      (options : TranscriptionOptions.t R) (t : trace) (r : result string) :
  validate env a language options = (t, r) ->
  (List.length t <= 2)%nat /\ forallb is_notice t = true.
Proof.
  rewrite validate_cases. intros H.
  destruct (negb (Args.verbose a) && _); [inversion H; simpl; auto|].
  destruct (Args.live_transcribe a && _); [inversion H; simpl; auto|].
  cbv zeta in H.
  destruct (Args.verbose a && negb (truthy language));
    destruct (TranscriptionOptions.print_colors options && _ && _);
    (destruct (Args.model_directory a) as [d|];
     [destruct (PyStr.truthy d); [destruct (path_exists env _)|]|]);
    inversion H; simpl; auto.
Qed.

Lemma notices_quiet (t : trace) : forallb is_notice t = true -> quiet t.
Proof.
  unfold quiet. rewrite forallb_forall, Forall_forall. intros H e He.
  specialize (H e He). now destruct e.
Qed.

Lemma validate_quiet (a : Args.t R) (language : option string)
      (options : TranscriptionOptions.t R) (t : trace) (r : result string) :
  validate env a language options = (t, r) -> quiet t.
Proof.
  intros H. apply notices_quiet. eapply validate_trace. eassumption.
Qed.

(** One pass of the batch loop. *)
Lemma transcribe_one_cases (a : Args.t R) (c : Engine.call R) (audio_path : string) :
  transcribe_one env a c audio_path
  = (pass_events env a c audio_path,
     match pass_exception env a c audio_path with
     | Some e => Raise e
     | None => Ok tt
     end).
Proof.
  unfold transcribe_one, pass_events, pass_exception,
    Eff.bind, Eff.emit, Eff.lift, Eff.check, Eff.throw, Eff.ret.
  destruct (transcribe env audio_path c) as [result|e]; [|reflexivity].
  destruct (write env _ _ result audio_path); reflexivity.
Qed.

Lemma pass_completes_iff (a : Args.t R) (c : Engine.call R) (audio_path : string) :
  pass_completes env a c audio_path = true <-> pass_exception env a c audio_path = None.
Proof.
  unfold pass_completes, pass_exception.
  destruct (transcribe env audio_path c) as [result|e]; [|split; discriminate].
  destruct (write env _ _ result audio_path); split; try discriminate; reflexivity.
Qed.

(** The batch loop: a pass on every path up to the first pass that
    raises. *)
Lemma for_each_transcribe (a : Args.t R) (c : Engine.call R) (audio : list string) :
  Eff.for_each audio (transcribe_one env a c)
  = (flat_map (pass_events env a c) (started env a c audio),
     match first_exception env a c audio with
     | Some e => Raise e
     | None => Ok tt
     end).
Proof.
  induction audio as [|p audio IH]; [reflexivity|].
  cbn [Eff.for_each started first_exception]. unfold Eff.bind at 1.
  rewrite transcribe_one_cases, IH.
  pose proof (pass_completes_iff a c p) as Hp.
  destruct (pass_exception env a c p) as [e|].
  - destruct (pass_completes env a c p); [now destruct Hp as [Hp _]; discriminate Hp|].
    cbn [flat_map]. now rewrite app_nil_r.
  - destruct (pass_completes env a c p); [reflexivity|].
    destruct Hp as [_ Hp]. discriminate (Hp eq_refl).
Qed.

Lemma dispatch_cases (a : Args.t R) (c : Engine.call R) :
  dispatch env a c =
  if Args.live_transcribe a
  then ([LiveInference c],
        match live_inference env c with Some e => Raise e | None => Ok tt end)
  else match Args.audio a with
       | [] => ([StderrWrite ("You need to specify one or more audio files" ++ newline)],
                Ok tt)
       | _ :: _ => (flat_map (pass_events env a c) (started env a c (Args.audio a)),
                    match first_exception env a c (Args.audio a) with
                    | Some e => Raise e
                    | None => Ok tt
                    end)
       end.
Proof.
  unfold dispatch. destruct (Args.live_transcribe a).
  - unfold Eff.bind, Eff.emit, Eff.check, Eff.throw, Eff.ret.
    destruct (live_inference env c); reflexivity.
  - destruct (Args.audio a) as [|p ps] eqn:Ha; [reflexivity|].
    apply for_each_transcribe.
Qed.

Lemma pass_events_dispatch (a : Args.t R) (c : Engine.call R) (paths : list string) :
  forallb is_dispatch_event (flat_map (pass_events env a c) paths) = true.
Proof.
  induction paths as [|p paths IH]; [reflexivity|].
  cbn [flat_map]. rewrite forallb_app, IH, andb_true_r.
  unfold pass_events. destruct (transcribe env p c); reflexivity.
Qed.

Lemma dispatch_trace (a : Args.t R) (c : Engine.call R) :
  forallb is_dispatch_event (fst (dispatch env a c)) = true.
Proof.
  rewrite dispatch_cases. destruct (Args.live_transcribe a); [reflexivity|].
  destruct (Args.audio a) as [|p ps]; [reflexivity|].
  apply pass_events_dispatch.
Qed.

(** Every engine call of the dispatcher carries the arguments it was
    given. *)
Lemma dispatch_calls (a : Args.t R) (c : Engine.call R) (e : event R Transcript)
      (c' : Engine.call R) :
  In e (fst (dispatch env a c)) -> call_of e = Some c' -> c' = c.
Proof.
  rewrite dispatch_cases. destruct (Args.live_transcribe a).
  - intros [<-|[]] H. simpl in H. congruence.
  - destruct (Args.audio a) as [|p ps].
    + intros [<-|[]] H. discriminate H.
    + cbn [fst]. rewrite in_flat_map. intros [q [_ Hin]] H.
      unfold pass_events in Hin. destruct Hin as [<-|Hin]; [simpl in H; congruence|].
      destruct (transcribe env q c); [|destruct Hin].
      destruct Hin as [<-|[]]. discriminate H.
Qed.

(** [main], stage by stage. *)
Lemma main_cases (a : Args.t R) :
  main env a =
  match resolve env a with
  | (t1, Raise e) => (t1, Raise e)
  | (t1, Ok (language, options)) =>
      match validate env a language options with
      | (t2, Raise e) => ((t1 ++ t2)%list, Raise e)
      | (t2, Ok model_dir) =>
          let '(t3, r) := dispatch env a (engine_call a model_dir language options) in
          ((t1 ++ t2 ++ t3)%list, r)
      end
  end.
Proof.
  unfold main, Eff.bind.
  destruct (resolve env a) as [t1 [[language options]|e]]; [|reflexivity].
  destruct (validate env a language options) as [t2 [model_dir|e]]; [|reflexivity].
  destruct (dispatch env a _) as [t3 r]. reflexivity.
Qed.

Lemma main_reaches_dispatch (a : Args.t R) (t : trace) (c : Engine.call R) :
  reaches_dispatch env a t c ->
  main env a = ((t ++ fst (dispatch env a c))%list, snd (dispatch env a c)).
Proof.
  intros [t1 [language [options [t2 [model_dir [Hr [Hv [-> ->]]]]]]]].
  rewrite main_cases, Hr, Hv.
  destruct (dispatch env a _) as [t3 r]. now rewrite app_assoc.
Qed.

Lemma reaches_dispatch_quiet (a : Args.t R) (t : trace) (c : Engine.call R) :
  reaches_dispatch env a t c -> quiet t.
Proof.
  intros [t1 [language [options [t2 [model_dir [Hr [Hv [-> _]]]]]]]].
  apply quiet_app; [eapply resolve_quiet | eapply validate_quiet]; eassumption.
Qed.

(** An invocation that does not reach the dispatcher raises, and calls no
    collaborator. *)
Lemma main_stopped (a : Args.t R) :
  (forall t c, ~ reaches_dispatch env a t c) ->
  exists t e, main env a = (t, Raise e) /\ quiet t.
Proof.
  intros H. rewrite main_cases.
  destruct (resolve env a) as [t1 [[language options]|e]] eqn:Hr.
  - destruct (validate env a language options) as [t2 [model_dir|e]] eqn:Hv.
    + exfalso. apply (H (t1 ++ t2)%list (engine_call a model_dir language options)).
      exists t1, language, options, t2, model_dir. auto.
    + exists (t1 ++ t2)%list, e. split; [reflexivity|].
      apply quiet_app; [eapply resolve_quiet | eapply validate_quiet]; eassumption.
  - exists t1, e. split; [reflexivity | eapply resolve_quiet; eassumption].
Qed.

(** An invocation either reaches the dispatcher or stops before it. *)
Lemma main_reaches_or_stops (a : Args.t R) :
  (exists t c, reaches_dispatch env a t c)
  \/ (exists t e, main env a = (t, Raise e) /\ quiet t
                  /\ forall t' c, ~ reaches_dispatch env a t' c).
Proof.
  destruct (resolve env a) as [t1 [[language options]|e]] eqn:Hr.
  - destruct (validate env a language options) as [t2 [model_dir|e]] eqn:Hv.
    + left. exists (t1 ++ t2)%list, (engine_call a model_dir language options).
      exists t1, language, options, t2, model_dir. auto.
    + right.
      assert (Hno : forall t' c, ~ reaches_dispatch env a t' c).
      { intros t' c [u1 [l [o [u2 [m [Hr' [Hv' _]]]]]]].
        rewrite Hr in Hr'. injection Hr' as <- <- <-. rewrite Hv in Hv'. discriminate Hv'. }
      destruct (main_stopped a Hno) as [t [e' [Hm Hq]]]. now exists t, e'.
  - right.
    assert (Hno : forall t' c, ~ reaches_dispatch env a t' c).
    { intros t' c [u1 [l [o [u2 [m [Hr' _]]]]]]. rewrite Hr in Hr'. discriminate Hr'. }
    destruct (main_stopped a Hno) as [t [e' [Hm Hq]]]. now exists t, e'.
Qed.

(** What reaching the dispatcher went through. *)
Lemma reaches_dispatch_inv (a : Args.t R) (t : trace) (c : Engine.call R) :
  reaches_dispatch env a t c ->
  exists temperature language0 w language suppress_tokens notices,
    makedirs env (Args.output_dir a) = None
    /\ ladder (allocate env) (Args.temperature a)
              (Args.temperature_increment_on_fallback a) = Ok temperature
    /\ from_language_to_iso_code env (Args.language a) = Ok language0
    /\ correct_language (R:=R) (Transcript:=Transcript)
                        (Args.model a) (Args.model_directory a) language0
       = (w, Ok language)
    /\ parse_suppress_tokens (Args.suppress_tokens a) = Ok suppress_tokens
    /\ validate env a language (make_options a temperature suppress_tokens)
       = (notices, Ok (Engine.model_dir c))
    /\ t = (Makedirs (Args.output_dir a) :: w ++ notices)%list
    /\ c = engine_call a (Engine.model_dir c) language
                       (make_options a temperature suppress_tokens).
Proof.
  intros [t1 [language [options [t2 [model_dir [Hr [Hv [-> ->]]]]]]]].
  destruct (resolve_ok_inv a _ _ _ Hr)
    as [temperature [language0 [w [st [Hm [Hl [Hf [Hc [Hp [-> ->]]]]]]]]]].
  exists temperature, language0, w, language, st, t2.
  repeat split; auto.
Qed.

(** Every engine call of an invocation carries the arguments the
    dispatcher was reached with. *)
Lemma main_calls (a : Args.t R) (e : event R Transcript) (c : Engine.call R) :
  In e (fst (main env a)) -> call_of e = Some c ->
  exists t, reaches_dispatch env a t c.
Proof.
  intros Hin Hc.
  assert (Hnq : forall t, quiet t -> ~ In e t).
  { unfold quiet. intros t Hq Hint. rewrite Forall_forall in Hq.
    specialize (Hq e Hint). destruct e; simpl in *; discriminate. }
  destruct (main_reaches_or_stops a) as [[t [c0 Hreach]]|[t [e' [Hm [Hq _]]]]].
  - rewrite (main_reaches_dispatch a t c0 Hreach) in Hin. cbn [fst] in Hin.
    apply in_app_or in Hin. destruct Hin as [Hin|Hin].
    + exfalso. apply (Hnq t); [eapply reaches_dispatch_quiet; eassumption | exact Hin].
    + rewrite (dispatch_calls a c0 e c Hin Hc). now exists t.
  - rewrite Hm in Hin. exfalso. now apply (Hnq t).
Qed.

End MainFacts.
(** ** C6: the suppressed tokens *)

Lemma parse_suppress_tokens_ok (s : string) (vs : list Z) :
  parse_suppress_tokens s = Ok vs
  <-> Forall2 (fun p v => PyInt.literal p v
                          /\ (PyInt.digit_count (PyStr.chars p) <= PyInt.max_str_digits)%nat)
              (PyStr.split "," s) vs.
Proof.
  unfold parse_suppress_tokens. rewrite comprehension_ok.
  split; intros H; induction H; constructor; auto; now apply int_ok.
Qed.

Lemma parse_suppress_tokens_literal (s : string) (vs : list Z) :
  parse_suppress_tokens s = Ok vs -> Forall2 PyInt.literal (PyStr.split "," s) vs.
Proof.
  intros H. apply parse_suppress_tokens_ok in H.
  induction H as [|p v ps vs' [Hp _] _ IH]; constructor; auto.
Qed.




Section TokensInMain.

Context {R : Type} {N : Number R} {Transcript : Type}.
Variable env : Env R Transcript.



End TokensInMain.



(** ** C10: the type of [--vad_filter] *)

(** C10. [--vad_filter] is declared with the builtin [bool]: the stored
    value is true for every non-empty text, the text False included, and
    false for the empty text only; no text is refused.  The other boolean
    flags are declared with [str2bool] and refuse every text other than
    True and False.  The stored value is the one the options carry. *)
Theorem vad_filter_is_truthiness :
  ArgParse.declared_type ArgParse.vad_filter = ArgParse.type_bool
  /\ (forall o s, ArgParse.get_value o ArgParse.vad_filter (Some s)
                  = Ok (negb (String.eqb s "")))
  /\ (forall o s, ArgParse.get_value o ArgParse.vad_filter (Some s) = Ok false
                  <-> s = "")
  /\ (forall o, ArgParse.get_value o ArgParse.vad_filter (Some "False") = Ok true)
  /\ (forall f, f <> ArgParse.vad_filter ->
                ArgParse.declared_type f = ArgParse.type_str2bool)
  /\ (forall o f s, f <> ArgParse.vad_filter -> s <> "True" -> s <> "False" ->
                    exists msg, ArgParse.get_value o f (Some s)
                                = Raise (ArgumentError msg))
  /\ (forall (R : Type) (N : Number R) (T : Type) (env : Env R T) (a : Args.t R)
             t language options,
         resolve env a = (t, Ok (language, options)) ->
         TranscriptionOptions.vad_filter options = Args.vad_filter a).
Proof.
  split; [reflexivity|].
  assert (Hv : forall o s, ArgParse.get_value o ArgParse.vad_filter (Some s)
                           = Ok (negb (String.eqb s ""))).
  { intros o s. destruct s; reflexivity. }
  split; [exact Hv|].
  split.
  { intros o s. rewrite Hv. destruct (String.eqb_spec s "") as [->|Hs].
    - split; reflexivity.
    - split; [discriminate | contradiction]. }
  split; [reflexivity|].
  split; [intros []; try reflexivity; contradiction|].
  split.
  - intros o f s Hf Ht Hfa.
    assert (Hs : str2bool o s = Raise (ValueError ("Expected one of " ++ accepted_set o
                                                     ++ ", got " ++ s))).
    { unfold str2bool.
      destruct (String.eqb_spec s "True"); [contradiction|].
      destruct (String.eqb_spec s "False"); [contradiction|]. reflexivity. }
    destruct f; try contradiction; unfold ArgParse.get_value; simpl; rewrite Hs;
      eexists; reflexivity.
  - intros R N T env a t language options H.
    destruct (resolve_ok_inv env a _ _ _ H)
      as [temperature [l0 [w [st [_ [_ [_ [_ [_ [_ ->]]]]]]]]]].
    reflexivity.
Qed.

(** ** C3 and C4: English-only models *)

(** C3, as stated, fails when the language is absent: with the model
    small.en, no custom directory and no language, the corrector returns
    the language en (without a warning), so the absent language is not
    left alone. *)
Lemma corrector_fills_absent_language :
  correct_language (R:=float) (Transcript:=string) "small.en" None None
  = ([], Ok (Some "en"))
  /\ Some "en" <> (None : option string).
Proof. split; [reflexivity | discriminate]. Qed.

(** C3, amended.  The corrector warns exactly when no custom model
    directory is supplied, the model name ends in .en, and the resolved
    language is neither absent nor English.  It sets the language to en
    whenever no custom model directory is supplied, the model name ends in
    .en and the language is not English, the absent language included.
    In every other case, in particular whenever a custom directory is
    supplied, it warns of nothing and returns the language unchanged. *)
Theorem corrector_spec :
  forall (R : Type) (T : Type) (model : string) (model_directory language : option string),
    let r := correct_language (R:=R) (Transcript:=T) model model_directory language in
    let english_only := negb (truthy model_directory) && PyStr.endswith model ".en" in
    ((exists msg, fst r = [Warn msg])
     <-> english_only = true /\ language <> None /\ in_en_English language = false)
    /\ (fst r = [] \/ exists l, language = Some l
                                /\ fst r = [Warn (model ++ " is an English-only model but receipted '"
                                                    ++ l ++ "'; using English instead.")])
    /\ (snd r = Ok (Some "en")
        <-> (english_only = true /\ in_en_English language = false)
            \/ language = Some "en")
    /\ (english_only = false \/ in_en_English language = true -> r = ([], Ok language))
    /\ (truthy model_directory = true -> r = ([], Ok language))
    /\ correct_language (R:=R) (Transcript:=T) "small.en" (Some "/models/custom") (Some "fr")
       = ([], Ok (Some "fr"))
    /\ correct_language (R:=R) (Transcript:=T) "small.en" None (Some "fr")
       = ([Warn "small.en is an English-only model but receipted 'fr'; using English instead."],
          Ok (Some "en")).
Proof.
  intros R T model model_directory language r english_only.
  subst r english_only. rewrite correct_language_cases.
  destruct (truthy model_directory) eqn:Hd;
    destruct (PyStr.endswith model ".en") eqn:Hm;
    destruct language as [l|]; simpl;
    try destruct (String.eqb_spec l "en") as [->|Hen]; simpl;
    try destruct (String.eqb_spec l "English") as [->|Heng]; simpl;
    repeat match goal with
           | |- _ /\ _ => split
           | |- _ <-> _ => split
           | |- _ -> _ => intro
           | H : exists _, _ |- _ => destruct H
           | H : _ /\ _ |- _ => destruct H
           | H : _ \/ _ |- _ => destruct H
           end;
    try solve [ discriminate | congruence | reflexivity
              | eexists; reflexivity
              | left; solve [ reflexivity | congruence | split; congruence ]
              | right; solve [ reflexivity | congruence
                             | eexists; split; reflexivity ] ].
Qed.

Section EnglishOnly.

Context {R : Type} {N : Number R} {Transcript : Type}.
Variable env : Env R Transcript.

Lemma resolve_english (a : Args.t R) (t : list (event R Transcript))
      (language : option string) (options : TranscriptionOptions.t R) :
  truthy (Args.model_directory a) = false ->
  PyStr.endswith (Args.model a) ".en" = true ->
  resolve env a = (t, Ok (language, options)) ->
  in_en_English language = true.
Proof.
  intros Hd Hm H.
  destruct (resolve_ok_inv env a _ _ _ H)
    as [temperature [l0 [w [st [_ [_ [_ [Hc _]]]]]]]].
  rewrite correct_language_cases, Hd, Hm in Hc. simpl in Hc.
  destruct (in_en_English l0) eqn:Hl0; simpl in Hc; injection Hc as _ <-; auto.
Qed.


End EnglishOnly.

(** ** C5, C7 and C8: validation and dispatch *)

Section Dispatch.

Context {R : Type} {N : Number R} {Transcript : Type}.
Variable env : Env R Transcript.

Lemma resolve_print_colors (a : Args.t R) (t : list (event R Transcript))
      (language : option string) (options : TranscriptionOptions.t R) :
  resolve env a = (t, Ok (language, options)) ->
  TranscriptionOptions.print_colors options = Args.print_colors a.
Proof.
  intros H. destruct (resolve_ok_inv env a _ _ _ H)
    as [temperature [l0 [w [st [_ [_ [_ [_ [_ [_ ->]]]]]]]]]].
  reflexivity.
Qed.

(** C5, amended.  With print_colors set and verbose off, the invocation
    always ends in an exception and calls neither the engine nor the
    writer.  The exception is the [RuntimeError] of the verbose/colors
    check whenever the steps before that check succeed, that is, whenever
    the output directory can be created, the temperature ladder is built,
    and the language resolution and the reading of suppress_tokens raise
    nothing. *)
Theorem colors_without_verbose_is_fatal (a : Args.t R) :
  Args.print_colors a = true ->
  Args.verbose a = false ->
  (exists t e, main env a = (t, Raise e) /\ quiet t)
  /\ (makedirs env (Args.output_dir a) = None ->
      is_ok (ladder (allocate env) (Args.temperature a)
                    (Args.temperature_increment_on_fallback a)) = true ->
      is_ok (from_language_to_iso_code env (Args.language a)) = true ->
      is_ok (parse_suppress_tokens (Args.suppress_tokens a)) = true ->
      exists t, main env a
                = (t, Raise (RuntimeError "You cannot disable verbose and enable print colors"))
                /\ quiet t).
Proof.
  intros Hpc Hv.
  assert (Hval : forall t language options,
             resolve env a = (t, Ok (language, options)) ->
             validate env a language options
             = ([], Raise (RuntimeError "You cannot disable verbose and enable print colors"))).
  { intros t language options Hr. rewrite validate_cases.
    rewrite (resolve_print_colors _ _ _ _ Hr), Hpc, Hv. reflexivity. }
  split.
  - apply main_stopped. intros t c [t1 [language [options [t2 [model_dir [Hr [Hvd _]]]]]]].
    rewrite (Hval _ _ _ Hr) in Hvd. discriminate Hvd.
  - intros Hm Hl Hr Hp.
    destruct (resolve_ok env a Hm Hl Hr Hp) as [t [language [options Hres]]].
    exists t. rewrite main_cases, Hres, (Hval _ _ _ Hres), app_nil_r.
    split; [reflexivity | eapply resolve_quiet; eassumption].
Qed.

(** C7, amended.  Without audio inputs and with live transcription off,
    neither the engine nor the writer is ever called.  If moreover the
    invocation passes resolution and validation, it writes the diagnostic
    to the error stream as its last effect and returns normally. *)
Theorem no_audio_is_benign (a : Args.t R) :
  Args.audio a = [] ->
  Args.live_transcribe a = false ->
  quiet (fst (main env a))
  /\ (forall t c, reaches_dispatch env a t c ->
                  main env a
                  = ((t ++ [StderrWrite ("You need to specify one or more audio files"
                                           ++ newline)])%list,
                     Ok tt)).
Proof.
  intros Ha Hlive.
  assert (Hd : forall c, dispatch env a c
                         = ([StderrWrite ("You need to specify one or more audio files"
                                            ++ newline)], Ok tt)).
  { intros c. now rewrite dispatch_cases, Hlive, Ha. }
  assert (Hmain : forall t c, reaches_dispatch env a t c ->
                  main env a
                  = ((t ++ [StderrWrite ("You need to specify one or more audio files"
                                           ++ newline)])%list,
                     Ok tt)).
  { intros t c Hreach. now rewrite (main_reaches_dispatch env a t c Hreach), Hd. }
  split; [|exact Hmain].
  destruct (main_reaches_or_stops env a) as [[t [c Hreach]]|[t [e [Hm [Hq _]]]]].
  - rewrite (Hmain t c Hreach). cbn [fst].
    apply quiet_app; [eapply reaches_dispatch_quiet; eassumption | repeat constructor].
  - now rewrite Hm.
Qed.

Lemma filter_quiet (t : list (event R Transcript)) (f : event R Transcript -> bool) :
  (forall e, f e = true -> is_collaborator_call e = true) ->
  quiet t -> filter f t = [].
Proof.
  intros Hf Hq. induction Hq as [|e t He _ IH]; [reflexivity|].
  simpl. destruct (f e) eqn:Hfe; [|exact IH].
  apply Hf in Hfe. congruence.
Qed.

Lemma engine_is_collaborator (e : event R Transcript) :
  is_engine_call e = true -> is_collaborator_call e = true.
Proof. intros H. unfold is_collaborator_call. now rewrite H. Qed.

Lemma writer_is_collaborator (e : event R Transcript) :
  is_writer_call e = true -> is_collaborator_call e = true.
Proof. intros H. unfold is_collaborator_call. rewrite H. apply orb_true_r. Qed.

(** The calls of a sequence of passes. *)
Lemma filter_pass_events (a : Args.t R) (c : Engine.call R) (paths : list string) :
  filter is_engine_call (flat_map (pass_events env a c) paths)
  = map (fun p => Inference p c) paths
  /\ filter is_collaborator_call (flat_map (pass_events env a c) paths)
     = flat_map (pass_events env a c) paths
  /\ List.length (filter is_writer_call (flat_map (pass_events env a c) paths))
     = List.length (filter (fun p => is_ok (transcribe env p c)) paths).
Proof.
  induction paths as [|p paths [IH1 [IH2 IH3]]]; [repeat split|].
  cbn [flat_map map filter]. rewrite !filter_app, IH1, IH2, length_app, IH3.
  unfold pass_events. destruct (transcribe env p c); repeat split.
Qed.

Lemma completes_transcribes (a : Args.t R) (c : Engine.call R) (p : string) :
  pass_completes env a c p = true -> is_ok (transcribe env p c) = true.
Proof. unfold pass_completes. now destruct (transcribe env p c). Qed.

Lemma count_completed (a : Args.t R) (c : Engine.call R) (paths : list string) :
  Forall (fun p => pass_completes env a c p = true) paths ->
  List.length (filter (fun p => is_ok (transcribe env p c)) paths) = List.length paths.
Proof.
  induction 1 as [|p paths Hp _ IH]; [reflexivity|].
  cbn [filter]. rewrite (completes_transcribes a c p Hp). simpl. now rewrite IH.
Qed.

(** The passes that are started: an initial run of the paths, of which
    all but the last complete, and which goes on to the last path unless
    a pass fails. *)
Lemma started_spec (a : Args.t R) (c : Engine.call R) (audio : list string) :
  audio <> [] ->
  exists rest,
    audio = (started env a c audio ++ rest)%list
    /\ started env a c audio <> []
    /\ Forall (fun p => pass_completes env a c p = true)
              (removelast (started env a c audio))
    /\ (rest = [] \/ pass_completes env a c (last (started env a c audio) "") = false)
    /\ first_exception env a c audio
       = pass_exception env a c (last (started env a c audio) "").
Proof.
  induction audio as [|p ps IH]; [contradiction|]. intros _.
  cbn [started first_exception].
  pose proof (pass_completes_iff env a c p) as Hiff.
  destruct (pass_completes env a c p) eqn:Hp.
  - assert (He : pass_exception env a c p = None) by now apply Hiff.
    rewrite He. destruct ps as [|q ps'].
    + exists []. cbn. repeat split; auto. discriminate.
    + destruct (IH ltac:(discriminate)) as [rest [Heq [Hne [Hall [Hlast Hex]]]]].
      exists rest. split; [cbn [app]; now rewrite <- Heq|].
      split; [discriminate|].
      destruct (started env a c (q :: ps')) as [|s ss] eqn:Hs; [contradiction|].
      split; [|split].
      * change (removelast (p :: s :: ss)) with (p :: removelast (s :: ss)).
        now constructor.
      * exact Hlast.
      * exact Hex.
  - exists ps. cbn. split; [reflexivity|]. split; [discriminate|].
    split; [constructor|]. split; [now right|].
    destruct (pass_exception env a c p) as [e|]; [reflexivity|].
    destruct Hiff as [_ Hiff]. discriminate (Hiff eq_refl).
Qed.

(** C8, amended.  A batch invocation, one that reaches the dispatcher with
    live transcription off, given N >= 1 paths.  After the events of
    resolution and validation, which hold no collaborator call, the trace
    consists of passes on an initial run of the paths, in their order: the
    engine call on a path and then, if the engine returned, the writer
    call on what it returned.  Every pass but the last of the run
    completes, and the run stops short of the last path only at a pass in
    which the engine or the writer raises; the exception of that pass is
    the outcome of the invocation.  So the engine is called once per
    started pass, the writer once per pass in which the engine returned,
    and when no collaborator call raises both are called N times,
    alternately, and the invocation returns normally. *)
Theorem batch_calls_in_order (a : Args.t R) (t : list (event R Transcript))
        (c : Engine.call R) :
  reaches_dispatch env a t c ->
  Args.live_transcribe a = false ->
  Args.audio a <> [] ->
  exists paths rest,
    Args.audio a = (paths ++ rest)%list
    /\ paths <> []
    /\ Forall (fun p => pass_completes env a c p = true) (removelast paths)
    /\ (rest = [] \/ pass_completes env a c (last paths "") = false)
    /\ quiet t
    /\ fst (main env a)
       = (t ++ flat_map
                 (fun p =>
                    Inference p c ::
                    match transcribe env p c with
                    | Ok result =>
                        [WriterCall (Args.output_format a) (Args.output_dir a) result p]
                    | Raise _ => []
                    end)
                 paths)%list
    /\ snd (main env a)
       = match pass_exception env a c (last paths "") with
         | Some e => Raise e
         | None => Ok tt
         end
    /\ filter is_engine_call (fst (main env a)) = map (fun p => Inference p c) paths
    /\ List.length (filter is_writer_call (fst (main env a)))
       = (List.length (removelast paths)
          + if is_ok (transcribe env (last paths "") c) then 1 else 0)%nat
    /\ (Forall (fun p => pass_completes env a c p = true) (Args.audio a) ->
        paths = Args.audio a
        /\ snd (main env a) = Ok tt
        /\ List.length (filter is_engine_call (fst (main env a)))
           = List.length (Args.audio a)
        /\ List.length (filter is_writer_call (fst (main env a)))
           = List.length (Args.audio a)).
Proof.
  intros Hreach Hlive Ha.
  pose proof (reaches_dispatch_quiet env a t c Hreach) as Hq.
  destruct (started_spec a c (Args.audio a) Ha)
    as [rest [Heq [Hne [Hall [Hlast Hex]]]]].
  set (paths := started env a c (Args.audio a)) in *.
  assert (Hmain : main env a
                  = ((t ++ flat_map (pass_events env a c) paths)%list,
                     match pass_exception env a c (last paths "") with
                     | Some e => Raise e
                     | None => Ok tt
                     end)).
  { rewrite (main_reaches_dispatch env a t c Hreach), dispatch_cases, Hlive.
    destruct (Args.audio a) as [|p ps] eqn:Haudio; [contradiction|].
    cbn [fst snd]. fold paths. now rewrite Hex. }
  destruct (filter_pass_events a c paths) as [He [Hc Hw]].
  assert (Hwriter : List.length (filter is_writer_call (fst (main env a)))
                    = (List.length (removelast paths)
                       + if is_ok (transcribe env (last paths "") c) then 1 else 0)%nat).
  { rewrite Hmain. cbn [fst].
    rewrite filter_app, (filter_quiet t is_writer_call)
      by (auto using writer_is_collaborator).
    cbn [app]. rewrite Hw. rewrite (app_removelast_last "" Hne) at 1.
    rewrite filter_app, length_app, (count_completed a c _ Hall). cbn [filter].
    destruct (is_ok (transcribe env (last paths "") c)); reflexivity. }
  assert (Hengine : filter is_engine_call (fst (main env a))
                    = map (fun p => Inference p c) paths).
  { rewrite Hmain. cbn [fst].
    now rewrite filter_app, (filter_quiet t is_engine_call), He
      by (auto using engine_is_collaborator). }
  exists paths, rest.
  split; [exact Heq|]. split; [exact Hne|]. split; [exact Hall|].
  split; [exact Hlast|]. split; [exact Hq|].
  split; [now rewrite Hmain|]. split; [now rewrite Hmain|].
  split; [exact Hengine|]. split; [exact Hwriter|].
  intros Hevery.
  assert (Hin : In (last paths "") (Args.audio a)).
  { rewrite Heq. apply in_or_app. left.
    rewrite (app_removelast_last "" Hne) at 2. apply in_or_app. right. now left. }
  assert (Hdone : pass_completes env a c (last paths "") = true).
  { rewrite Forall_forall in Hevery. now apply Hevery. }
  assert (Hrest : rest = []) by (destruct Hlast as [H|H]; [exact H | congruence]).
  assert (Hpaths : paths = Args.audio a) by (rewrite Heq, Hrest; now rewrite app_nil_r).
  split; [exact Hpaths|]. split; [|split].
  - rewrite Hmain. cbn [snd].
    apply (pass_completes_iff env a c) in Hdone. now rewrite Hdone.
  - now rewrite Hengine, length_map, Hpaths.
  - rewrite Hwriter, (completes_transcribes a c _ Hdone), <- Hpaths.
    rewrite (app_removelast_last "" Hne) at 2. rewrite length_app. reflexivity.
Qed.

End Dispatch.

(** C5, as stated, fails when an earlier step fails first: with
    print_colors set, verbose off and suppress_tokens x, the invocation
    ends in the [ValueError] of the token, not in the [RuntimeError] of
    the verbose/colors check; and with an output directory that cannot be
    created it ends in the error of that call. *)
Lemma colors_without_verbose_other_error :
  Args.print_colors Sample.colors_without_verbose_bad_tokens = true
  /\ Args.verbose Sample.colors_without_verbose_bad_tokens = false
  /\ main (Sample.env true) Sample.colors_without_verbose_bad_tokens
     = ([Makedirs "."],
        Raise (ValueError "invalid literal for int() with base 10: 'x'"))
  /\ ~ (exists t, main (Sample.env true) Sample.colors_without_verbose_bad_tokens
                  = (t, Raise (RuntimeError
                                 "You cannot disable verbose and enable print colors")))
  /\ main Sample.env_without_directory
          (Sample.in_directory "" Sample.colors_without_verbose)
     = ([Makedirs ""], Raise (OSError "[Errno 2] No such file or directory: ''")).
Proof.
  repeat split. intros [t H]. discriminate H.
Qed.

Lemma colors_without_verbose_is_fatal_witness :
  (exists t e, main (Sample.env true) Sample.colors_without_verbose = (t, Raise e)
               /\ quiet t)
  /\ exists t, main (Sample.env true) Sample.colors_without_verbose
               = (t, Raise (RuntimeError "You cannot disable verbose and enable print colors"))
               /\ quiet t.
Proof.
  destruct (colors_without_verbose_is_fatal (Sample.env true)
              Sample.colors_without_verbose eq_refl eq_refl) as [H1 H2].
  split; [exact H1|]. apply H2; reflexivity.
Defined.

(** C7, as stated, fails when validation fails: without audio and with
    live transcription off, but with print_colors set and verbose off,
    the invocation raises and writes no diagnostic. *)
Lemma no_audio_can_raise :
  Args.audio Sample.colors_without_verbose = []
  /\ Args.live_transcribe Sample.colors_without_verbose = false
  /\ main (Sample.env true) Sample.colors_without_verbose
     = ([Makedirs "."],
        Raise (RuntimeError "You cannot disable verbose and enable print colors"))
  /\ ~ (exists t, main (Sample.env true) Sample.colors_without_verbose = (t, Ok tt))
  /\ ~ In (StderrWrite ("You need to specify one or more audio files" ++ newline))
          (fst (main (Sample.env true) Sample.colors_without_verbose)).
Proof.
  repeat split.
  - intros [t H]. discriminate H.
  - intros [H|[]]. discriminate H.
Qed.

Lemma sample_no_audio_reaches_dispatch :
  reaches_dispatch (Sample.env true) Sample.no_audio
    [Makedirs ".";
     Print "Detecting language using up to the first 30 seconds. Use `--language` to specify the language"]
    (engine_call Sample.no_audio "small" None
       (make_options Sample.no_audio [0; 0.2; 0.4; 3 * 0.2; 0.8; 1]%float [-1])).
Proof.
  exists [Makedirs "."], None,
    (make_options Sample.no_audio [0; 0.2; 0.4; 3 * 0.2; 0.8; 1]%float [-1]),
    [Print "Detecting language using up to the first 30 seconds. Use `--language` to specify the language"],
    "small".
  repeat split.
Defined.

Lemma no_audio_is_benign_witness :
  quiet (fst (main (Sample.env true) Sample.no_audio))
  /\ main (Sample.env true) Sample.no_audio
     = ([Makedirs ".";
         Print "Detecting language using up to the first 30 seconds. Use `--language` to specify the language";
         StderrWrite ("You need to specify one or more audio files" ++ newline)],
        Ok tt).
Proof.
  destruct (no_audio_is_benign (Sample.env true) Sample.no_audio eq_refl eq_refl)
    as [H1 H2].
  split; [exact H1|].
  exact (H2 _ _ sample_no_audio_reaches_dispatch).
Defined.

Lemma sample_two_files_reaches_dispatch :
  reaches_dispatch (Sample.env true) Sample.two_files [Makedirs "."] Sample.two_files_call.
Proof.
  exists [Makedirs "."], (Some "en"),
    (make_options Sample.two_files [0; 0.2; 0.4; 3 * 0.2; 0.8; 1]%float [-1]),
    [], "small.en".
  repeat split.
Defined.

(** C8, as stated, fails when a collaborator raises: with two paths and
    an engine that fails on the first, the engine is called once and the
    writer not at all. *)
Lemma batch_stops_at_failing_engine :
  Args.audio Sample.two_files = ["a.wav"; "b.wav"]
  /\ Args.live_transcribe Sample.two_files = false
  /\ main (Sample.env_engine_fails_on "a.wav") Sample.two_files
     = ([Makedirs "."; Inference "a.wav" Sample.two_files_call],
        Raise (RuntimeError "engine failure"))
  /\ List.length (filter is_engine_call
                         (fst (main (Sample.env_engine_fails_on "a.wav")
                                    Sample.two_files))) = 1%nat
  /\ List.length (filter is_writer_call
                         (fst (main (Sample.env_engine_fails_on "a.wav")
                                    Sample.two_files))) = 0%nat
  /\ main (Sample.env_engine_fails_on "b.wav") Sample.two_files
     = ([Makedirs "."; Inference "a.wav" Sample.two_files_call;
         WriterCall "all" "." "a.wav" "a.wav";
         Inference "b.wav" Sample.two_files_call],
        Raise (RuntimeError "engine failure")).
Proof. repeat split. Qed.

Lemma batch_calls_in_order_witness :
  List.length (filter is_engine_call (fst (main (Sample.env true) Sample.two_files)))
  = 2%nat
  /\ List.length (filter is_writer_call (fst (main (Sample.env true) Sample.two_files)))
     = 2%nat
  /\ snd (main (Sample.env true) Sample.two_files) = Ok tt.
Proof.
  destruct (batch_calls_in_order (Sample.env true) Sample.two_files _ _
              sample_two_files_reaches_dispatch eq_refl)
    as [paths [rest [_ [_ [_ [_ [_ [_ [_ [_ [_ H]]]]]]]]]]]; [discriminate|].
  destruct H as [_ [H1 [H2 H3]]]; [repeat constructor|].
  split; [exact H2|]. split; [exact H3 | exact H1].
Defined.
(** ** The temperature ladder *)

Section Ladder.

Context {R : Type} {N : Number R}.

Lemma fill_length (start next : R) (len : nat) :
  List.length (fill start next len) = len.
Proof.
  destruct len as [|[|k]]; simpl; try reflexivity.
  now rewrite length_map, length_seq.
Qed.


Lemma ascending_nth (l : list R) (x0 : R) :
  (forall i, (S i < List.length l)%nat -> nleb (nth i l x0) (nth (S i) l x0) = true) ->
  ascending l = true.
Proof.
  induction l as [|x l IH]; intros H; [reflexivity|].
  destruct l as [|y l]; [reflexivity|].
  cbn [ascending]. apply andb_true_iff. split.
  - apply (H 0%nat). simpl. lia.
  - apply IH. intros i Hi. apply (H (S i)). simpl in *. lia.
Qed.

Lemma ladder_absent (allocate : Z -> option exn) (t0 : R) : ladder allocate t0 None = Ok [t0].
Proof. reflexivity. Qed.

(** A ladder that is built has the length [arange_length] computes and
    the cells [fill] writes. *)
Lemma ladder_built (allocate : Z -> option exn) (t0 d : R) (l : list R) :
  ladder allocate t0 (Some d) = Ok l ->
  exists n, arange_length t0 bound d = Ok n
            /\ (n <= 0 \/ allocate n = None)
            /\ l = fill t0 (nadd t0 d) (Z.to_nat n).
Proof.
  unfold ladder, arange. destruct (arange_length t0 bound d) as [n|]; [|discriminate].
  cbn [rbind]. destruct (Z.leb_spec n 0) as [Hn|Hn].
  - intros H. injection H as <-. exists n. repeat split; auto.
    replace (Z.to_nat n) with 0%nat by lia. reflexivity.
  - destruct (allocate n) eqn:Ha; [discriminate|].
    intros H. injection H as <-. exists n. repeat split; auto.
Qed.


End Ladder.

(** ** Binary64: mantissas, shifts and signs *)



Lemma fexp_binary64 (x : Z) : fexp prec emax x = Z.max (x - 53) (-1074).
Proof. reflexivity. Qed.

Lemma digits2_size (m : positive) : digits2_pos m = Pos.size m.
Proof. induction m; simpl; congruence. Qed.

Lemma digits2_log2 (m : positive) : Z.pos (digits2_pos m) = Z.log2 (Z.pos m) + 1.
Proof.
  rewrite digits2_size. destruct m; simpl; try reflexivity;
    rewrite Pos2Z.inj_succ; lia.
Qed.

Lemma mantissa_upper (m : positive) : Z.pos m < 2 ^ Z.pos (digits2_pos m).
Proof.
  rewrite digits2_log2. pose proof (Z.log2_spec (Z.pos m) (Pos2Z.is_pos m)) as H.
  replace (Z.log2 (Z.pos m) + 1) with (Z.succ (Z.log2 (Z.pos m))) by lia. lia.
Qed.

Lemma mantissa_lower (m : positive) : 2 ^ (Z.pos (digits2_pos m) - 1) <= Z.pos m.
Proof.
  rewrite digits2_log2. pose proof (Z.log2_spec (Z.pos m) (Pos2Z.is_pos m)) as H.
  replace (Z.log2 (Z.pos m) + 1 - 1) with (Z.log2 (Z.pos m)) by lia. lia.
Qed.

(** What validity says of a finite double. *)
Lemma valid_finite (s : bool) (m : positive) (e : Z) :
  valid_binary prec emax (S754_finite s m e) = true ->
  -1074 <= e <= 971
  /\ Z.pos m < 2 ^ 53
  /\ (-1074 < e -> 2 ^ 52 <= Z.pos m).
Proof.
  unfold valid_binary, bounded, canonical_mantissa. rewrite fexp_binary64.
  intros H. apply andb_true_iff in H. destruct H as [Hc He].
  apply Z.eqb_eq in Hc. apply Z.leb_le in He. change (emax - prec) with 971 in He.
  pose proof (mantissa_upper m) as Hu. pose proof (mantissa_lower m) as Hl.
  assert (Hd : Z.pos (digits2_pos m) <= 53) by lia.
  split; [lia|]. split.
  - apply Z.lt_le_trans with (1 := Hu). apply Z.pow_le_mono_r; lia.
  - intros Hn. assert (Hd' : Z.pos (digits2_pos m) = 53) by lia.
    rewrite Hd' in Hl. exact Hl.
Qed.

Lemma shl_align_fst (mx : positive) (ex ez : Z) :
  ez <= ex -> Z.pos (fst (shl_align mx ex ez)) = Z.pos mx * 2 ^ (ex - ez).
Proof.
  intros H. unfold shl_align. destruct (ez - ex) as [|p|p] eqn:Hd; try lia.
  - replace (ex - ez) with 0 by lia. cbn [fst]. lia.
  - cbn [fst]. replace (ex - ez) with (Z.pos p) by lia.
    change (Pos.iter xO mx p) with (Zpower.shift_pos p mx).
    rewrite Zpower.shift_pos_correct. change (Z.pow_pos 2 p) with (2 ^ Z.pos p). lia.
Qed.

Lemma shl_align_snd (mx : positive) (ex ez : Z) :
  snd (shl_align mx ex ez) = Z.min ex ez.
Proof.
  unfold shl_align. destruct (ez - ex) as [|p|p] eqn:Hd; cbn [snd]; lia.
Qed.

(** Shifting to the right. *)
Lemma shr_1_m (mrs : shr_record) :
  0 <= shr_m mrs -> shr_m (shr_1 mrs) = Z.shiftr (shr_m mrs) 1.
Proof.
  destruct mrs as [m r s]. cbn [shr_m]. intros H. rewrite <- Z.div2_spec.
  destruct m as [|[p|p|]|p]; try reflexivity; lia.
Qed.

Lemma iter_shr_1_m (p : positive) :
  forall mrs, 0 <= shr_m mrs ->
              shr_m (iter_pos shr_1 p mrs) = Z.shiftr (shr_m mrs) (Z.pos p).
Proof.
  induction p as [p IH|p IH|]; intros mrs H; cbn [iter_pos].
  - assert (H1 : 0 <= shr_m (shr_1 mrs))
      by (rewrite shr_1_m by exact H; now apply Z.shiftr_nonneg).
    assert (H2 : 0 <= shr_m (iter_pos shr_1 p (shr_1 mrs)))
      by (rewrite IH by exact H1; now apply Z.shiftr_nonneg).
    rewrite IH by exact H2. rewrite IH by exact H1. rewrite shr_1_m by exact H.
    rewrite !Z.shiftr_shiftr by lia. f_equal. lia.
  - assert (H2 : 0 <= shr_m (iter_pos shr_1 p mrs))
      by (rewrite IH by exact H; now apply Z.shiftr_nonneg).
    rewrite IH by exact H2. rewrite IH by exact H.
    rewrite Z.shiftr_shiftr by lia. f_equal. lia.
  - now apply shr_1_m.
Qed.

Lemma Zdigits2_log2 (m : Z) : 0 < m -> Zdigits2 m = Z.log2 m + 1.
Proof. destruct m; try lia. intros _. apply digits2_log2. Qed.

(** A positive mantissa stays positive when fewer bits are shifted out
    than it has. *)
Lemma shr_positive (mrs : shr_record) (e n : Z) :
  0 < shr_m mrs -> n < Zdigits2 (shr_m mrs) ->
  0 < shr_m (fst (shr mrs e n)) /\ snd (shr mrs e n) = e + Z.max 0 n.
Proof.
  intros Hm Hn. unfold shr. destruct n as [|p|p]; cbn [fst snd]; try (split; [exact Hm | lia]).
  split; [|lia]. rewrite iter_shr_1_m by lia.
  rewrite Zdigits2_log2 in Hn by exact Hm.
  assert (H0 : 0 <= Z.shiftr (shr_m mrs) (Z.pos p)) by (apply Z.shiftr_nonneg; lia).
  assert (Hne : Z.shiftr (shr_m mrs) (Z.pos p) <> 0).
  { rewrite Z.shiftr_eq_0_iff. intros [H|[_ H]]; lia. }
  lia.
Qed.

Lemma shr_fexp_positive (m e : Z) :
  0 < m -> -1074 <= e ->
  0 < shr_m (fst (shr_fexp prec emax m e loc_Exact))
  /\ -1074 <= snd (shr_fexp prec emax m e loc_Exact).
Proof.
  intros Hm He. unfold shr_fexp. rewrite fexp_binary64.
  assert (Hd : 0 < Zdigits2 m) by (rewrite Zdigits2_log2 by exact Hm;
                                   pose proof (Z.log2_nonneg m); lia).
  destruct (shr_positive (shr_record_of_loc m loc_Exact) e
              (Z.max (Zdigits2 m + e - 53) (-1074) - e)) as [H1 H2].
  - exact Hm.
  - cbn [shr_record_of_loc shr_m]. lia.
  - split; [exact H1 | rewrite H2; lia].
Qed.

Lemma round_nearest_even_ge (m : Z) (l : location) : m <= round_nearest_even m l.
Proof.
  unfold round_nearest_even. destruct l as [|[]]; try lia. destruct (Z.even m); lia.
Qed.

(** The sign of a rounded number is the sign it was given. *)
Lemma binary_round_aux_sign (sx : bool) (mx ex : Z) (lx : location) :
  match binary_round_aux prec emax sx mx ex lx with
  | S754_zero s | S754_infinity s | S754_finite s _ _ => s = sx
  | S754_nan => True
  end.
Proof.
  unfold binary_round_aux.
  destruct (shr_fexp prec emax mx ex lx) as [mrs' e'].
  destruct (shr_fexp prec emax _ e' loc_Exact) as [mrs'' e''].
  destruct (shr_m mrs''); try reflexivity; try exact I.
  destruct (e'' <=? emax - prec); reflexivity.
Qed.

(** A positive mantissa with an exponent that is not below the least
    exponent does not round to zero. *)
Lemma binary_round_aux_nonzero (sx : bool) (mx ex : Z) :
  0 < mx -> -1074 <= ex ->
  Binary64.strict_sign (binary_round_aux prec emax sx mx ex loc_Exact) = Some sx.
Proof.
  intros Hm He. unfold binary_round_aux.
  destruct (shr_fexp_positive mx ex Hm He) as [H1 H2].
  destruct (shr_fexp prec emax mx ex loc_Exact) as [mrs' e']. cbn [fst snd] in H1, H2.
  pose proof (round_nearest_even_ge (shr_m mrs') (loc_of_shr_record mrs')) as Hr.
  destruct (shr_fexp_positive (round_nearest_even (shr_m mrs') (loc_of_shr_record mrs'))
              e' ltac:(lia) H2) as [H3 _].
  destruct (shr_fexp prec emax _ e' loc_Exact) as [mrs'' e'']. cbn [fst] in H3.
  destruct (shr_m mrs''); try lia.
  destruct (e'' <=? emax - prec); reflexivity.
Qed.

Lemma binary_round_nonzero (sx : bool) (mx : positive) (ex : Z) :
  -1074 <= ex ->
  Binary64.strict_sign (binary_round prec emax sx mx ex) = Some sx.
Proof.
  intros He. unfold binary_round.
  pose proof (shl_align_snd mx ex (fexp prec emax (Z.pos (digits2_pos mx) + ex))) as Hs.
  rewrite fexp_binary64 in Hs.
  destruct (shl_align mx ex _) as [mz ez]. cbn [snd] in Hs.
  apply binary_round_aux_nonzero; lia.
Qed.

Lemma binary_round_sign (sx : bool) (mx : positive) (ex : Z) :
  match binary_round prec emax sx mx ex with
  | S754_zero s | S754_infinity s | S754_finite s _ _ => s = sx
  | S754_nan => True
  end.
Proof.
  unfold binary_round. destruct (shl_align mx ex _) as [mz ez].
  apply binary_round_aux_sign.
Qed.
(** ** Binary64: the sign of a difference *)

Lemma SFcompare_antisym (x y : spec_float) :
  SFcompare y x = option_map CompOpp (SFcompare x y).
Proof.
  destruct x as [sx|sx| |sx mx ex], y as [sy|sy| |sy my ey]; try reflexivity;
    try (destruct sx; reflexivity); try (destruct sy; reflexivity);
    try (destruct sx, sy; reflexivity).
  cbn [SFcompare option_map].
  change (Pos.compare_cont Eq my mx) with (Pos.compare my mx).
  change (Pos.compare_cont Eq mx my) with (Pos.compare mx my).
  rewrite (Z.compare_antisym ex ey), (Pos.compare_antisym mx my).
  destruct sx, sy; try reflexivity; destruct (ex ?= ey); cbn [CompOpp]; try reflexivity;
    destruct (Pos.compare mx my); reflexivity.
Qed.

(** Aligned to their lesser exponent, the mantissas of two valid doubles
    compare as the pairs of exponent and mantissa do. *)
Lemma aligned_compare (s1 s2 : bool) (m1 m2 : positive) (e1 e2 : Z) :
  valid_binary prec emax (S754_finite s1 m1 e1) = true ->
  valid_binary prec emax (S754_finite s2 m2 e2) = true ->
  match (match e1 ?= e2 with
         | Lt => Lt
         | Gt => Gt
         | Eq => Pos.compare_cont Eq m1 m2
         end) with
  | Lt => Z.pos (fst (shl_align m1 e1 (Z.min e1 e2)))
          < Z.pos (fst (shl_align m2 e2 (Z.min e1 e2)))
  | Eq => Z.pos (fst (shl_align m1 e1 (Z.min e1 e2)))
          = Z.pos (fst (shl_align m2 e2 (Z.min e1 e2)))
  | Gt => Z.pos (fst (shl_align m2 e2 (Z.min e1 e2)))
          < Z.pos (fst (shl_align m1 e1 (Z.min e1 e2)))
  end.
Proof.
  intros H1 H2.
  destruct (valid_finite _ _ _ H1) as [He1 [Hu1 Hn1]].
  destruct (valid_finite _ _ _ H2) as [He2 [Hu2 Hn2]].
  rewrite !shl_align_fst by lia.
  destruct (Z.compare_spec e1 e2) as [Heq|Hlt|Hgt].
  - subst e2. rewrite Z.min_id, Z.sub_diag, !Z.mul_1_r.
    change (Pos.compare_cont Eq m1 m2) with (Pos.compare m1 m2).
    destruct (Pos.compare_spec m1 m2) as [->| |]; lia.
  - rewrite Z.min_l by lia. rewrite Z.sub_diag, Z.mul_1_r.
    assert (Hp : 2 ^ 1 <= 2 ^ (e2 - e1)) by (apply Z.pow_le_mono_r; lia).
    specialize (Hn2 ltac:(lia)). change (2 ^ 1) with 2 in Hp. nia.
  - rewrite Z.min_r by lia. rewrite Z.sub_diag, Z.mul_1_r.
    assert (Hp : 2 ^ 1 <= 2 ^ (e1 - e2)) by (apply Z.pow_le_mono_r; lia).
    specialize (Hn1 ltac:(lia)). change (2 ^ 1) with 2 in Hp. nia.
Qed.

Lemma binary_normalize_sign (m e : Z) :
  -1074 <= e ->
  Binary64.strict_sign (binary_normalize prec emax m e false)
  = match m with
    | Z0 => None
    | Z.pos _ => Some false
    | Z.neg _ => Some true
    end.
Proof.
  intros He. destruct m; cbn [binary_normalize]; [reflexivity| |];
    apply binary_round_nonzero; exact He.
Qed.

(** The difference [x - y] has the sign of the comparison of [y] with
    [x]: positive when [y < x], negative when [x < y], and it is a zero
    or a NaN otherwise. *)
Lemma SFsub_sign (x y : spec_float) :
  valid_binary prec emax x = true ->
  valid_binary prec emax y = true ->
  Binary64.strict_sign (SFsub prec emax x y) = Binary64.sign_of_comparison (SFcompare y x).
Proof.
  intros Hx Hy.
  destruct x as [sx|sx| |sx mx ex], y as [sy|sy| |sy my ey]; try reflexivity;
    try (destruct sx; reflexivity); try (destruct sy; reflexivity);
    try (destruct sx, sy; reflexivity).
  destruct (valid_finite _ _ _ Hx) as [Hex _].
  destruct (valid_finite _ _ _ Hy) as [Hey _].
  cbn [SFsub]. rewrite binary_normalize_sign by lia.
  pose proof (aligned_compare sy sx my mx ey ex Hy Hx) as Hc.
  rewrite (Z.min_comm ey ex) in Hc.
  set (MX := Z.pos (fst (shl_align mx ex (Z.min ex ey)))) in *.
  set (MY := Z.pos (fst (shl_align my ey (Z.min ex ey)))) in *.
  assert (HMX : 0 < MX) by apply Pos2Z.is_pos.
  assert (HMY : 0 < MY) by apply Pos2Z.is_pos.
  cbn [SFcompare Binary64.sign_of_comparison].
  destruct sx, sy; cbn [cond_Zopp].
  - (* both negative *)
    destruct (ey ?= ex); [destruct (Pos.compare_cont Eq my mx)| |];
      cbn [CompOpp] in *; destruct (- MX - - MY) eqn:Hd; try reflexivity; lia.
  - destruct (- MX - MY) eqn:Hd; try reflexivity; lia.
  - destruct (MX - - MY) eqn:Hd; try reflexivity; lia.
  - destruct (ey ?= ex); [destruct (Pos.compare_cont Eq my mx)| |];
      destruct (MX - MY) eqn:Hd; try reflexivity; lia.
Qed.

(** In terms of the primitive comparison. *)
Lemma sub_sign (a b : float) :
  (Binary64.strict_sign (Prim2SF (a - b)) = Some false <-> (b <? a)%float = true)
  /\ (Binary64.strict_sign (Prim2SF (a - b)) = Some true <-> (a <? b)%float = true).
Proof.
  rewrite FloatAxioms.sub_spec, !FloatAxioms.ltb_spec.
  unfold FloatAxioms.SF64sub.
  rewrite (SFsub_sign _ _ (FloatAxioms.Prim2SF_valid a) (FloatAxioms.Prim2SF_valid b)).
  unfold SFltb. rewrite (SFcompare_antisym (Prim2SF b) (Prim2SF a)).
  destruct (SFcompare (Prim2SF b) (Prim2SF a)) as [[]|]; cbn; split; split;
    intros H; try discriminate H; reflexivity.
Qed.

Lemma positive_sign (d : float) :
  (0 <? d)%float = true <-> Binary64.strict_sign (Prim2SF d) = Some false.
Proof.
  rewrite FloatAxioms.ltb_spec. change (Prim2SF 0) with (S754_zero false).
  unfold SFltb. destruct (Prim2SF d) as [s|[]| |[] m e]; cbn; split; intros H;
    try discriminate H; reflexivity.
Qed.

Lemma negative_sign (d : float) :
  (d <? 0)%float = true <-> Binary64.strict_sign (Prim2SF d) = Some true.
Proof.
  rewrite FloatAxioms.ltb_spec. change (Prim2SF 0) with (S754_zero false).
  unfold SFltb. destruct (Prim2SF d) as [s|[]| |[] m e]; cbn; split; intros H;
    try discriminate H; reflexivity.
Qed.

Lemma is_zero_spec (x : float) :
  Binary64.is_zero x = match Prim2SF x with S754_zero _ => true | _ => false end.
Proof.
  unfold Binary64.is_zero. rewrite FloatAxioms.eqb_spec.
  change (Prim2SF 0) with (S754_zero false).
  destruct (Prim2SF x) as [s|[]| |[] m e]; reflexivity.
Qed.

(** ** Binary64: the length of the ladder *)

Lemma ceil_value_positive (m : positive) (e : Z) :
  1 <= (if 0 <=? e then Z.pos m * 2 ^ e else - (- Z.pos m / 2 ^ (- e))).
Proof.
  destruct (Z.leb_spec 0 e) as [He|He].
  - assert (Hp : 0 < 2 ^ e) by (apply Z.pow_pos_nonneg; lia). nia.
  - assert (Hp : 0 < 2 ^ (- e)) by (apply Z.pow_pos_nonneg; lia).
    assert (Hq : - Z.pos m / 2 ^ (- e) < 0) by (apply Z.div_lt_upper_bound; lia).
    lia.
Qed.

Lemma ceil_value_negative (m : positive) (e : Z) :
  (if 0 <=? e then Z.neg m * 2 ^ e else - (- Z.neg m / 2 ^ (- e))) <= 0.
Proof.
  destruct (Z.leb_spec 0 e) as [He|He].
  - assert (Hp : 0 < 2 ^ e) by (apply Z.pow_pos_nonneg; lia). nia.
  - assert (Hp : 0 < 2 ^ (- e)) by (apply Z.pow_pos_nonneg; lia).
    assert (Hq : 0 <= - Z.neg m / 2 ^ (- e)) by (apply Z.div_pos; lia).
    lia.
Qed.

Lemma ceil_finite (s : bool) (m : positive) (e n : Z) (x : float) :
  Prim2SF x = S754_finite s m e ->
  Binary64.ceil x = Count n -> (0 < n <-> s = false).
Proof.
  intros Hx. unfold Binary64.ceil. rewrite Hx. unfold to_intp.
  destruct (_ && _); [|discriminate]. intros H. injection H as <-.
  destruct s.
  - pose proof (ceil_value_negative m e). split; [lia | discriminate].
  - pose proof (ceil_value_positive m e). split; [reflexivity | lia].
Qed.

Lemma xorb_same_sign (s1 s2 : bool) : xorb s1 s2 = false <-> Some s1 = Some s2.
Proof. destruct s1, s2; cbn; split; intros H; try discriminate H; reflexivity. Qed.

(** For an increment that is neither zero nor a NaN, the computed length
    is positive exactly when the span from the base temperature to the
    bound is neither zero nor a NaN and has the sign of the increment. *)
Lemma arange_length_sign (t0 d : float) (sd : bool) (n : Z) :
  Binary64.strict_sign (Prim2SF d) = Some sd ->
  arange_length t0 bound d = Ok n ->
  (0 < n <-> Binary64.strict_sign (Prim2SF (bound - t0)) = Some sd).
Proof.
  intros Hd. unfold arange_length.
  cbn [nsub ndiv nceil nis_zero nsignbit binary64]. unfold Binary64.div.
  assert (Hz : (d =? 0)%float = false).
  { pose proof (is_zero_spec d) as H. unfold Binary64.is_zero in H. rewrite H.
    destruct (Prim2SF d); try reflexivity; discriminate Hd. }
  rewrite Hz. rewrite !is_zero_spec. unfold Binary64.signbit.
  set (span := (bound - t0)%float).
  destruct (Binary64.ceil (span / d)) as [v| |] eqn:Hceil; try discriminate.
  pose proof Hceil as Hceil'. unfold Binary64.ceil in Hceil'.
  revert Hceil Hceil'. rewrite FloatAxioms.div_spec. unfold FloatAxioms.SF64div.
  destruct (Prim2SF span) as [ss|ss| |ss ms es] eqn:Hs;
    destruct (Prim2SF d) as [s|s| |s md ed] eqn:HD; try discriminate Hd;
    injection Hd as ->; cbn [SFdiv Binary64.strict_sign].
  - (* zero / infinity *)
    intros _ Hv H. cbn in Hv, H. injection Hv as <-. injection H as <-.
    split; [lia | discriminate].
  - (* zero / finite *)
    intros _ Hv H. cbn in Hv, H. injection Hv as <-. injection H as <-.
    split; [lia | discriminate].
  - (* infinity / infinity *) intros _ H. discriminate H.
  - (* infinity / finite *) intros _ H. discriminate H.
  - (* nan *) intros _ H. discriminate H.
  - (* nan *) intros _ H. discriminate H.
  - (* finite / infinity *)
    intros _ _ H. cbn in H. rewrite <- xorb_same_sign.
    destruct (xorb ss sd); injection H as <-; split; intros H; try reflexivity;
      try discriminate H; lia.
  - (* finite / finite *)
    pose proof (binary_round_aux_sign (xorb ss sd)) as Hsign.
    destruct (SFdiv_core_binary prec emax (Z.pos ms) es (Z.pos md) ed)
      as [[mz ez] lz] eqn:Hcore.
    specialize (Hsign mz ez lz).
    assert (HQ : Prim2SF (span / d) = binary_round_aux prec emax (xorb ss sd) mz ez lz).
    { rewrite FloatAxioms.div_spec, Hs, HD. unfold FloatAxioms.SF64div.
      cbn [SFdiv]. now rewrite Hcore. }
    destruct (binary_round_aux prec emax (xorb ss sd) mz ez lz) as [sq|sq| |sq mq eq] eqn:Hq.
    + intros _ _ H. cbn in H. rewrite <- xorb_same_sign, <- Hsign.
      destruct sq; injection H as <-; split; intros H; try reflexivity;
        try discriminate H; lia.
    + intros _ H. discriminate H.
    + intros _ H. discriminate H.
    + intros Hceil _ H. cbn in H. injection H as <-.
      rewrite <- xorb_same_sign, <- Hsign.
      exact (ceil_finite sq mq eq v (span / d)%float HQ Hceil).
Qed.
(** ** C1 and C2: the ladder in double precision *)

Lemma ladder_nonempty (allocate : Z -> option exn) (t0 d : float) (sd : bool)
      (l : list float) :
  Binary64.strict_sign (Prim2SF d) = Some sd ->
  ladder allocate t0 (Some d) = Ok l ->
  (l <> [] <-> Binary64.strict_sign (Prim2SF (bound - t0)) = Some sd).
Proof.
  intros Hd Hl. destruct (ladder_built allocate t0 d l Hl) as [n [Hn [_ ->]]].
  rewrite <- (arange_length_sign t0 d sd n Hd Hn).
  split.
  - intros Hne. destruct (Z.to_nat n) eqn:Hz; [now contradiction Hne | lia].
  - intros Hpos Hnil. apply (f_equal (@List.length float)) in Hnil.
    rewrite fill_length in Hnil. simpl in Hnil. lia.
Qed.

(** With a positive increment, a ladder that is built is empty exactly
    when the base temperature is not below the bound. *)
Lemma positive_ladder_nonempty (allocate : Z -> option exn) (t0 d : float)
      (l : list float) :
  (0 <? d)%float = true ->
  ladder allocate t0 (Some d) = Ok l ->
  (l <> [] <-> (t0 <? bound)%float = true).
Proof.
  intros Hd Hl. apply positive_sign in Hd.
  rewrite (ladder_nonempty allocate t0 d false l Hd Hl).
  apply (sub_sign bound t0).
Qed.

Lemma negative_ladder_nonempty (allocate : Z -> option exn) (t0 d : float)
      (l : list float) :
  (d <? 0)%float = true ->
  ladder allocate t0 (Some d) = Ok l ->
  (l <> [] <-> (bound <? t0)%float = true).
Proof.
  intros Hd Hl. apply negative_sign in Hd.
  rewrite (ladder_nonempty allocate t0 d true l Hd Hl).
  apply (sub_sign bound t0).
Qed.

Lemma arange_length_binary64 (t0 stop d : float) :
  arange_length t0 stop d =
  if (d =? 0)%float then Raise (ZeroDivisionError "float division by zero")
  else match Binary64.ceil ((stop - t0) / d) with
       | NotANumber => Raise (ValueError "arange: cannot compute length")
       | OutOfRange => Raise (ValueError "Maximum allowed size exceeded")
       | Count n =>
           if ((stop - t0) / d =? 0)%float && negb (stop - t0 =? 0)%float
           then Ok (if Binary64.signbit ((stop - t0) / d) then 0 else 1)
           else Ok n
       end.
Proof.
  unfold arange_length. cbn [ndiv nsub nceil nis_zero nsignbit binary64].
  unfold Binary64.div, Binary64.is_zero. destruct (d =? 0)%float; reflexivity.
Qed.




(** ** C2: the temperature field of the options *)




(** * Further properties of [main] *)

Section MoreDispatch.

Context {R : Type} {N : Number R} {Transcript : Type}.
Variable env : Env R Transcript.

(** X1. Live mode.  An invocation that passes resolution and validation
    with the live flag set starts the live engine once, as its last
    effect, and ends as the live engine does: it returns if the engine
    returns and raises what the engine raises.  It calls neither the batch
    engine nor the writer, whatever audio paths were given. *)
Theorem live_mode_ignores_audio (a : Args.t R) (t : list (event R Transcript))
        (c : Engine.call R) :
  reaches_dispatch env a t c ->
  Args.live_transcribe a = true ->
  main env a = ((t ++ [LiveInference c])%list,
                match live_inference env c with
                | Some e => Raise e
                | None => Ok tt
                end)
  /\ filter is_collaborator_call (fst (main env a)) = [LiveInference c]
  /\ filter is_writer_call (fst (main env a)) = [].
Proof.
  intros Hreach Hlive.
  pose proof (reaches_dispatch_quiet env a t c Hreach) as Hq.
  assert (Hmain : main env a = ((t ++ [LiveInference c])%list,
                                match live_inference env c with
                                | Some e => Raise e
                                | None => Ok tt
                                end)).
  { now rewrite (main_reaches_dispatch env a t c Hreach), dispatch_cases, Hlive. }
  rewrite Hmain. cbn [fst]. rewrite !filter_app.
  rewrite (filter_quiet t is_collaborator_call), (filter_quiet t is_writer_call); auto.
  intros e H. unfold is_collaborator_call. rewrite H. apply orb_true_r.
Qed.

(** X2. The model locator.  When an invocation reaches the dispatcher, the
    engine is handed the custom model directory if a non-empty one is
    supplied, and the model name otherwise; and the file model.bin of a
    supplied directory, named by the directory, a slash unless the
    directory ends with one, and model.bin, is known to exist. *)
Theorem engine_model_locator (a : Args.t R) (t : list (event R Transcript))
        (c : Engine.call R) :
  reaches_dispatch env a t c ->
  Engine.model_dir c = model_locator a
  /\ (forall d, Args.model_directory a = Some d -> PyStr.truthy d = true ->
                path_exists env (if PyStr.endswith d "/" then d ++ "model.bin"
                                 else d ++ "/model.bin") = true)
  /\ path_join "/models/custom" "model.bin" = "/models/custom/model.bin"
  /\ path_join "models/" "model.bin" = "models/model.bin".
Proof.
  intros Hreach.
  destruct (reaches_dispatch_inv env a t c Hreach)
    as [temperature [l0 [w [language [st [notices [_ [_ [_ [_ [_ [Hv _]]]]]]]]]]]].
  rewrite validate_cases in Hv. unfold model_locator.
  destruct (negb (Args.verbose a) && _); [discriminate|].
  destruct (Args.live_transcribe a && _); [discriminate|].
  cbv zeta in Hv.
  split; [|split; [|split; reflexivity]].
  - destruct (Args.model_directory a) as [d|]; [destruct (PyStr.truthy d)|];
      try destruct (path_exists env _); try discriminate; now injection Hv as _ <-.
  - intros d Hd Ht. rewrite Hd, Ht in Hv.
    destruct (path_exists env (path_join d "model.bin")) eqn:He; [|discriminate].
    unfold path_join in He. destruct d as [|ch d']; [discriminate Ht|].
    cbn [String.eqb] in He. exact He.
Qed.

(** X3. One configuration for the whole invocation: any two engine calls of
    one invocation, live or batch, receive the same arguments. *)
Theorem engine_calls_agree (a : Args.t R) (e1 e2 : event R Transcript)
        (c1 c2 : Engine.call R) :
  In e1 (fst (main env a)) -> call_of e1 = Some c1 ->
  In e2 (fst (main env a)) -> call_of e2 = Some c2 ->
  c1 = c2.
Proof.
  intros H1 Hc1 H2 Hc2.
  destruct (main_calls env a e1 c1 H1 Hc1)
    as [t1 [u1 [l1 [o1 [v1 [m1 [Hr1 [Hv1 [_ ->]]]]]]]]].
  destruct (main_calls env a e2 c2 H2 Hc2)
    as [t2 [u2 [l2 [o2 [v2 [m2 [Hr2 [Hv2 [_ ->]]]]]]]]].
  rewrite Hr1 in Hr2. injection Hr2 as <- <- <-.
  rewrite Hv1 in Hv2. now injection Hv2 as <- <-.
Qed.

(** X4. What the engine receives is the command line: apart from the model
    locator, the language, the temperature ladder and the suppressed
    tokens, every argument and every option of an engine call is the value
    of the command line, field by field.  In particular print_colors does
    not switch word_timestamps on.  The ladder and the tokens are the ones
    computed from the command line. *)
Theorem engine_call_passthrough (a : Args.t R) (e : event R Transcript)
        (c : Engine.call R) :
  In e (fst (main env a)) -> call_of e = Some c ->
  Engine.task c = Args.task a
  /\ Engine.threads c = Args.threads a
  /\ Engine.device c = Args.device a
  /\ Engine.device_index c = Args.device_index a
  /\ Engine.compute_type c = Args.compute_type a
  /\ Engine.verbose c = Args.verbose a
  /\ TranscriptionOptions.beam_size (Engine.options c) = Args.beam_size a
  /\ TranscriptionOptions.best_of (Engine.options c) = Args.best_of a
  /\ TranscriptionOptions.patience (Engine.options c) = Args.patience a
  /\ TranscriptionOptions.length_penalty (Engine.options c) = Args.length_penalty a
  /\ TranscriptionOptions.log_prob_threshold (Engine.options c)
     = Args.logprob_threshold a
  /\ TranscriptionOptions.no_speech_threshold (Engine.options c)
     = Args.no_speech_threshold a
  /\ TranscriptionOptions.compression_ratio_threshold (Engine.options c)
     = Args.compression_ratio_threshold a
  /\ TranscriptionOptions.condition_on_previous_text (Engine.options c)
     = Args.condition_on_previous_text a
  /\ TranscriptionOptions.initial_prompt (Engine.options c) = Args.initial_prompt a
  /\ TranscriptionOptions.word_timestamps (Engine.options c) = Args.word_timestamps a
  /\ TranscriptionOptions.prepend_punctuations (Engine.options c)
     = Args.prepend_punctuations a
  /\ TranscriptionOptions.append_punctuations (Engine.options c)
     = Args.append_punctuations a
  /\ TranscriptionOptions.print_colors (Engine.options c) = Args.print_colors a
  /\ TranscriptionOptions.vad_filter (Engine.options c) = Args.vad_filter a
  /\ TranscriptionOptions.vad_threshold (Engine.options c) = Args.vad_threshold a
  /\ TranscriptionOptions.vad_min_speech_duration_ms (Engine.options c)
     = Args.vad_min_speech_duration_ms a
  /\ TranscriptionOptions.vad_max_speech_duration_s (Engine.options c)
     = Args.vad_max_speech_duration_s a
  /\ TranscriptionOptions.vad_min_silence_duration_ms (Engine.options c)
     = Args.vad_min_silence_duration_ms a
  /\ ladder (allocate env) (Args.temperature a) (Args.temperature_increment_on_fallback a)
     = Ok (TranscriptionOptions.temperature (Engine.options c))
  /\ parse_suppress_tokens (Args.suppress_tokens a)
     = Ok (TranscriptionOptions.suppress_tokens (Engine.options c)).
Proof.
  intros Hin Hc. destruct (main_calls env a e c Hin Hc) as [t Hreach].
  destruct (reaches_dispatch_inv env a t c Hreach)
    as [temperature [l0 [w [language [st [notices [_ [Hl [_ [_ [Hp [_ [_ Hcall]]]]]]]]]]]]].
  rewrite Hcall. cbn. repeat split; assumption.
Qed.

End MoreDispatch.

Lemma sample_live_reaches_dispatch :
  reaches_dispatch (Sample.env true) Sample2.live
    [Makedirs "."; Print detecting_language_notice]
    (engine_call Sample2.live "small" None (Sample2.default_options Sample2.live)).
Proof.
  exists [Makedirs "."], None, (Sample2.default_options Sample2.live),
    [Print detecting_language_notice], "small".
  repeat split.
Defined.

Lemma live_mode_ignores_audio_witness :
  Args.audio Sample2.live = ["a.wav"]
  /\ filter is_collaborator_call (fst (main (Sample.env true) Sample2.live))
     = [LiveInference (engine_call Sample2.live "small" None
                                   (Sample2.default_options Sample2.live))].
Proof.
  split; [reflexivity|].
  destruct (live_mode_ignores_audio (Sample.env true) Sample2.live _ _
              sample_live_reaches_dispatch eq_refl) as [_ [H _]].
  exact H.
Defined.

Lemma sample_custom_reaches_dispatch :
  reaches_dispatch (Sample2.env_with_payload true) Sample2.custom_directory
    [Makedirs "."]
    (engine_call Sample2.custom_directory "/models/custom" (Some "fr")
                 (Sample2.default_options Sample2.custom_directory)).
Proof.
  exists [Makedirs "."], (Some "fr"),
    (Sample2.default_options Sample2.custom_directory), [], "/models/custom".
  repeat split.
Defined.

Lemma engine_model_locator_witness :
  Engine.model_dir (engine_call Sample2.custom_directory "/models/custom" (Some "fr")
                                (Sample2.default_options Sample2.custom_directory))
  = "/models/custom"
  /\ path_exists (Sample2.env_with_payload true) "/models/custom/model.bin" = true
  /\ path_exists (Sample2.env_with_payload true) "/models/custom" = false.
Proof.
  destruct (engine_model_locator (Sample2.env_with_payload true)
              Sample2.custom_directory _ _ sample_custom_reaches_dispatch)
    as [H1 [H2 _]].
  split; [exact H1|]. split; [|reflexivity].
  exact (H2 "/models/custom" eq_refl eq_refl).
Defined.

Lemma engine_calls_agree_witness :
  Sample.two_files_call = Sample.two_files_call
  /\ In (Inference "a.wav" Sample.two_files_call)
        (fst (main (Sample.env true) Sample.two_files))
  /\ In (Inference "b.wav" Sample.two_files_call)
        (fst (main (Sample.env true) Sample.two_files)).
Proof.
  assert (H1 : In (Inference "a.wav" Sample.two_files_call)
                  (fst (main (Sample.env true) Sample.two_files))).
  { vm_compute. right. left. reflexivity. }
  assert (H2 : In (Inference "b.wav" Sample.two_files_call)
                  (fst (main (Sample.env true) Sample.two_files))).
  { vm_compute. right. right. right. left. reflexivity. }
  split; [|split; assumption].
  exact (engine_calls_agree (Sample.env true) Sample.two_files _ _ _ _
           H1 eq_refl H2 eq_refl).
Defined.

Lemma engine_call_passthrough_witness :
  Engine.task Sample.two_files_call = "transcribe"
  /\ TranscriptionOptions.beam_size (Engine.options Sample.two_files_call) = Some 5
  /\ TranscriptionOptions.word_timestamps (Engine.options Sample.two_files_call)
     = Args.word_timestamps Sample.two_files.
Proof.
  assert (H1 : In (Inference "a.wav" Sample.two_files_call)
                  (fst (main (Sample.env true) Sample.two_files))).
  { vm_compute. right. left. reflexivity. }
  pose proof (engine_call_passthrough (Sample.env true) Sample.two_files _ _
                H1 eq_refl) as H.
  split; [exact (proj1 H)|]. split; [exact (proj1 (proj2 (proj2 (proj2 (proj2 (proj2 (proj2 H))))))) |].
  exact (proj1 (proj2 (proj2 (proj2 (proj2 (proj2 (proj2 (proj2 (proj2 (proj2
           (proj2 (proj2 (proj2 (proj2 (proj2 (proj2 H)))))))))))))))).
Defined.

Section Notices.

Context {R : Type} {N : Number R} {Transcript : Type}.
Variable env : Env R Transcript.

(** X5. The two notices.  For an invocation that reaches the dispatcher:
    the language-detection notice is printed exactly when verbose is on and
    the language handed to the engine is absent or empty; the print-colors
    notice is printed exactly when print_colors is on, the output directory
    is not the empty text and word_timestamps is off. *)
Theorem notices_spec (a : Args.t R) (t : list (event R Transcript))
        (c : Engine.call R) :
  reaches_dispatch env a t c ->
  (In (Print detecting_language_notice) t
   <-> Args.verbose a = true /\ truthy (Engine.language c) = false)
  /\ (In (Print print_colors_notice) t
      <-> Args.print_colors a = true /\ PyStr.truthy (Args.output_dir a) = true
          /\ Args.word_timestamps a = false).
Proof.
  intros Hreach.
  destruct (reaches_dispatch_inv env a t c Hreach)
    as [temperature [l0 [w [language [st [notices [_ [_ [_ [Hc [_ [Hv [-> ->]]]]]]]]]]]]].
  assert (Hw : forall msg, ~ In (Print (R:=R) (Transcript:=Transcript) msg) w).
  { intros msg. rewrite correct_language_cases in Hc.
    destruct (negb (truthy (Args.model_directory a)) && _ && _);
      [destruct l0|]; injection Hc as <- _; simpl.
    all: intuition discriminate. }
  rewrite validate_cases in Hv.
  destruct (negb (Args.verbose a) && _); [discriminate|].
  destruct (Args.live_transcribe a && _); [discriminate|].
  cbv zeta in Hv.
  assert (Hn : notices
               = ((if Args.verbose a && negb (truthy language)
                   then [Print detecting_language_notice] else []) ++
                  (if Args.print_colors a && PyStr.truthy (Args.output_dir a)
                      && negb (Args.word_timestamps a)
                   then [Print print_colors_notice] else []))%list).
  { destruct (Args.model_directory a) as [d|];
      [destruct (PyStr.truthy d); [destruct (path_exists env _)|]|];
      try discriminate; now injection Hv as <- _. }
  cbn [Engine.language engine_call].
  assert (Hin : forall msg,
             In (Print msg) (Makedirs (Args.output_dir a) :: w ++ notices)
             <-> In (Print msg) notices).
  { intros msg. split.
    - intros [H|H]; [discriminate|]. apply in_app_or in H.
      destruct H as [H|H]; [now apply Hw in H | exact H].
    - intros H. right. apply in_or_app. now right. }
  rewrite !Hin, Hn.
  destruct (Args.verbose a); destruct (truthy language);
    destruct (Args.print_colors a); destruct (PyStr.truthy (Args.output_dir a));
    destruct (Args.word_timestamps a); simpl;
    (split; split; intro H;
     repeat match goal with
            | H : _ /\ _ |- _ => destruct H
            | H : _ \/ _ |- _ => destruct H
            | H : False |- _ => destruct H
            end;
     try discriminate; try (repeat split; reflexivity); auto).
Qed.

(** X6. The shape of every trace, of failing invocations too.  The call
    that creates the output directory comes first and is made exactly
    once; then comes at most one warning, then at most two notices, then
    the events of the dispatcher (engine calls, writer calls, the
    missing-audio diagnostic).  So nothing is warned or printed once a
    collaborator has been called. *)
Theorem trace_shape (a : Args.t R) :
  exists warnings notices rest,
    fst (main env a)
    = (Makedirs (Args.output_dir a) :: warnings ++ notices ++ rest)%list
    /\ (List.length warnings <= 1)%nat /\ forallb is_warning warnings = true
    /\ (List.length notices <= 2)%nat /\ forallb is_notice notices = true
    /\ forallb is_dispatch_event rest = true.
Proof.
  rewrite main_cases.
  destruct (resolve env a) as [t1 [[language options]|e]] eqn:Hr;
    destruct (resolve_trace env a _ _ Hr) as [w [-> [Hlen Hw]]].
  - destruct (validate env a language options) as [t2 [model_dir|e]] eqn:Hv;
      destruct (validate_trace env a _ _ _ _ Hv) as [Hlen2 Hn].
    + pose proof (dispatch_trace env a (engine_call a model_dir language options)) as Hd.
      destruct (dispatch env a _) as [t3 r]. exists w, t2, t3.
      repeat split; auto.
    + exists w, t2, []. rewrite app_nil_r. repeat split; auto.
  - exists w, [], []. rewrite app_nil_r. repeat split; auto.
Qed.

(** X7. With an English-only model and no custom directory the
    language-detection notice is never printed, whatever language was
    given or not given. *)
Theorem english_only_never_detects (a : Args.t R) :
  truthy (Args.model_directory a) = false ->
  PyStr.endswith (Args.model a) ".en" = true ->
  ~ In (Print detecting_language_notice) (fst (main env a)).
Proof.
  intros Hd Hm Hin. rewrite main_cases in Hin.
  assert (Hres : forall t r, resolve env a = (t, r) ->
                             ~ In (Print detecting_language_notice) t).
  { intros t r Hr H. destruct (resolve_trace env a _ _ Hr) as [w [-> [_ Hw]]].
    destruct H as [H|H]; [discriminate|].
    rewrite forallb_forall in Hw. apply Hw in H. discriminate. }
  assert (Hdis : forall c, ~ In (Print detecting_language_notice)
                             (fst (dispatch env a c))).
  { intros c H. pose proof (dispatch_trace env a c) as Hall.
    rewrite forallb_forall in Hall. apply Hall in H. discriminate. }
  destruct (resolve env a) as [t1 [[language options]|e]] eqn:Hr.
  - pose proof (resolve_english env a _ _ _ Hd Hm Hr) as Heng.
    assert (Hval : forall t2 r, validate env a language options = (t2, r) ->
                                ~ In (Print detecting_language_notice) t2).
    { intros t2 r. rewrite validate_cases.
      destruct (negb (Args.verbose a) && _); [intros H; inversion H; auto|].
      destruct (Args.live_transcribe a && _); [intros H; inversion H; auto|].
      cbv zeta.
      assert (Ht : truthy language = true).
      { destruct language as [l|]; [|discriminate Heng]. simpl in *.
        destruct (String.eqb_spec l "en") as [->|_]; [reflexivity|].
        destruct (String.eqb_spec l "English") as [->|_]; [reflexivity|discriminate]. }
      rewrite Ht, andb_false_r. cbn [app].
      destruct (TranscriptionOptions.print_colors options && _ && _);
        (destruct (Args.model_directory a) as [d|];
         [destruct (PyStr.truthy d); [destruct (path_exists env _)|]|]);
        intros H; inversion H; simpl; intuition discriminate. }
    destruct (validate env a language options) as [t2 [model_dir|e]] eqn:Hv.
    + specialize (Hdis (engine_call a model_dir language options)).
      destruct (dispatch env a _) as [t3 r]. cbn [fst] in *.
      apply in_app_or in Hin. destruct Hin as [H|H]; [now apply (Hres _ _ eq_refl)|].
      apply in_app_or in H. destruct H as [H|H]; [now apply (Hval _ _ eq_refl)|auto].
    + cbn [fst] in Hin. apply in_app_or in Hin.
      destruct Hin as [H|H]; [now apply (Hres _ _ eq_refl) | now apply (Hval _ _ eq_refl)].
  - cbn [fst] in Hin. now apply (Hres _ _ eq_refl).
Qed.

End Notices.

Lemma notices_spec_witness :
  (In (Print detecting_language_notice)
      [Makedirs (R:=float) (Transcript:=string) "."; Print detecting_language_notice]
   <-> Args.verbose Sample2.live = true
       /\ truthy (Engine.language
                    (engine_call Sample2.live "small" None
                                 (Sample2.default_options Sample2.live))) = false)
  /\ (In (Print print_colors_notice)
         [Makedirs (R:=float) (Transcript:=string) "."; Print detecting_language_notice]
      <-> Args.print_colors Sample2.live = true
          /\ PyStr.truthy (Args.output_dir Sample2.live) = true
          /\ Args.word_timestamps Sample2.live = false).
Proof.
  exact (notices_spec (Sample.env true) Sample2.live _ _ sample_live_reaches_dispatch).
Defined.

Lemma english_only_never_detects_witness :
  Args.model Sample.two_files = "small.en"
  /\ Args.language Sample.two_files = None
  /\ ~ In (Print detecting_language_notice)
          (fst (main (Sample.env true) Sample.two_files)).
Proof.
  split; [reflexivity|]. split; [reflexivity|].
  exact (english_only_never_detects (Sample.env true) Sample.two_files
           eq_refl eq_refl).
Defined.

Section Precedence.

Context {R : Type} {N : Number R} {Transcript : Type}.
Variable env : Env R Transcript.

(** X8. The order in which failures are reported.  The first of the
    following that applies decides the outcome of an invocation: the
    output directory cannot be created, the temperature ladder is not
    built, the language resolution fails, the suppress_tokens text is
    refused, print_colors is set without verbose, live transcription is
    asked for and not available, a model directory is supplied without
    model.bin.  If none applies the invocation reaches the dispatcher, and
    its outcome is the one of the live engine in live mode and otherwise
    the first exception of a pass of the batch loop, or a normal return if
    there is none.  An invocation that stops before the dispatcher has
    called no collaborator. *)
Theorem failure_precedence (a : Args.t R) :
  let created := makedirs env (Args.output_dir a) in
  let ladder_result :=
    ladder (allocate env) (Args.temperature a)
           (Args.temperature_increment_on_fallback a) in
  let language_result := from_language_to_iso_code env (Args.language a) in
  let tokens_result := parse_suppress_tokens (Args.suppress_tokens a) in
  (forall e, created = Some e ->
             main env a = ([Makedirs (Args.output_dir a)], Raise e))
  /\ (forall e, created = None -> ladder_result = Raise e ->
                main env a = ([Makedirs (Args.output_dir a)], Raise e))
  /\ (forall e, created = None -> is_ok ladder_result = true ->
                language_result = Raise e ->
                main env a = ([Makedirs (Args.output_dir a)], Raise e))
  /\ (forall e, created = None -> is_ok ladder_result = true ->
                is_ok language_result = true ->
                tokens_result = Raise e -> snd (main env a) = Raise e)
  /\ (created = None -> is_ok ladder_result = true ->
      is_ok language_result = true -> is_ok tokens_result = true ->
      if negb (Args.verbose a) && Args.print_colors a
      then snd (main env a)
           = Raise (RuntimeError "You cannot disable verbose and enable print colors")
      else if Args.live_transcribe a && negb (live_is_available env)
      then snd (main env a) = Raise LiveUnavailable
      else match Args.model_directory a with
           | Some d =>
               if PyStr.truthy d && negb (path_exists env (path_join d "model.bin"))
               then snd (main env a)
                    = Raise (RuntimeError ("Model file '" ++ path_join d "model.bin"
                                             ++ "' does not exists"))
               else exists t c, reaches_dispatch env a t c
           | None => exists t c, reaches_dispatch env a t c
           end)
  /\ (forall t c, reaches_dispatch env a t c ->
                  snd (main env a)
                  = if Args.live_transcribe a
                    then match live_inference env c with
                         | Some e => Raise e
                         | None => Ok tt
                         end
                    else match first_exception env a c (Args.audio a) with
                         | Some e => Raise e
                         | None => Ok tt
                         end)
  /\ ((forall t c, ~ reaches_dispatch env a t c) ->
      exists e, snd (main env a) = Raise e /\ quiet (fst (main env a))).
Proof.
  cbv zeta.
  split; [|split; [|split; [|split; [|split; [|split]]]]].
  - intros e He. now rewrite main_cases, resolve_cases, He.
  - intros e Hm He. now rewrite main_cases, resolve_cases, Hm, He.
  - intros e Hm Hl He. rewrite main_cases, resolve_cases, Hm, He.
    destruct (ladder _ _ _); [reflexivity | discriminate Hl].
  - intros e Hm Hl Hr He. rewrite main_cases, resolve_cases, Hm, He.
    destruct (ladder _ _ _); [|discriminate Hl].
    destruct (from_language_to_iso_code env _) as [l0|]; [|discriminate Hr].
    destruct (correct_language_quiet (R:=R) (Transcript:=Transcript)
                (Args.model a) (Args.model_directory a) l0) as [w [l [Hc _]]].
    now rewrite Hc.
  - intros Hm Hl Hr Hp.
    destruct (resolve_ok env a Hm Hl Hr Hp) as [t1 [language [options Hres]]].
    pose proof (resolve_print_colors env a _ _ _ Hres) as Hpc.
    assert (Hreach : forall t2 model_dir,
               validate env a language options = (t2, Ok model_dir) ->
               exists t c, reaches_dispatch env a t c).
    { intros t2 model_dir Hv.
      exists (t1 ++ t2)%list, (engine_call a model_dir language options).
      exists t1, language, options, t2, model_dir. auto. }
    rewrite main_cases, Hres.
    pose proof (validate_cases env a language options) as Hv. rewrite Hpc in Hv.
    destruct (negb (Args.verbose a) && Args.print_colors a); [now rewrite Hv|].
    destruct (Args.live_transcribe a && negb (live_is_available env)); [now rewrite Hv|].
    cbv zeta in Hv.
    destruct (Args.model_directory a) as [d|]; [|now apply (Hreach _ _ Hv)].
    destruct (PyStr.truthy d); [|now apply (Hreach _ _ Hv)].
    destruct (path_exists env _); [now apply (Hreach _ _ Hv)|].
    cbn [negb andb]. now rewrite Hv.
  - intros t c Hreach. rewrite (main_reaches_dispatch env a t c Hreach). cbn [snd].
    rewrite dispatch_cases. destruct (Args.live_transcribe a); [reflexivity|].
    destruct (Args.audio a); reflexivity.
  - intros Hno. destruct (main_stopped env a Hno) as [t [e [Hm Hq]]].
    exists e. rewrite Hm. now split.
Qed.

End Precedence.

(** X9. An increment of zero is fatal.  For every base temperature and for
    both zeros the ladder is not built: once the call that creates the
    output directory has returned, the invocation ends with a
    [ZeroDivisionError], before any validation and without any
    collaborator call. *)
Theorem zero_increment_is_fatal :
  (forall (T : Type) (env : Env float T) (a : Args.t float) (d : float),
      makedirs env (Args.output_dir a) = None ->
      Args.temperature_increment_on_fallback a = Some d ->
      (d =? 0)%float = true ->
      main env a = ([Makedirs (Args.output_dir a)],
                    Raise (ZeroDivisionError "float division by zero")))
  /\ (forall (allocate : Z -> option exn) (t0 d : float),
         (d =? 0)%float = true ->
         ladder allocate t0 (Some d)
         = Raise (ZeroDivisionError "float division by zero"))
  /\ (-0 =? 0)%float = true.
Proof.
  assert (H : forall (allocate : Z -> option exn) (t0 d : float),
             (d =? 0)%float = true ->
             ladder allocate t0 (Some d)
             = Raise (ZeroDivisionError "float division by zero")).
  { intros allocate t0 d Hd. unfold ladder, arange.
    now rewrite arange_length_binary64, Hd. }
  split; [|split; [exact H | reflexivity]].
  intros T env a d Hm Hinc Hd.
  now rewrite main_cases, resolve_cases, Hm, Hinc, (H _ _ _ Hd).
Qed.

(** ** Non-finite temperatures and increments *)

Lemma ceil_div (x d : float) :
  Binary64.ceil (x / d)
  = match FloatAxioms.SF64div (Prim2SF x) (Prim2SF d) with
    | S754_nan => NotANumber
    | S754_infinity _ => OutOfRange
    | S754_zero _ => Count 0
    | S754_finite negative m e =>
        let mantissa := if negative then Z.neg m else Z.pos m in
        to_intp (if (0 <=? e)%Z then (mantissa * 2 ^ e)%Z
                 else (- (- mantissa / 2 ^ (- e)))%Z)
    end.
Proof. unfold Binary64.ceil. now rewrite FloatAxioms.div_spec. Qed.

(** With an infinite increment the length is zero or one. *)
Lemma arange_length_infinite (t0 d : float) (s : bool) (n : Z) :
  Prim2SF d = S754_infinity s ->
  arange_length t0 bound d = Ok n -> n = 0 \/ n = 1.
Proof.
  intros Hd. rewrite arange_length_binary64, ceil_div, Hd.
  destruct (d =? 0)%float; [discriminate|].
  unfold FloatAxioms.SF64div.
  destruct (Prim2SF (bound - t0)); cbn [SFdiv]; try discriminate;
    destruct (_ && _); try destruct (Binary64.signbit _);
    intros H; injection H as <-; auto.
Qed.

Lemma infinite_ladder (allocate : Z -> option exn) (t0 d : float) (s : bool)
      (l : list float) :
  Prim2SF d = S754_infinity s ->
  ladder allocate t0 (Some d) = Ok l -> l = [] \/ l = [t0].
Proof.
  intros Hd Hl. destruct (ladder_built allocate t0 d l Hl) as [n [Hn [_ ->]]].
  destruct (arange_length_infinite t0 d s n Hd Hn) as [-> | ->]; [left|right]; reflexivity.
Qed.

(** X10. Non-finite temperature arguments.  A NaN or infinite base
    temperature never yields a ladder, whatever the increment; a NaN
    increment always ends in the [ValueError] of the length computation;
    an infinite increment yields, if anything, the base temperature alone
    when it lies on the side of the bound the increment points away from
    (below the bound for a positive increment, above it for a negative
    one), and the empty ladder otherwise. *)
Theorem non_finite_ladders :
  (forall allocate (d : float), is_ok (ladder allocate nan (Some d)) = false)
  /\ (forall allocate (d : float), is_ok (ladder allocate infinity (Some d)) = false)
  /\ (forall allocate (d : float), is_ok (ladder allocate neg_infinity (Some d)) = false)
  /\ (forall allocate (t0 : float),
         ladder allocate t0 (Some nan)
         = Raise (ValueError "arange: cannot compute length"))
  /\ (forall allocate (t0 : float) (l : list float),
         ladder allocate t0 (Some infinity) = Ok l ->
         l = if (t0 <? bound)%float then [t0] else [])
  /\ (forall allocate (t0 : float) (l : list float),
         ladder allocate t0 (Some neg_infinity) = Ok l ->
         l = if (bound <? t0)%float then [t0] else [])
  /\ ladder Sample.no_limit 0%float (Some infinity) = Ok [0%float]
  /\ ladder Sample.no_limit 2%float (Some infinity) = Ok []
  /\ ladder Sample.no_limit 2%float (Some neg_infinity) = Ok [2%float].
Proof.
  assert (Hbase : forall allocate (t0 d : float),
             match Prim2SF (bound - t0) with
             | S754_nan | S754_infinity _ => True
             | _ => False
             end ->
             is_ok (ladder allocate t0 (Some d)) = false).
  { intros allocate t0 d Hs. unfold ladder, arange.
    rewrite arange_length_binary64, ceil_div.
    destruct (d =? 0)%float; [reflexivity|]. unfold FloatAxioms.SF64div.
    destruct (Prim2SF (bound - t0)); try contradiction;
      destruct (Prim2SF d); reflexivity. }
  split; [intros; now apply Hbase|].
  split; [intros; now apply Hbase|].
  split; [intros; now apply Hbase|].
  split.
  { intros allocate t0. unfold ladder, arange. rewrite arange_length_binary64, ceil_div.
    change (nan =? 0)%float with false. cbv iota.
    change (Prim2SF nan) with S754_nan. unfold FloatAxioms.SF64div.
    destruct (Prim2SF (bound - t0)); reflexivity. }
  split; [|split; [|repeat split]].
  - intros allocate t0 l Hl.
    pose proof (positive_ladder_nonempty allocate t0 infinity l eq_refl Hl) as Hne.
    destruct (infinite_ladder allocate t0 infinity false l eq_refl Hl) as [-> | ->].
    + destruct (t0 <? bound)%float; [|reflexivity].
      exfalso. now apply (proj2 Hne).
    + destruct (t0 <? bound)%float; [reflexivity|].
      assert (H : false = true) by (apply Hne; discriminate). discriminate H.
  - intros allocate t0 l Hl.
    pose proof (negative_ladder_nonempty allocate t0 neg_infinity l eq_refl Hl) as Hne.
    destruct (infinite_ladder allocate t0 neg_infinity true l eq_refl Hl) as [-> | ->].
    + destruct (bound <? t0)%float; [|reflexivity].
      exfalso. now apply (proj2 Hne).
    + destruct (bound <? t0)%float; [reflexivity|].
      assert (H : false = true) by (apply Hne; discriminate). discriminate H.
Qed.

(** X11. A negative increment.  A ladder that is built is not empty
    exactly when the base temperature is strictly above 1.0 + 1e-6, and it
    then starts at the base temperature. *)
Theorem negative_increment_ladder (allocate : Z -> option exn) (t0 d : float)
        (l : list float) :
  (d <? 0)%float = true ->
  ladder allocate t0 (Some d) = Ok l ->
  (l <> [] <-> (bound <? t0)%float = true)
  /\ (forall x l', l = x :: l' -> x = t0).
Proof.
  intros Hd Hl. split; [now apply (negative_ladder_nonempty allocate t0 d l)|].
  intros x l' Heq. destruct (ladder_built allocate t0 d l Hl) as [n [_ [_ Hf]]].
  rewrite Heq in Hf. destruct (Z.to_nat n) as [|[|k]]; cbn [fill] in Hf;
    [discriminate Hf | now injection Hf | now injection Hf].
Qed.

Lemma negative_increment_ladder_witness :
  exists l, ladder Sample.no_limit 2%float (Some (-0.2)%float) = Ok l
            /\ List.length l = 5%nat
            /\ (l <> [] <-> (bound <? 2)%float = true)
            /\ (bound <? 2)%float = true.
Proof.
  destruct (ladder Sample.no_limit 2%float (Some (-0.2)%float)) as [l|e] eqn:Hl;
    [|vm_compute in Hl; discriminate Hl].
  exists l. split; [reflexivity|].
  split; [vm_compute in Hl; now injection Hl as <-|].
  split; [|reflexivity].
  exact (proj1 (negative_increment_ladder Sample.no_limit 2%float (-0.2)%float l
                  eq_refl Hl)).
Defined.

(** ** More on the suppressed tokens *)

Lemma split_length (sep : ascii) (s : string) :
  List.length (PyStr.split sep s)
  = S (count_occ Ascii.ascii_dec (PyStr.chars s) sep).
Proof.
  induction s as [|c s IH]; [reflexivity|].
  pose proof (split_not_nil sep s) as Hne.
  cbn [PyStr.split PyStr.chars list_ascii_of_string].
  destruct (Ascii.eqb_spec c sep) as [->|Hc].
  - rewrite count_occ_cons_eq by reflexivity. simpl. now rewrite IH.
  - rewrite count_occ_cons_neq by exact Hc.
    destruct (PyStr.split sep s) as [|p ps]; [contradiction|]. exact IH.
Qed.

Lemma empty_not_literal (v : Z) : ~ PyInt.literal "" v.
Proof.
  intros H. pose proof (parse_complete _ _ H) as Hp. vm_compute in Hp. discriminate Hp.
Qed.

Lemma split_trailing_sep (sep : ascii) (s : string) :
  exists ps, ps <> [] /\ PyStr.split sep (s ++ String sep "") = (ps ++ [""])%list.
Proof.
  induction s as [|c s [ps [Hne IH]]].
  - exists [""]. split; [discriminate|]. simpl. now rewrite Ascii.eqb_refl.
  - cbn [append PyStr.split]. rewrite IH.
    destruct (Ascii.eqb c sep).
    + exists ("" :: ps). split; [discriminate | reflexivity].
    + destruct ps as [|p ps']; [contradiction|].
      exists (String c p :: ps'). split; [discriminate | reflexivity].
Qed.

(** X14. The list of suppressed tokens is never empty and has exactly one
    entry per comma of the text, plus one.  A text with an empty piece (the
    empty text, a leading or trailing comma, two commas in a row) is
    refused. *)
Theorem suppress_tokens_count :
  (forall s vs, parse_suppress_tokens s = Ok vs ->
                vs <> []
                /\ List.length vs
                   = S (count_occ Ascii.ascii_dec (PyStr.chars s) ","%char))
  /\ (forall s, In "" (PyStr.split "," s) -> is_ok (parse_suppress_tokens s) = false)
  /\ (forall s, is_ok (parse_suppress_tokens (s ++ ",")) = false)
  /\ (forall s, is_ok (parse_suppress_tokens (String "," s)) = false)
  /\ is_ok (parse_suppress_tokens "") = false.
Proof.
  assert (Hempty : forall s, In "" (PyStr.split "," s) ->
                             is_ok (parse_suppress_tokens s) = false).
  { intros s Hin. destruct (parse_suppress_tokens s) as [vs|] eqn:Hp; [|reflexivity].
    exfalso. apply parse_suppress_tokens_literal in Hp.
    revert Hin. induction Hp as [|p v ps vs Hpv _ IH]; [intros []|].
    intros [Heq|Hin]; [subst p; now apply empty_not_literal in Hpv | now apply IH]. }
  split; [|split; [exact Hempty|split; [|split; [|reflexivity]]]].
  - intros s vs Hp. apply parse_suppress_tokens_literal in Hp.
    pose proof (Forall2_length Hp) as Hlen. rewrite split_length in Hlen.
    split; [|now rewrite <- Hlen]. intros ->. discriminate Hlen.
  - intros s. apply Hempty.
    destruct (split_trailing_sep "," s) as [ps [_ Hs]]. rewrite Hs.
    apply in_or_app. right. now left.
  - intros s. apply Hempty. simpl. now left.
Qed.

(** ** The integer flags *)

(** X15. The text None on the integer flags.  [--threads], [--best_of]
    and [--beam_size] store the absent value for the text None; the three
    voice-activity duration flags refuse it, so that their default, the
    absent value, cannot be written on the command line.  On every other
    text the six flags behave alike: a decimal integer text of at most
    4300 digits is stored as its value, and every other text is refused
    with the argument error that names the flag and the declared type and
    quotes the whole text. *)
Theorem integer_flags_spec :
  (forall f, ArgParseInt.declared_type f = ArgParseInt.type_optional_int ->
             ArgParseInt.get_value f (Some "None") = Ok None)
  /\ (forall f s, ArgParseInt.declared_type f = ArgParseInt.type_int ->
                  ArgParseInt.get_value f (Some s) <> Ok None)
  /\ (forall f, ArgParseInt.get_value f None = Ok None
                <-> ArgParseInt.declared_type f = ArgParseInt.type_int)
  /\ (forall f s v, s <> "None" ->
                    (ArgParseInt.get_value f (Some s) = Ok (Some v)
                     <-> PyInt.literal s v
                         /\ (PyInt.digit_count (PyStr.chars s) <= 4300)%nat))
  /\ (forall f s, s <> "None" ->
                  (forall v, ~ (PyInt.literal s v
                                /\ (PyInt.digit_count (PyStr.chars s) <= 4300)%nat)) ->
                  ArgParseInt.get_value f (Some s)
                  = Raise (ArgumentError
                             ("argument " ++ ArgParseInt.name f ++ ": invalid "
                                ++ ArgParseInt.type_name (ArgParseInt.declared_type f)
                                ++ " value: " ++ PyStr.repr s)))
  /\ (forall f n, (PyInt.digit_count (PyStr.chars (PyInt.str n)) <= 4300)%nat ->
                  ArgParseInt.get_value f (Some (PyInt.str n)) = Ok (Some n))
  /\ map ArgParseInt.name
         [ArgParseInt.threads; ArgParseInt.best_of; ArgParseInt.beam_size;
          ArgParseInt.vad_min_speech_duration_ms; ArgParseInt.vad_max_speech_duration_s;
          ArgParseInt.vad_min_silence_duration_ms]
     = ["--threads"; "--best_of"; "--beam_size"; "--vad_min_speech_duration_ms";
        "--vad_max_speech_duration_s"; "--vad_min_silence_duration_ms"]
  /\ ArgParseInt.get_value ArgParseInt.threads (Some "x")
     = Raise (ArgumentError "argument --threads: invalid optional_int value: 'x'")
  /\ ArgParseInt.get_value ArgParseInt.vad_min_speech_duration_ms (Some "None")
     = Raise (ArgumentError
                "argument --vad_min_speech_duration_ms: invalid int value: 'None'")
  /\ ArgParseInt.get_value ArgParseInt.beam_size (Some "3") = Ok (Some 3)
  /\ ArgParseInt.get_value ArgParseInt.best_of (Some Sample.long_integer)
     = Raise (ArgumentError ("argument --best_of: invalid optional_int value: '"
                               ++ Sample.long_integer ++ "'")).
Proof.
  change 4300%nat with PyInt.max_str_digits.
  assert (Happly : forall f s, s <> "None" ->
             ArgParseInt.apply_type (ArgParseInt.declared_type f) s
             = rbind (PyInt.int s) (fun v => Ok (Some v))).
  { intros f s Hs. destruct f; cbn; try reflexivity; unfold optional_int;
      (destruct (String.eqb_spec s "None"); [contradiction | reflexivity]). }
  assert (Hlit : forall f s v, s <> "None" ->
             (ArgParseInt.get_value f (Some s) = Ok (Some v)
              <-> PyInt.literal s v
                  /\ (PyInt.digit_count (PyStr.chars s) <= PyInt.max_str_digits)%nat)).
  { intros f s v Hs. unfold ArgParseInt.get_value. rewrite (Happly f s Hs).
    rewrite <- int_ok. destruct (PyInt.int s) as [v'|e]; cbn.
    - split; intros H; injection H as <-; reflexivity.
    - split; discriminate. }
  split; [|split; [|split; [|split; [exact Hlit|split; [|split]]]]].
  - intros f Hf. destruct f; try discriminate Hf; reflexivity.
  - intros f s Hf. unfold ArgParseInt.get_value. rewrite Hf. cbn.
    destruct (PyInt.int s); cbn; discriminate.
  - intros f. destruct f; cbn; split; intros H; try reflexivity; discriminate H.
  - intros f s Hs Hl. unfold ArgParseInt.get_value. rewrite (Happly f s Hs).
    destruct (PyInt.int s) as [v|e] eqn:Hi; [|reflexivity].
    exfalso. apply (Hl v). now apply int_ok.
  - intros f n Hn. apply Hlit; [|split; [apply str_literal | exact Hn]].
    intros Heq. apply (none_not_literal n). rewrite <- Heq. apply str_literal.
  - repeat split; vm_compute; reflexivity.
Qed.

(** ** The corrector, once more *)

(** X16. Correcting twice is correcting once: applied to its own result,
    the corrector warns of nothing and returns that result. *)
Theorem corrector_idempotent :
  forall (R T : Type) (model : string) (model_directory language : option string),
  exists w l,
    correct_language (R:=R) (Transcript:=T) model model_directory language = (w, Ok l)
    /\ correct_language (R:=R) (Transcript:=T) model model_directory l = ([], Ok l).
Proof.
  intros R T model model_directory language. rewrite correct_language_cases.
  destruct (negb (truthy model_directory) && PyStr.endswith model ".en"
            && negb (in_en_English language)) eqn:Hc.
  - eexists; eexists. split; [reflexivity|].
    rewrite correct_language_cases. cbn [in_en_English]. cbn.
    now rewrite andb_false_r.
  - exists [], language. split; [reflexivity|].
    now rewrite correct_language_cases, Hc.
Qed.

Section LanguagePassthrough.

Context {R : Type} {N : Number R} {Transcript : Type}.
Variable env : Env R Transcript.

Lemma not_warning_of (P : event R Transcript -> bool) (t : list (event R Transcript)) :
  (forall e, P e = true -> is_warning e = false) ->
  forallb P t = true -> forallb (fun e => negb (is_warning e)) t = true.
Proof.
  intros HP Ht. rewrite forallb_forall in *. intros e He.
  now rewrite (HP e (Ht e He)).
Qed.

(** X17. When a custom model directory is supplied, or the model name does
    not end in .en, every engine call receives exactly the language the
    resolver returned, and nothing is warned. *)
Theorem uncorrected_language_reaches_engine (a : Args.t R) :
  truthy (Args.model_directory a) = true \/ PyStr.endswith (Args.model a) ".en" = false ->
  (forall e c, In e (fst (main env a)) -> call_of e = Some c ->
               from_language_to_iso_code env (Args.language a)
               = Ok (Engine.language c))
  /\ forallb (fun e => negb (is_warning e)) (fst (main env a)) = true.
Proof.
  intros Hcond.
  assert (Hno : negb (truthy (Args.model_directory a))
                && PyStr.endswith (Args.model a) ".en" = false).
  { destruct Hcond as [H|H]; rewrite H; [reflexivity | apply andb_false_r]. }
  split.
  - intros e c Hin Hc. destruct (main_calls env a e c Hin Hc) as [t Hreach].
    destruct (reaches_dispatch_inv env a t c Hreach)
      as [temperature [l0 [w [language [st [notices
            [_ [_ [Hr [Hcl [_ [_ [_ Hcall]]]]]]]]]]]]].
    rewrite correct_language_cases, Hno in Hcl. cbn in Hcl.
    injection Hcl as _ <-. rewrite Hcall. exact Hr.
  - assert (Hres : forall t r, resolve env a = (t, r) ->
                               t = [Makedirs (Args.output_dir a)]).
    { intros t r. rewrite resolve_cases.
      destruct (makedirs env _); [intros H; now inversion H|].
      destruct (ladder _ _ _); [|intros H; now inversion H].
      destruct (from_language_to_iso_code env _) as [l0|]; [|intros H; now inversion H].
      rewrite correct_language_cases, Hno. cbn [andb].
      destruct (parse_suppress_tokens _); intros H; now inversion H. }
    rewrite main_cases.
    destruct (resolve env a) as [t1 [[language options]|e]] eqn:Hr;
      rewrite (Hres _ _ eq_refl).
    + destruct (validate env a language options) as [t2 [model_dir|e]] eqn:Hv;
        destruct (validate_trace env a _ _ _ _ Hv) as [_ Hn];
        apply (not_warning_of is_notice) in Hn;
        try (intros e0 He0; destruct e0; try discriminate He0; reflexivity).
      * pose proof (dispatch_trace env a (engine_call a model_dir language options)) as Hd.
        apply (not_warning_of is_dispatch_event) in Hd;
          [|intros e0 He0; destruct e0; try discriminate He0; reflexivity].
        destruct (dispatch env a _) as [t3 r]. cbn [fst] in *.
        cbn [app forallb is_warning negb andb]. rewrite forallb_app. now rewrite Hn, Hd.
      * cbn [fst app forallb is_warning negb andb]. exact Hn.
    + reflexivity.
Qed.

End LanguagePassthrough.

Lemma uncorrected_language_reaches_engine_witness :
  In (Inference "a.wav"
                (engine_call Sample2.custom_directory "/models/custom" (Some "fr")
                             (Sample2.default_options Sample2.custom_directory)))
     (fst (main (Sample2.env_with_payload true) Sample2.custom_directory))
  /\ from_language_to_iso_code (Sample2.env_with_payload true)
                               (Args.language Sample2.custom_directory)
     = Ok (Some "fr").
Proof.
  assert (Hin : In (Inference "a.wav"
                      (engine_call Sample2.custom_directory "/models/custom" (Some "fr")
                         (Sample2.default_options Sample2.custom_directory)))
                   (fst (main (Sample2.env_with_payload true) Sample2.custom_directory))).
  { vm_compute. right. left. reflexivity. }
  split; [exact Hin|].
  destruct (uncorrected_language_reaches_engine (Sample2.env_with_payload true)
              Sample2.custom_directory (or_introl eq_refl)) as [H _].
  exact (H _ _ Hin eq_refl).
Defined.
